(** * VideoS-tream: a shallow embedding of the backend's request handlers

    The development follows the backend sources:

    - [backend/src/middleware/auth.js]             ([authenticate], [optionalAuth])
    - [backend/src/controllers/video.controller.js] ([getVideo])
    - [backend/src/controllers/stream.controller.js] ([streamVideo])
    - [backend/src/controllers/auth.controller.js]  ([register], [refreshToken])
    - [backend/src/services/sensitivity.service.enhanced.js] ([analyze] and its rules)
    - [backend/src/workers/videoProcessor.worker.js] (the level mapping)
    - [backend/src/models/*.js]                     (the Mongoose schemas)

    Handlers are pure functions from the document store and the request to
    a response (and, where the handler writes, the new store).  A [throw]
    that reaches the handler's [catch] is the response built there. *)

From Stdlib Require Import ZArith NArith QArith Qminmax Qabs Bool List Lia Lqa.
From Stdlib Require Import Ascii String DecimalString DecimalPos DecimalZ.
Import ListNotations.

Local Open Scope string_scope.
Local Open Scope Z_scope.

(* ================================================================== *)
(** * JavaScript strings and numbers *)
(* ================================================================== *)

Module JS.

(** ** Characters *)

Definition is_digit (c : ascii) : bool :=
  let n := nat_of_ascii c in (48 <=? n)%nat && (n <=? 57)%nat.

Definition digit_val (c : ascii) : Z := Z.of_nat (nat_of_ascii c) - 48.

(** White space and line terminators that [String.prototype.trim] and
    [parseInt] strip, restricted to code units below 256. *)
Definition is_space (c : ascii) : bool :=
  let n := nat_of_ascii c in
  ((9 <=? n)%nat && (n <=? 13)%nat) || (n =? 32)%nat || (n =? 160)%nat.

Definition is_lower (c : ascii) : bool :=
  let n := nat_of_ascii c in (97 <=? n)%nat && (n <=? 122)%nat.

(** The code units below 256 that [toLowerCase] changes: A-Z and the
    Latin-1 capitals U+00C0-U+00DE other than the multiplication sign
    U+00D7; each is lowered by adding 32. *)
Definition is_upper (c : ascii) : bool :=
  let n := nat_of_ascii c in
  ((65 <=? n)%nat && (n <=? 90)%nat)
  || ((192 <=? n)%nat && (n <=? 222)%nat && negb (n =? 215)%nat).

Definition lower_char (c : ascii) : ascii :=
  if is_upper c then ascii_of_nat (nat_of_ascii c + 32) else c.

(** ** Strings *)

Fixpoint forall_chars (p : ascii -> bool) (s : string) : bool :=
  match s with
  | EmptyString => true
  | String c s' => p c && forall_chars p s'
  end.

Fixpoint map_chars (f : ascii -> ascii) (s : string) : string :=
  match s with
  | EmptyString => EmptyString
  | String c s' => String (f c) (map_chars f s')
  end.

(** [s.toLowerCase()] *)
Definition toLowerCase (s : string) : string := map_chars lower_char s.

Fixpoint drop_while (p : ascii -> bool) (s : string) : string :=
  match s with
  | EmptyString => EmptyString
  | String c s' => if p c then drop_while p s' else s
  end.

(** Removes the longest suffix whose characters all satisfy [p]. *)
Fixpoint drop_while_end (p : ascii -> bool) (s : string) : string :=
  match s with
  | EmptyString => EmptyString
  | String c s' =>
      let r := drop_while_end p s' in
      if p c && String.eqb r "" then EmptyString else String c r
  end.

(** [s.trim()] *)
Definition trim (s : string) : string :=
  drop_while_end is_space (drop_while is_space s).

Fixpoint drop (n : nat) (s : string) : string :=
  match n, s with
  | O, _ => s
  | S _, EmptyString => EmptyString
  | S n', String _ s' => drop n' s'
  end.

(** [s.startsWith(p)] *)
Fixpoint startsWith (s p : string) {struct p} : bool :=
  match p with
  | EmptyString => true
  | String a p' =>
      match s with
      | EmptyString => false
      | String b s' => Ascii.eqb a b && startsWith s' p'
      end
  end.

(** [s.replace(/pat/, '')] for a pattern that is a literal text: the
    first occurrence of [pat] is removed, the rest is kept. *)
Fixpoint remove_first (pat s : string) : string :=
  if startsWith s pat then drop (String.length pat) s
  else match s with
       | EmptyString => EmptyString
       | String c s' => String c (remove_first pat s')
       end.

(** [s.split(sep)] for a one-character separator: never the empty list. *)
Fixpoint split (sep : ascii) (s : string) : list string :=
  match s with
  | EmptyString => [EmptyString]
  | String c s' =>
      if Ascii.eqb c sep then EmptyString :: split sep s'
      else match split sep s' with
           | [] => [String c EmptyString]
           | p :: ps => String c p :: ps
           end
  end.

(** A string used as a condition: the empty string is falsy. *)
Definition truthy (s : string) : bool := negb (String.eqb s "").

(** ** Integers as JavaScript numbers

    The numbers of the streaming handler are integers or [NaN].  Integers
    are kept exact; JavaScript keeps them exact up to 2^53, and
    [createReadStream] below refuses larger bounds. *)
Inductive num : Type :=
| Int (z : Z)
| NaN.

Definition num_add (a b : num) : num :=
  match a, b with Int x, Int y => Int (x + y) | _, _ => NaN end.

Definition num_sub (a b : num) : num :=
  match a, b with Int x, Int y => Int (x - y) | _, _ => NaN end.

(** Decimal text of an integer, as a template literal prints it. *)
Definition show_Z (z : Z) : string := NilEmpty.string_of_int (Z.to_int z).

Definition show (n : num) : string :=
  match n with Int z => show_Z z | NaN => "NaN" end.

(** ** [parseInt(s, 10)] *)

Fixpoint parse_digits (s : string) (acc : Z) : Z :=
  match s with
  | EmptyString => acc
  | String c s' =>
      if is_digit c then parse_digits s' (10 * acc + digit_val c) else acc
  end.

Definition starts_with_digit (s : string) : bool :=
  match s with
  | EmptyString => false
  | String c _ => is_digit c
  end.

Definition parse_unsigned (s : string) : num :=
  if starts_with_digit s then Int (parse_digits s 0) else NaN.

Definition negate (n : num) : num :=
  match n with Int z => Int (- z) | NaN => NaN end.

Definition parseInt (s : string) : num :=
  match drop_while is_space s with
  | EmptyString => NaN
  | String c rest =>
      if Ascii.eqb c "-" then negate (parse_unsigned rest)
      else if Ascii.eqb c "+" then parse_unsigned rest
      else parse_unsigned (String c rest)
  end.

End JS.

(* ================================================================== *)
(** * Tokens ([jsonwebtoken], [utils/jwt.js]) *)
(* ================================================================== *)

(** A Mongo [ObjectId]; two ids are compared through [toString()], that
    is, for equality. *)
Definition ObjectId := nat.
Bind Scope nat_scope with ObjectId.

Inductive Role : Type := viewer | editor | admin.

Definition Role_eqb (a b : Role) : bool :=
  match a, b with
  | viewer, viewer | editor, editor | admin, admin => true
  | _, _ => false
  end.

Module Jwt.

(** A compact JWT is determined by its payload and by the key that signed
    it; the model keeps those two instead of the base64 text.  Text that is
    no well-formed token is [Malformed]. *)
Inductive Token : Type :=
| Signed (key : string) (userId : ObjectId)
         (claims : option (Role * ObjectId)) (iat exp : Z)
| Malformed (text : string).

Definition claims_eqb (a b : option (Role * ObjectId)) : bool :=
  match a, b with
  | None, None => true
  | Some (r1, o1), Some (r2, o2) => Role_eqb r1 r2 && Nat.eqb o1 o2
  | _, _ => false
  end.

(** Equality of the token texts ([!==] on strings). *)
Definition Token_eqb (a b : Token) : bool :=
  match a, b with
  | Signed k1 u1 c1 i1 e1, Signed k2 u2 c2 i2 e2 =>
      String.eqb k1 k2 && Nat.eqb u1 u2 && claims_eqb c1 c2
      && Z.eqb i1 i2 && Z.eqb e1 e2
  | Malformed s1, Malformed s2 => String.eqb s1 s2
  | _, _ => false
  end.

Inductive Verified : Type :=
| Decoded (userId : ObjectId)
| TokenExpiredError
| JsonWebTokenError.

(** [jwt.verify(token, secret)] at clock time [now] (seconds). *)
Definition verify (now : Z) (t : Token) (secret : string) : Verified :=
  match t with
  | Malformed _ => JsonWebTokenError
  | Signed key userId _ _ exp =>
      if negb (String.eqb key secret) then JsonWebTokenError
      else if exp <=? now then TokenExpiredError
      else Decoded userId
  end.

End Jwt.

Record Config : Type := {
  jwt_secret : string;
  jwt_refreshSecret : string;
  jwt_expire : Z;
  jwt_refreshExpire : Z
}.

(* ================================================================== *)
(** * Documents ([models/User.js], [Organization.js], [Video.js]) *)
(* ================================================================== *)

Inductive Visibility : Type := vis_private | vis_organization | vis_public.

Inductive VideoStatus : Type := uploading | processing | completed | failed.

Definition VideoStatus_eqb (a b : VideoStatus) : bool :=
  match a, b with
  | uploading, uploading | processing, processing
  | completed, completed | failed, failed => true
  | _, _ => false
  end.

Definition status_text (s : VideoStatus) : string :=
  match s with
  | uploading => "uploading"
  | processing => "processing"
  | completed => "completed"
  | failed => "failed"
  end.

Record User : Type := {
  user_id : ObjectId;
  user_email : string;
  user_password : string;
  user_name : string;
  user_role : Role;
  user_organizationId : ObjectId;
  user_isActive : bool;
  user_refreshToken : option Jwt.Token
}.

Record Organization : Type := {
  org_id : ObjectId;
  org_name : string;
  org_slug : string;
  org_ownerId : option ObjectId;
  org_isActive : bool
}.

(** The fields of a video that the two read handlers consult. *)
Record Video : Type := {
  video_id : ObjectId;
  video_title : string;
  video_fileSize : Z;
  video_format : string;
  video_storageKey : string;
  video_organizationId : ObjectId;
  video_uploadedBy : ObjectId;
  video_visibility : Visibility;
  video_allowedUsers : list ObjectId;
  video_status : VideoStatus;
  video_viewCount : Z
}.

(** The document store, the blobs of the storage service keyed by
    [storageKey], and the next fresh [ObjectId]. *)
Record DB : Type := {
  users : list User;
  organizations : list Organization;
  videos : list Video;
  files : list (string * list Byte.byte);
  nextId : ObjectId
}.

Definition User_findById (db : DB) (id : ObjectId) : option User :=
  find (fun u => Nat.eqb (user_id u) id) (users db).

Definition Video_findById (db : DB) (id : ObjectId) : option Video :=
  find (fun v => Nat.eqb (video_id v) id) (videos db).

(** [fs.existsSync(storageService.getLocalPath(key))] and the content
    found there. *)
Definition file_at (db : DB) (key : string) : option (list Byte.byte) :=
  match find (fun kv => String.eqb (fst kv) key) (files db) with
  | Some kv => Some (snd kv)
  | None => None
  end.

(* ================================================================== *)
(** * Requests and responses *)
(* ================================================================== *)

Inductive AuthHeader : Type :=
| Bearer (t : Jwt.Token)          (* "Bearer " followed by the token text *)
| OtherScheme (text : string).    (* a value that does not start with "Bearer " *)

Record Request : Type := {
  params_id : ObjectId;
  header_authorization : option AuthHeader;
  header_range : option string;
  query_token : option Jwt.Token;
  cookie_refreshToken : option Jwt.Token
}.

Inductive Body : Type :=
| Json (fields : list (string * string))
| JsonVideo (v : Video)
| JsonSession (u : User) (accessToken : Jwt.Token)
| Stream (bytes : list Byte.byte).

Record Response : Type := {
  res_status : nat;
  res_headers : list (string * string);
  res_cookie : option Jwt.Token;      (* [res.cookie('refreshToken', ...)] *)
  res_body : Body
}.

Definition json (status : nat) (fields : list (string * string)) : Response :=
  {| res_status := status; res_headers := []; res_cookie := None;
     res_body := Json fields |}.

Definition header (name : string) (r : Response) : option string :=
  match find (fun kv => String.eqb (fst kv) name) (res_headers r) with
  | Some kv => Some (snd kv)
  | None => None
  end.

(** The bytes a response streams; none for a JSON body. *)
Definition streamed (r : Response) : list Byte.byte :=
  match res_body r with Stream bytes => bytes | _ => [] end.

(* ================================================================== *)
(** * [middleware/auth.js] *)
(* ================================================================== *)

Section Middleware.

Variable cfg : Config.
Variable now : Z.

(** [authenticate]: the response it sends, or the user it attaches as
    [req.user], [req.userId], [req.organizationId], [req.userRole]. *)
Definition authenticate (db : DB) (req : Request) : Response + User :=
  match header_authorization req with
  | Some (Bearer token) =>
      match Jwt.verify now token (jwt_secret cfg) with
      | Jwt.Decoded userId =>
          match User_findById db userId with
          | Some user =>
              if user_isActive user then inr user
              else inl (json 401 [("error", "Invalid token or inactive user")])
          | None => inl (json 401 [("error", "Invalid token or inactive user")])
          end
      | Jwt.TokenExpiredError =>
          inl (json 401 [("error", "Token expired"); ("code", "TOKEN_EXPIRED")])
      | Jwt.JsonWebTokenError => inl (json 401 [("error", "Invalid token")])
      end
  | _ => inl (json 401 [("error", "No token provided")])
  end.

(** [optionalAuth]: reads the [Authorization] header only and always calls
    [next()]; the user it attaches, if any. *)
Definition optionalAuth (db : DB) (req : Request) : option User :=
  match header_authorization req with
  | Some (Bearer token) =>
      match Jwt.verify now token (jwt_secret cfg) with
      | Jwt.Decoded userId =>
          match User_findById db userId with
          | Some user => if user_isActive user then Some user else None
          | None => None
          end
      | _ => None
      end
  | _ => None
  end.

End Middleware.

(* ================================================================== *)
(** * [controllers/video.controller.js]: [getVideo] *)
(* ================================================================== *)

Definition is_private (v : Visibility) : bool :=
  match v with vis_private => true | _ => false end.

(** [getVideo], behind [router.use(authenticate)]: [user] is what
    [authenticate] attached.  [populate('uploadedBy')] leaves [null] when
    the uploader's row is gone, and [video.uploadedBy._id] then throws. *)
Definition getVideo (db : DB) (req : Request) (user : User) : Response :=
  match Video_findById db (params_id req) with
  | None => json 404 [("error", "Video not found")]
  | Some video =>
      if negb (Nat.eqb (video_organizationId video) (user_organizationId user))
      then json 403 [("error", "Access denied")]
      else if is_private (video_visibility video) then
        match User_findById db (video_uploadedBy video) with
        | None => json 500 [("error", "Failed to fetch video")]
        | Some uploader =>
            if negb (Nat.eqb (user_id uploader) (user_id user))
               && negb (Role_eqb (user_role user) admin)
            then json 403 [("error", "Access denied to private video")]
            else {| res_status := 200; res_headers := []; res_cookie := None;
                    res_body := JsonVideo video |}
        end
      else {| res_status := 200; res_headers := []; res_cookie := None;
              res_body := JsonVideo video |}
  end.

(** GET /api/videos/:id as routed in [routes/video.routes.js]. *)
Definition GET_video (cfg : Config) (now : Z) (db : DB) (req : Request)
  : Response :=
  match authenticate cfg now db req with
  | inl denied => denied
  | inr user => getVideo db req user
  end.

(* ================================================================== *)
(** * [controllers/stream.controller.js]: [streamVideo] *)
(* ================================================================== *)

Definition getMimeType (format : string) : string :=
  let f := JS.toLowerCase format in
  if String.eqb f "mp4" then "video/mp4"
  else if String.eqb f "webm" then "video/webm"
  else if String.eqb f "ogg" then "video/ogg"
  else if String.eqb f "avi" then "video/x-msvideo"
  else if String.eqb f "mov" then "video/quicktime"
  else if String.eqb f "mkv" then "video/x-matroska"
  else "video/mp4".

(** The bytes of [content] at positions [start] to [end_] inclusive (fewer
    when the file ends before [end_]). *)
Definition slice (content : list Byte.byte) (start end_ : Z) : list Byte.byte :=
  firstn (Z.to_nat (end_ - start + 1)) (skipn (Z.to_nat start) content).

(** [Number.MAX_SAFE_INTEGER] *)
Definition MAX_SAFE_INTEGER : Z := 9007199254740991.

(** [fs.createReadStream(path, { start, end })]: Node validates that both
    bounds are integers between 0 and [Number.MAX_SAFE_INTEGER] with
    [start <= end], and throws otherwise; the stream then yields the bytes
    in that window. *)
Definition createReadStream (content : list Byte.byte) (start end_ : JS.num)
  : option (list Byte.byte) :=
  match start, end_ with
  | JS.Int s, JS.Int e =>
      if (0 <=? s) && (s <=? MAX_SAFE_INTEGER)
         && (0 <=? e) && (e <=? MAX_SAFE_INTEGER) && (s <=? e)
      then Some (slice content s e)
      else None
  | _, _ => None
  end.

(** [Video.findByIdAndUpdate(id, { $inc: { viewCount: 1 }, ... })] *)
Definition incViewCount (db : DB) (id : ObjectId) : DB :=
  {| users := users db;
     organizations := organizations db;
     videos :=
       map (fun v =>
              if Nat.eqb (video_id v) id then
                {| video_id := video_id v;
                   video_title := video_title v;
                   video_fileSize := video_fileSize v;
                   video_format := video_format v;
                   video_storageKey := video_storageKey v;
                   video_organizationId := video_organizationId v;
                   video_uploadedBy := video_uploadedBy v;
                   video_visibility := video_visibility v;
                   video_allowedUsers := video_allowedUsers v;
                   video_status := video_status v;
                   video_viewCount := video_viewCount v + 1 |}
              else v)
           (videos db);
     files := files db;
     nextId := nextId db |}.

(** The two bounds read from a [Range] header value:
    [parts = range.replace(/bytes=/, '').split('-')],
    [start = parseInt(parts[0], 10)],
    [end = parts[1] ? parseInt(parts[1], 10) : videoSize - 1]. *)
Definition range_bounds (range : string) (videoSize : Z) : JS.num * JS.num :=
  let parts := JS.split "-" (JS.remove_first "bytes=" range) in
  let start := JS.parseInt (nth 0 parts "") in
  let end_ :=
    match nth_error parts 1 with
    | Some p => if JS.truthy p then JS.parseInt p else JS.Int (videoSize - 1)
    | None => JS.Int (videoSize - 1)
    end in
  (start, end_).

(** [streamVideo]; [attached] is the user [optionalAuth] attached, if any
    ([req.organizationId] is set exactly then). *)
Definition streamVideo (db : DB) (req : Request) (attached : option User)
  : Response * DB :=
  match Video_findById db (params_id req) with
  | None => (json 404 [("error", "Video not found")], db)
  | Some video =>
      if match attached with
         | Some user =>
             negb (Nat.eqb (video_organizationId video) (user_organizationId user))
         | None => false
         end
      then (json 403 [("error", "Access denied")], db)
      else if negb (VideoStatus_eqb (video_status video) completed)
      then (json 400 [("error", "Video not ready for streaming");
                      ("status", status_text (video_status video))], db)
      else
        match file_at db (video_storageKey video) with
        | None => (json 404 [("error", "Video file not found")], db)
        | Some content =>
            let videoSize := video_fileSize video in
            let mimeType := getMimeType (video_format video) in
            match header_range req with
            | Some range =>
                if JS.truthy range then
                  let (start, end_) := range_bounds range videoSize in
                  let chunkSize := JS.num_add (JS.num_sub end_ start) (JS.Int 1) in
                  match createReadStream content start end_ with
                  | None => (json 500 [("error", "Streaming failed")], db)
                  | Some fileStream =>
                      ({| res_status := 206;
                          res_headers :=
                            [("Content-Range",
                              "bytes " ++ JS.show start ++ "-" ++ JS.show end_
                                ++ "/" ++ JS.show_Z videoSize);
                             ("Accept-Ranges", "bytes");
                             ("Content-Length", JS.show chunkSize);
                             ("Content-Type", mimeType);
                             ("Cache-Control", "public, max-age=31536000")];
                          res_cookie := None;
                          res_body := Stream fileStream |},
                       incViewCount db (params_id req))
                  end
                else
                  ({| res_status := 200;
                      res_headers :=
                        [("Content-Length", JS.show_Z videoSize);
                         ("Content-Type", mimeType);
                         ("Cache-Control", "public, max-age=31536000")];
                      res_cookie := None;
                    res_body := Stream content |},
                   incViewCount db (params_id req))
            | None =>
                ({| res_status := 200;
                    res_headers :=
                      [("Content-Length", JS.show_Z videoSize);
                       ("Content-Type", mimeType);
                       ("Cache-Control", "public, max-age=31536000")];
                    res_cookie := None;
                    res_body := Stream content |},
                 incViewCount db (params_id req))
            end
        end
  end.

(** GET /api/stream/:id as routed in [routes/stream.routes.js]:
    [optionalAuth], then [streamVideo]. *)
Definition GET_stream (cfg : Config) (now : Z) (db : DB) (req : Request)
  : Response * DB :=
  streamVideo db req (optionalAuth cfg now db req).

(* ================================================================== *)
(** * [services/sensitivity.service.enhanced.js] *)
(* ================================================================== *)

Module Sensitivity.

Local Open Scope Q_scope.

(** ** Probed numbers

    The duration and the frame rate are JavaScript numbers: finite,
    infinite or [NaN] ([undefined] behaves as [NaN] in every comparison and
    product below).  Finite values and the score are rationals, so the
    decimal constants of the source (0.1, 0.15, 0.7, ...) are the exact
    decimals. *)
Inductive fnum : Type :=
| Fin (q : Q)
| PosInf
| NegInf
| NotANumber.

Definition Qltb (x y : Q) : bool := negb (Qle_bool y x).

(** [a < b] *)
Definition lt (a b : fnum) : bool :=
  match a, b with
  | Fin x, Fin y => Qltb x y
  | NegInf, Fin _ | NegInf, PosInf | Fin _, PosInf => true
  | _, _ => false
  end.

(** [a > b] *)
Definition gt (a b : fnum) : bool := lt b a.

(** [a === 0] *)
Definition is_zero (a : fnum) : bool :=
  match a with Fin x => Qeq_bool x 0 | _ => false end.

(** [!a] *)
Definition falsy (a : fnum) : bool :=
  match a with Fin x => Qeq_bool x 0 | NotANumber => true | _ => false end.

(** [a * k] for a positive finite constant [k] *)
Definition scale (a : fnum) (k : Q) : fnum :=
  match a with Fin x => Fin (x * k) | other => other end.

(** [a / b] *)
Definition div (a b : fnum) : fnum :=
  match a, b with
  | NotANumber, _ | _, NotANumber => NotANumber
  | Fin x, Fin y =>
      if Qeq_bool y 0 then
        if Qltb 0 x then PosInf else if Qltb x 0 then NegInf else NotANumber
      else Fin (x / y)
  | Fin _, _ => Fin 0
  | PosInf, Fin y => if Qltb y 0 then NegInf else PosInf
  | NegInf, Fin y => if Qltb y 0 then PosInf else NegInf
  | _, _ => NotANumber
  end.

(** What [ffmpegService.extractMetadata] resolves to.  The [aspectRatio]
    that [extractDetailedMetadata] adds is a function of [width] and
    [height] and is recomputed where it is read. *)
Record Metadata : Type := {
  duration : fnum;         (* [metadata.format.duration] *)
  width : Z;               (* [videoStream?.width || 0] *)
  height : Z;              (* [videoStream?.height || 0] *)
  codec : string;          (* [videoStream?.codec_name || 'unknown'] *)
  bitrate : Z;             (* [parseInt(metadata.format.bit_rate) || 0] *)
  frameRate : fnum;        (* [eval(videoStream.r_frame_rate)] or 0 *)
  audioCodec : string      (* [audioStream?.codec_name || 'none'] *)
}.

(** The two fields of the video document the analyser reads. *)
Record VideoFacts : Type := {
  fileSize : Z;
  format : string
}.

(** An integer as a probed number. *)
Definition of_Z (z : Z) : fnum := Fin (inject_Z z).

(** [this.thresholds] *)
Definition duration_veryLong : fnum := Fin 7200.
Definition duration_suspicious : fnum := Fin 10800.
Definition bitrate_veryHigh : fnum := Fin 15000000.
Definition bitrate_veryLow : fnum := Fin 100000.
Definition resolution_minWidth : fnum := Fin 320.
Definition resolution_maxWidth : fnum := Fin 7680.
Definition resolution_minHeight : fnum := Fin 240.
Definition resolution_maxHeight : fnum := Fin 4320.
Definition frameRate_min : fnum := Fin 15.
Definition frameRate_max : fnum := Fin 120.

(** [this.categoryWeights] *)
Definition categoryWeights (category : string) : Q :=
  if String.eqb category "long_duration" then 0.1
  else if String.eqb category "unusual_resolution" then 0.15
  else if String.eqb category "high_bitrate" then 0.1
  else if String.eqb category "low_bitrate" then 0.15
  else if String.eqb category "no_audio" then 0.05
  else if String.eqb category "no_video_stream" then 0.3
  else if String.eqb category "corrupt_metadata" then 0.25
  else if String.eqb category "unusual_framerate" then 0.1
  else if String.eqb category "suspicious_aspect_ratio" then 0.1
  else if String.eqb category "black_frames" then 0.2
  else if String.eqb category "audio_issues" then 0.15
  else 0.

(** The pair [{ issues, score }] the rule functions build up:
    [issues.push(issue); score += weight]. *)
Definition Findings : Type := (list string * Q)%type.

Definition no_findings : Findings := ([], 0).

Definition push (f : Findings) (issue : string) (weight : Q) : Findings :=
  ((fst f ++ [issue])%list, snd f + weight).

Definition issues (f : Findings) : list string := fst f.
Definition score (f : Findings) : Q := snd f.

(** [calculateAspectRatio(width, height).ratio]; [None] stands for the
    [0] returned when a side is falsy. *)
Definition calculateAspectRatio (w h : Z) : option fnum :=
  if falsy (of_Z w) || falsy (of_Z h) then None else Some (div (of_Z w) (of_Z h)).

Definition near (ratio : fnum) (value tolerance : Q) : bool :=
  match ratio with
  | Fin r => Qltb (Qabs (r - value)) tolerance
  | _ => false
  end.

Definition isCommonAspectRatio (aspectRatio : option fnum) : bool :=
  match aspectRatio with
  | None => false
  | Some ratio =>
      if falsy ratio then false
      else near ratio (16 # 9) 0.05 || near ratio (4 # 3) 0.05
           || near ratio (21 # 9) 0.05 || near ratio 1 0.05
           || near ratio (9 # 16) 0.05
  end.

Definition isCommonAudioCodec (c : string) : bool :=
  let l := JS.toLowerCase c in
  existsb (String.eqb l) ["aac"; "mp3"; "opus"; "vorbis"; "ac3"; "pcm"].

(** ** [checkVideoIntegrity] *)
Definition checkVideoIntegrity (m : Metadata) (video : VideoFacts) : Findings :=
  let f := no_findings in
  let f := if falsy (duration m) || is_zero (duration m)
           then push f "no_duration" (categoryWeights "corrupt_metadata")
           else f in
  let f := if is_zero (of_Z (width m)) || is_zero (of_Z (height m))
           then push f "no_video_stream" (categoryWeights "no_video_stream")
           else f in
  let f := if negb (JS.truthy (codec m)) || String.eqb (codec m) "unknown"
           then push f "unknown_codec" 0.1
           else f in
  let expectedMinSize := scale (duration m) 100000 in
  let f := if lt (of_Z (fileSize video)) expectedMinSize
           then push f "suspiciously_small_file" 0.15
           else f in
  f.

(** ** [analyzeVideoCharacteristics] *)

(** The first statement: the [if / else if] on the duration. *)
Definition durationRule (f : Findings) (m : Metadata) : Findings :=
  if gt (duration m) duration_suspicious
  then push f "extremely_long_duration" (categoryWeights "long_duration" * 1.5)
  else if gt (duration m) duration_veryLong
  then push f "long_duration" (categoryWeights "long_duration")
  else f.

(** The statements after it: resolution, aspect ratio, bitrate, frame rate. *)
Definition otherRules (f : Findings) (m : Metadata) : Findings :=
  let f := if gt (of_Z (width m)) resolution_maxWidth
              || gt (of_Z (height m)) resolution_maxHeight
           then push f "extremely_high_resolution" (categoryWeights "unusual_resolution")
           else f in
  let f := if lt (of_Z (width m)) resolution_minWidth
              || lt (of_Z (height m)) resolution_minHeight
           then push f "very_low_resolution" (categoryWeights "unusual_resolution")
           else f in
  let aspectRatio := calculateAspectRatio (width m) (height m) in
  let f := if negb (isCommonAspectRatio aspectRatio)
           then push f "unusual_aspect_ratio" (categoryWeights "suspicious_aspect_ratio")
           else f in
  let f := if gt (of_Z (bitrate m)) bitrate_veryHigh
           then push f "extremely_high_bitrate" (categoryWeights "high_bitrate")
           else f in
  let f := if lt (of_Z (bitrate m)) bitrate_veryLow && gt (duration m) (Fin 60)
           then push f "very_low_bitrate" (categoryWeights "low_bitrate")
           else f in
  let f := if gt (frameRate m) frameRate_max
           then push f "unusually_high_framerate" (categoryWeights "unusual_framerate")
           else f in
  let f := if lt (frameRate m) frameRate_min && gt (frameRate m) (Fin 0)
           then push f "very_low_framerate" (categoryWeights "unusual_framerate")
           else f in
  f.

Definition analyzeVideoCharacteristics (m : Metadata) : Findings :=
  otherRules (durationRule no_findings m) m.

(** ** [analyzeAudioCharacteristics] *)
Definition analyzeAudioCharacteristics (m : Metadata) : Findings :=
  let f := no_findings in
  let f := if String.eqb (audioCodec m) "none" || negb (JS.truthy (audioCodec m))
           then if gt (duration m) (Fin 60)
                then push f "no_audio_long_video" (categoryWeights "no_audio")
                else f
           else f in
  let f := if JS.truthy (audioCodec m) && negb (isCommonAudioCodec (audioCodec m))
           then push f "unusual_audio_codec" 0.05
           else f in
  f.

(** ** [analyzeFileConsistency] *)
Definition analyzeFileConsistency (m : Metadata) (video : VideoFacts) : Findings :=
  let f := no_findings in
  let bytesPerSecond := div (of_Z (fileSize video)) (duration m) in
  let f := if gt bytesPerSecond (Fin 10000000)
           then push f "high_data_rate" 0.1
           else f in
  let f := if lt bytesPerSecond (Fin 50000) && gt (duration m) (Fin 60)
           then push f "low_data_rate" 0.15
           else f in
  let f := if negb (existsb (String.eqb (JS.toLowerCase (format video)))
                            ["mp4"; "avi"; "mov"; "mkv"; "webm"])
           then push f "unusual_format" 0.05
           else f in
  f.

(** ** [analyzeFrames] with [sampleCount = 5], from the sizes of the
    extracted frame files. *)
Definition analyzeFrames (frameSizes : list Z) : Findings :=
  let blackFrames :=
    List.length (filter (fun size => (size <? 5000)%Z) frameSizes) in
  if Qltb (5 * 0.5) (inject_Z (Z.of_nat blackFrames))
  then push no_findings "many_black_frames" (categoryWeights "black_frames")
  else no_findings.

(** ** [analyze] *)

Inductive Status : Type := safe | review_needed | flagged.

Record Result : Type := {
  result_status : Status;
  result_score : Q;
  result_confidence : Q;
  result_categories : list string
}.

(** [totalScore += r.score; detectedIssues.push(...r.issues)] *)
Definition accumulate (total r : Findings) : Findings :=
  ((fst total ++ fst r)%list, snd total + snd r).

(** The end of [analyze]: clamp, threshold, build the result. *)
Definition conclude (total : Findings) : Result :=
  let totalScore := Qmin 1 (score total) in
  let detectedIssues := issues total in
  let confidence := 1 - totalScore in
  let (status, detectedIssues) :=
    if Qltb 0.7 totalScore then (flagged, detectedIssues)
    else if Qltb 0.4 totalScore
    then (review_needed, (detectedIssues ++ ["manual_review_recommended"])%list)
    else (safe, detectedIssues) in
  {| result_status :=
       match status with review_needed => flagged | other => other end;
     result_score := totalScore;
     result_confidence := confidence;
     result_categories := detectedIssues |}.

(** [probe] is [None] when [extractDetailedMetadata] throws (the [catch]
    branch; [message] is the error's text).  [frames] is [Some sizes] when
    [ENABLE_FRAME_ANALYSIS] is set and the frames were extracted. *)
Definition analyze (probe : option Metadata) (message : string)
    (video : VideoFacts) (frames : option (list Z)) : Result :=
  match probe with
  | None =>
      {| result_status := safe;
         result_score := 0;
         result_confidence := 0;
         result_categories := ["analysis_error"; message] |}
  | Some metadata =>
      let total := no_findings in
      let integrityCheck := checkVideoIntegrity metadata video in
      let total :=
        match issues integrityCheck with
        | [] => total
        | _ :: _ => accumulate total integrityCheck
        end in
      let total := accumulate total (analyzeVideoCharacteristics metadata) in
      let total := accumulate total (analyzeAudioCharacteristics metadata) in
      let total := accumulate total (analyzeFileConsistency metadata video) in
      let total :=
        match frames with
        | Some sizes => accumulate total (analyzeFrames sizes)
        | None => total
        end in
      conclude total
  end.

(** ** The level mapping of [workers/videoProcessor.worker.js] *)

Inductive Level : Type := low | medium | high.


End Sensitivity.

(* ================================================================== *)
(** * Mongoose operations on [User] and [Organization] *)
(* ================================================================== *)

(** The [lowercase: true, trim: true] setters of the [email] and [slug]
    paths; Mongoose applies them to a document's value and to the value of
    a query filter alike. *)
Definition cast_lower_trim (s : string) : string := JS.trim (JS.toLowerCase s).

Definition is_slug_char (c : ascii) : bool :=
  JS.is_lower c || JS.is_digit c || Ascii.eqb c "-".

(** [match: /^[a-z0-9-]+$/] *)
Definition slug_matches (s : string) : bool :=
  JS.truthy s && JS.forall_chars is_slug_char s.

Definition is_email_char (c : ascii) : bool :=
  negb (JS.is_space c) && negb (Ascii.eqb c "@").

(** Some ["."] of [s] is followed by at least one more character. *)
Fixpoint dot_before_end (s : string) : bool :=
  match s with
  | String "." (String _ _) => true
  | String _ s' => dot_before_end s'
  | EmptyString => false
  end.

(** [match: /^[^\s@]+@[^\s@]+\.[^\s@]+$/] *)
Definition email_matches (s : string) : bool :=
  match JS.split "@" s with
  | [localPart; domain] =>
      JS.truthy localPart
      && JS.forall_chars is_email_char localPart
      && JS.forall_chars is_email_char domain
      && match domain with
         | String _ rest => dot_before_end rest
         | EmptyString => false
         end
  | _ => false
  end.

Definition length_between (lo hi : nat) (s : string) : bool :=
  (lo <=? String.length s)%nat && (String.length s <=? hi)%nat.

(** [User.findOne({ email })] *)
Definition User_findOne_email (db : DB) (email : string) : option User :=
  find (fun u => String.eqb (user_email u) (cast_lower_trim email)) (users db).

(** [Organization.findOne({ slug })] *)
Definition Organization_findOne_slug (db : DB) (slug : string)
  : option Organization :=
  find (fun o => String.eqb (org_slug o) (cast_lower_trim slug))
       (organizations db).

(** [Organization.create({ name, slug })]: [None] when validation or the
    unique index on [slug] rejects the document (the call throws). *)
Definition Organization_create (db : DB) (name slug : string)
  : option (Organization * DB) :=
  let name' := JS.trim name in
  let slug' := cast_lower_trim slug in
  if length_between 2 100 name'
     && slug_matches slug'
     && negb (existsb (fun o => String.eqb (org_slug o) slug') (organizations db))
  then
    let organization :=
      {| org_id := nextId db;
         org_name := name';
         org_slug := slug';
         org_ownerId := None;
         org_isActive := true |} in
    Some (organization,
          {| users := users db;
             organizations := organizations db ++ [organization];
             videos := videos db;
             files := files db;
             nextId := S (nextId db) |})
  else None.

(** [User.create({ email, password, name, organizationId, role })]: [None]
    when validation or the unique index on [email] rejects the document.
    [user_password] keeps the text whose bcrypt hash is stored. *)
Definition User_create (db : DB) (email password name : string)
    (organizationId : ObjectId) (role : Role) : option (User * DB) :=
  let email' := cast_lower_trim email in
  let name' := JS.trim name in
  if email_matches email'
     && (8 <=? String.length password)%nat
     && length_between 2 50 name'
     && negb (existsb (fun u => String.eqb (user_email u) email') (users db))
  then
    let user :=
      {| user_id := nextId db;
         user_email := email';
         user_password := password;
         user_name := name';
         user_role := role;
         user_organizationId := organizationId;
         user_isActive := true;
         user_refreshToken := None |} in
    Some (user,
          {| users := users db ++ [user];
             organizations := organizations db;
             videos := videos db;
             files := files db;
             nextId := S (nextId db) |})
  else None.

(** [Organization.findByIdAndUpdate(id, { ownerId })] *)
Definition Organization_setOwner (db : DB) (id ownerId : ObjectId) : DB :=
  {| users := users db;
     organizations :=
       map (fun o =>
              if Nat.eqb (org_id o) id then
                {| org_id := org_id o;
                   org_name := org_name o;
                   org_slug := org_slug o;
                   org_ownerId := Some ownerId;
                   org_isActive := org_isActive o |}
              else o)
           (organizations db);
     videos := videos db;
     files := files db;
     nextId := nextId db |}.

Definition with_refreshToken (u : User) (t : option Jwt.Token) : User :=
  {| user_id := user_id u;
     user_email := user_email u;
     user_password := user_password u;
     user_name := user_name u;
     user_role := user_role u;
     user_organizationId := user_organizationId u;
     user_isActive := user_isActive u;
     user_refreshToken := t |}.

(** [user.refreshToken = t; await user.save()] *)
Definition User_saveRefreshToken (db : DB) (id : ObjectId) (t : Jwt.Token) : DB :=
  {| users :=
       map (fun u =>
              if Nat.eqb (user_id u) id then with_refreshToken u (Some t) else u)
           (users db);
     organizations := organizations db;
     videos := videos db;
     files := files db;
     nextId := nextId db |}.

(* ================================================================== *)
(** * [utils/jwt.js] *)
(* ================================================================== *)

Definition generateAccessToken (cfg : Config) (now : Z) (user : User)
  : Jwt.Token :=
  Jwt.Signed (jwt_secret cfg) (user_id user)
             (Some (user_role user, user_organizationId user))
             now (now + jwt_expire cfg).

Definition generateRefreshToken (cfg : Config) (now : Z) (user : User)
  : Jwt.Token :=
  Jwt.Signed (jwt_refreshSecret cfg) (user_id user) None
             now (now + jwt_refreshExpire cfg).

(* ================================================================== *)
(** * [controllers/auth.controller.js]: [register], [refreshToken] *)
(* ================================================================== *)

Record RegisterBody : Type := {
  reg_email : string;
  reg_password : string;
  reg_name : string;
  reg_organizationName : option string
}.

(** The [organizationName] of the body when it is truthy
    ([if (organizationName)]): neither missing nor the empty text. *)
Definition truthyName (organizationName : option string) : option string :=
  match organizationName with
  | Some n => if JS.truthy n then Some n else None
  | None => None
  end.

Definition given (organizationName : option string) : bool :=
  match truthyName organizationName with
  | Some _ => true
  | None => false
  end.

Definition is_hyphen (c : ascii) : bool := Ascii.eqb c "-".

(** [s.replace(/[^a-z0-9]+/g, '-')]; [in_run] tells that the previous
    character belonged to the run being replaced. *)
Fixpoint hyphenate (in_run : bool) (s : string) : string :=
  match s with
  | EmptyString => EmptyString
  | String c s' =>
      if JS.is_lower c || JS.is_digit c then String c (hyphenate false s')
      else if in_run then hyphenate true s'
      else String "-" (hyphenate true s')
  end.

(** [organizationName.toLowerCase().replace(/[^a-z0-9]+/g, '-')
      .replace(/^-+|-+$/g, '')] *)
Definition slugify (organizationName : string) : string :=
  JS.drop_while_end is_hyphen
    (JS.drop_while is_hyphen (hyphenate false (JS.toLowerCase organizationName))).

(** The loop
    [while (await Organization.findOne({ slug: finalSlug }))
       { finalSlug = `${slug}-${counter}`; counter++ }];
    [fuel] bounds the number of tests of the condition. *)
Fixpoint freeSlug (fuel : nat) (db : DB) (slug finalSlug : string) (counter : Z)
  : option string :=
  match fuel with
  | O => None
  | S fuel' =>
      match Organization_findOne_slug db finalSlug with
      | Some _ =>
          freeSlug fuel' db slug (slug ++ "-" ++ JS.show_Z counter) (counter + 1)
      | None => Some finalSlug
      end
  end.

Definition registrationFailed : Response :=
  json 500 [("error", "Registration failed")].

Section AuthController.

Variable cfg : Config.
Variable now : Z.

(** From [// Create user] to the end of [register]. *)
Definition createUserAndRespond (db : DB) (body : RegisterBody)
    (organizationId : ObjectId) (userRole : Role) : Response * DB :=
  match User_create db (reg_email body) (reg_password body) (reg_name body)
                    organizationId userRole with
  | None => (registrationFailed, db)
  | Some (user, db) =>
      let db := if given (reg_organizationName body)
                then Organization_setOwner db organizationId (user_id user)
                else db in
      let accessToken := generateAccessToken cfg now user in
      let refreshToken := generateRefreshToken cfg now user in
      let user := with_refreshToken user (Some refreshToken) in
      let db := User_saveRefreshToken db (user_id user) refreshToken in
      ({| res_status := 201;
          res_headers := [];
          res_cookie := Some refreshToken;
          res_body := JsonSession user accessToken |}, db)
  end.

(** [register]; [None] only if the slug loop were to exhaust its fuel,
    which [register_returns] below excludes. *)
Definition register (db : DB) (body : RegisterBody) : option (Response * DB) :=
  match User_findOne_email db (reg_email body) with
  | Some _ =>
      Some (json 409 [("error", "User with this email already exists")], db)
  | None =>
      match truthyName (reg_organizationName body) with
      | Some organizationName =>
          let slug := slugify organizationName in
          match freeSlug (S (List.length (organizations db))) db slug slug 1 with
          | None => None
          | Some finalSlug =>
              match Organization_create db organizationName finalSlug with
              | None => Some (registrationFailed, db)
              | Some (organization, db) =>
                  Some (createUserAndRespond db body (org_id organization) admin)
              end
          end
      | None =>
          match Organization_findOne_slug db "default" with
          | Some defaultOrg =>
              Some (createUserAndRespond db body (org_id defaultOrg) editor)
          | None =>
              match Organization_create db "Default Organization" "default" with
              | None => Some (registrationFailed, db)
              | Some (defaultOrg, db) =>
                  Some (createUserAndRespond db body (org_id defaultOrg) editor)
              end
          end
      end
  end.

(** [if (!refreshToken)]: a missing cookie or the empty text. *)
Definition presented (cookie : option Jwt.Token) : option Jwt.Token :=
  match cookie with
  | Some (Jwt.Malformed text) =>
      if JS.truthy text then cookie else None
  | other => other
  end.

(** [user.refreshToken !== refreshToken] *)
Definition slot_differs (slot : option Jwt.Token) (t : Jwt.Token) : bool :=
  match slot with
  | Some stored => negb (Jwt.Token_eqb stored t)
  | None => true
  end.

(** [refreshToken]: the response and the store it leaves (it writes
    nothing). *)
Definition refreshToken (db : DB) (req : Request) : Response * DB :=
  match presented (cookie_refreshToken req) with
  | None => (json 401 [("error", "No refresh token provided")], db)
  | Some token =>
      match Jwt.verify now token (jwt_refreshSecret cfg) with
      | Jwt.Decoded userId =>
          match User_findById db userId with
          | Some user =>
              if negb (user_isActive user)
              then (json 401 [("error", "Invalid refresh token")], db)
              else if slot_differs (user_refreshToken user) token
              then (json 401 [("error", "Refresh token mismatch")], db)
              else
                ({| res_status := 200;
                    res_headers := [];
                    res_cookie := None;
                    res_body :=
                      JsonSession user (generateAccessToken cfg now user) |}, db)
          | None => (json 401 [("error", "Invalid refresh token")], db)
          end
      | _ => (json 401 [("error", "Token refresh failed")], db)
      end
  end.

End AuthController.

(* ================================================================== *)
(** * [controllers/auth.controller.js]: [login], [logout], [updateProfile] *)
(* ================================================================== *)

(** The answer of a handler whose JSON body carries a message and,
    on success, one document. *)
Record Reply (A : Type) : Type := {
  reply_status : nat;
  reply_text : string;
  reply_data : option A
}.

Arguments reply_status {A} _.
Arguments reply_text {A} _.
Arguments reply_data {A} _.

Definition failure {A : Type} (status : nat) (text : string) : Reply A :=
  {| reply_status := status; reply_text := text; reply_data := None |}.

Definition success {A : Type} (text : string) (data : A) : Reply A :=
  {| reply_status := 200; reply_text := text; reply_data := Some data |}.

(** [bcrypt] hashes the first 72 bytes of a password. *)
Definition bcrypt_input (password : string) : string :=
  String.substring 0 72 password.

(** [user.comparePassword(candidate)]: the candidate hashes to the stored
    hash. *)
Definition comparePassword (user : User) (candidate : string) : bool :=
  String.eqb (bcrypt_input candidate) (bcrypt_input (user_password user)).

(** [User.findByIdAndUpdate(id, { refreshToken: null })] *)
Definition User_clearRefreshToken (db : DB) (id : ObjectId) : DB :=
  {| users :=
       map (fun u => if Nat.eqb (user_id u) id then with_refreshToken u None else u)
           (users db);
     organizations := organizations db;
     videos := videos db;
     files := files db;
     nextId := nextId db |}.

Definition with_profile (u : User) (email name : string) : User :=
  {| user_id := user_id u;
     user_email := email;
     user_password := user_password u;
     user_name := name;
     user_role := user_role u;
     user_organizationId := user_organizationId u;
     user_isActive := user_isActive u;
     user_refreshToken := user_refreshToken u |}.

(** Replaces the row whose [_id] is that of [u] ([u.save()]). *)
Definition User_replace (db : DB) (u : User) : DB :=
  {| users :=
       map (fun x => if Nat.eqb (user_id x) (user_id u) then u else x) (users db);
     organizations := organizations db;
     videos := videos db;
     files := files db;
     nextId := nextId db |}.

(** What [user.save()] validates on a loaded user: Mongoose validates
    every loaded path, here [email] and [name] ([role] and [organizationId]
    hold by typing; a selected [password] is a hash, long enough). *)
Definition user_row_valid (u : User) : bool :=
  email_matches (user_email u) && length_between 2 50 (user_name u).

Section AuthControllerRest.

Variable cfg : Config.
Variable now : Z.

(** [login] *)
Definition login (db : DB) (email password : string) : Response * DB :=
  match User_findOne_email db email with
  | None => (json 401 [("error", "Invalid email or password")], db)
  | Some user =>
      if negb (user_isActive user)
      then (json 403 [("error", "Account is deactivated")], db)
      else if negb (comparePassword user password)
      then (json 401 [("error", "Invalid email or password")], db)
      else if negb (user_row_valid user)
      then (json 500 [("error", "Login failed")], db)
      else
        let accessToken := generateAccessToken cfg now user in
        let refreshToken := generateRefreshToken cfg now user in
        ({| res_status := 200;
            res_headers := [];
            res_cookie := Some refreshToken;
            res_body :=
              JsonSession (with_refreshToken user (Some refreshToken)) accessToken |},
         User_saveRefreshToken db (user_id user) refreshToken)
  end.

(** [logout], behind [authenticate]: [user] is the attached user. *)
Definition logout (db : DB) (user : User) : Response * DB :=
  (json 200 [("message", "Logged out successfully")],
   User_clearRefreshToken db (user_id user)).

(** POST /api/auth/logout as routed in [routes/auth.routes.js]. *)
Definition POST_logout (db : DB) (req : Request) : Response * DB :=
  match authenticate cfg now db req with
  | inl denied => (denied, db)
  | inr user => logout db user
  end.

End AuthControllerRest.

(** [updateProfile], behind [authenticate]; [name] and [email] are the
    optional fields of the body.  [user.email = email] runs the setters of
    the path; [user.save()] validates the row and, for a changed email,
    meets the unique index. *)
Definition updateProfile (db : DB) (attached : User) (name email : option string)
  : Reply User * DB :=
  match User_findById db (user_id attached) with
  | None => (failure 404 "User not found", db)
  | Some user =>
      let changed :=
        match truthyName email with
        | Some e => negb (String.eqb e (user_email user))
        | None => false
        end in
      let taken :=
        match truthyName email with
        | Some e =>
            match User_findOne_email db e with Some _ => true | None => false end
        | None => false
        end in
      if changed && taken then (failure 409 "Email already in use", db)
      else
        let email' :=
          match truthyName email with
          | Some e => if changed then cast_lower_trim e else user_email user
          | None => user_email user
          end in
        let name' :=
          match truthyName name with
          | Some n => JS.trim n
          | None => user_name user
          end in
        let user' := with_profile user email' name' in
        if user_row_valid user'
        then (success "Profile updated successfully" user', User_replace db user')
        else (failure 500 "Failed to update profile", db)
  end.

(* ================================================================== *)
(** * [middleware/rbac.js]: [authorize] *)
(* ================================================================== *)

(** The text of a role, as the schema's [enum] and the routes write it. *)
Definition role_text (r : Role) : string :=
  match r with
  | viewer => "viewer"
  | editor => "editor"
  | admin => "admin"
  end.

(** [parts.join(sep)] *)
Fixpoint join (sep : string) (parts : list string) : string :=
  match parts with
  | [] => ""
  | [p] => p
  | p :: rest => p ++ sep ++ join sep rest
  end.

(** [authorize(...allowedRoles)]: the response it sends, or [None] when it
    calls [next()]. *)
Definition authorize (allowedRoles : list Role) (attached : option User)
  : option Response :=
  match attached with
  | None => Some (json 401 [("error", "Unauthorized")])
  | Some user =>
      if existsb (Role_eqb (user_role user)) allowedRoles then None
      else Some (json 403
                   [("error", "Forbidden");
                    ("message",
                     "This action requires one of the following roles: "
                       ++ join ", " (map role_text allowedRoles))])
  end.

(* ================================================================== *)
(** * [controllers/admin.controller.js]: user management *)
(* ================================================================== *)

(** [['viewer', 'editor', 'admin'].includes(role)], with the role read. *)
Definition role_of_text (role : string) : option Role :=
  if String.eqb role "viewer" then Some viewer
  else if String.eqb role "editor" then Some editor
  else if String.eqb role "admin" then Some admin
  else None.

Definition with_role (u : User) (role : Role) : User :=
  {| user_id := user_id u;
     user_email := user_email u;
     user_password := user_password u;
     user_name := user_name u;
     user_role := role;
     user_organizationId := user_organizationId u;
     user_isActive := user_isActive u;
     user_refreshToken := user_refreshToken u |}.

Definition with_isActive (u : User) (active : bool) : User :=
  {| user_id := user_id u;
     user_email := user_email u;
     user_password := user_password u;
     user_name := user_name u;
     user_role := user_role u;
     user_organizationId := user_organizationId u;
     user_isActive := active;
     user_refreshToken := user_refreshToken u |}.

(** [updateUserRole]: [id] is [req.params.id], [role] is [req.body.role]. *)
Definition updateUserRole (db : DB) (id : ObjectId) (role : string)
  : Reply User * DB :=
  match role_of_text role with
  | None => (failure 400 "Invalid role", db)
  | Some r =>
      match User_findById db id with
      | None => (failure 404 "User not found", db)
      | Some user =>
          let user' := with_role user r in
          (success "User role updated successfully" user', User_replace db user')
      end
  end.

(** [toggleUserStatus]; [admin_] is the attached caller.  [user.save()]
    validates the row and, the schema having [timestamps: true], rewrites
    its [updatedAt], a field that [User] does not carry. *)
Definition toggleUserStatus (db : DB) (admin_ : User) (id : ObjectId)
  : Reply User * DB :=
  match User_findById db id with
  | None => (failure 404 "User not found", db)
  | Some user =>
      if Nat.eqb (user_id user) (user_id admin_)
      then (failure 400 "Cannot deactivate your own account", db)
      else if negb (user_row_valid user)
      then (failure 500 "Failed to toggle user status", db)
      else
        let user' := with_isActive user (negb (user_isActive user)) in
        (success (if user_isActive user' then "User activated successfully"
                  else "User deactivated successfully") user',
         User_replace db user')
  end.

(** [deleteUser]; [deleteVideos] is [req.query.deleteVideos === 'true'].
    The answer carries [deletedVideos].

    [id] is the ObjectId that the text of [req.params.id] casts to, and
    [canonical] says whether that text is the one [toString()] prints for
    it (24 lower-case hexadecimal digits; the same id is also written
    with capitals, or as 12 raw characters).  The guard
    [id === req.userId.toString()] compares texts, so it holds exactly
    when the text is canonical and the ids agree. *)
Definition deleteUser (db : DB) (admin_ : User) (id : ObjectId) (canonical : bool)
    (deleteVideos : bool) : Reply bool * DB :=
  if canonical && Nat.eqb id (user_id admin_)
  then (failure 400 "Cannot delete your own account", db)
  else
    match User_findById db id with
    | None => (failure 404 "User not found", db)
    | Some user =>
        (success "User deleted successfully" deleteVideos,
         {| users := filter (fun u => negb (Nat.eqb (user_id u) (user_id user)))
                            (users db);
            organizations := organizations db;
            videos :=
              if deleteVideos
              then filter (fun v => negb (Nat.eqb (video_uploadedBy v) id)) (videos db)
              else videos db;
            files := files db;
            nextId := nextId db |})
    end.

(** The guards of [routes/admin.routes.js]:
    [router.use(authenticate); router.use(authorize('admin'))].  The
    response they send, or the admin they let through. *)
Definition adminGuard (cfg : Config) (now : Z) (db : DB) (req : Request)
  : Response + User :=
  match authenticate cfg now db req with
  | inl denied => inl denied
  | inr user =>
      match authorize [admin] (Some user) with
      | Some denied => inl denied
      | None => inr user
      end
  end.

(* ================================================================== *)
(** * [controllers/video.controller.js]: [deleteVideo] *)
(* ================================================================== *)

(** [storageService.deleteFile(storageKey)] with the local provider: the
    file under that key is removed if it exists. *)
Definition storage_deleteFile (db : DB) (storageKey : string) : DB :=
  {| users := users db;
     organizations := organizations db;
     videos := videos db;
     files := filter (fun kv => negb (String.eqb (fst kv) storageKey)) (files db);
     nextId := nextId db |}.

Section VideoControllerRest.

(** [video.thumbnailUrl], a field the [Video] record does not carry. *)
Variable thumbnailUrl : Video -> option string.

(** [deleteVideo], behind [router.use(authenticate)]; [attached] is the
    user [authenticate] attached.  The route has no validator: [id] is
    [None] for a [req.params.id] that does not cast to an ObjectId, for
    which [Video.findById] throws into the handler's [catch]. *)
Definition deleteVideo (db : DB) (attached : User) (id : option ObjectId)
  : Reply unit * DB :=
  match id with
  | None => (failure 500 "Failed to delete video", db)
  | Some id =>
  match Video_findById db id with
  | None => (failure 404 "Video not found", db)
  | Some video =>
      if negb (Nat.eqb (video_uploadedBy video) (user_id attached))
         && negb (Role_eqb (user_role attached) admin)
      then (failure 403 "Permission denied", db)
      else
        let db1 := storage_deleteFile db (video_storageKey video) in
        let db2 :=
          match thumbnailUrl video with
          | Some url => if JS.truthy url then storage_deleteFile db1 url else db1
          | None => db1
          end in
        (success "Video deleted successfully" tt,
         {| users := users db2;
            organizations := organizations db2;
            videos := filter (fun v => negb (Nat.eqb (video_id v) (video_id video)))
                             (videos db2);
            files := files db2;
            nextId := nextId db2 |})
  end
  end.

End VideoControllerRest.

(* ================================================================== *)
(** * [services/sensitivity.service.enhanced.js]: the report *)
(* ================================================================== *)

Module SensitivityReport.

Import Sensitivity.

(** [getIssueSeverity(category)] *)
Definition getIssueSeverity (category : string) : Level :=
  let highSeverity := ["no_video_stream"; "corrupt_metadata"; "many_black_frames"] in
  let mediumSeverity := ["unusual_resolution"; "low_bitrate"; "audio_issues"] in
  if existsb (String.eqb category) highSeverity then high
  else if existsb (String.eqb category) mediumSeverity then medium
  else low.

(** [categories.includes(name)] *)
Definition includes (categories : list string) (name : string) : bool :=
  existsb (String.eqb name) categories.

(** [generateRecommendations(categories)] *)
Definition generateRecommendations (categories : list string) : list string :=
  let recommendations := [] in
  let recommendations :=
    if includes categories "no_video_stream"
    then (recommendations
            ++ ["Video file may be corrupted. Re-encode or re-upload."])%list
    else recommendations in
  let recommendations :=
    if includes categories "low_bitrate"
    then (recommendations
            ++ ["Consider increasing video bitrate for better quality."])%list
    else recommendations in
  let recommendations :=
    if includes categories "no_audio_long_video"
    then (recommendations
            ++ ["Add audio track or confirm if silent video is intentional."])%list
    else recommendations in
  let recommendations :=
    if includes categories "unusual_resolution"
    then (recommendations
            ++ ["Use standard video resolutions (720p, 1080p, 4K)."])%list
    else recommendations in
  let recommendations :=
    if includes categories "manual_review_recommended"
    then (recommendations
            ++ ["Manual review recommended before publishing."])%list
    else recommendations in
  match recommendations with
  | [] => ["No issues detected."]
  | _ :: _ => recommendations
  end.

(** The [category] and [severity] of each entry of
    [generateReport(analysisResult).issues]. *)
Definition reportIssues (analysisResult : Result) : list (string * Level) :=
  map (fun cat => (cat, getIssueSeverity cat)) (result_categories analysisResult).

End SensitivityReport.

(* ================================================================== *)
(** * Definitions used by the statements and proofs *)
(* ================================================================== *)

(** The value of a decimal numeral read from the left with accumulator
    [acc], digit by digit as [JS.parse_digits] reads its text. *)
Fixpoint uint_value (d : Decimal.uint) (acc : Z) : Z :=
  match d with
  | Decimal.Nil => acc
  | Decimal.D0 d' => uint_value d' (10 * acc + 0)
  | Decimal.D1 d' => uint_value d' (10 * acc + 1)
  | Decimal.D2 d' => uint_value d' (10 * acc + 2)
  | Decimal.D3 d' => uint_value d' (10 * acc + 3)
  | Decimal.D4 d' => uint_value d' (10 * acc + 4)
  | Decimal.D5 d' => uint_value d' (10 * acc + 5)
  | Decimal.D6 d' => uint_value d' (10 * acc + 6)
  | Decimal.D7 d' => uint_value d' (10 * acc + 7)
  | Decimal.D8 d' => uint_value d' (10 * acc + 8)
  | Decimal.D9 d' => uint_value d' (10 * acc + 9)
  end.

(** The header value [bytes=start-end]. *)
Definition range_header (start end_ : Z) : string :=
  "bytes=" ++ JS.show_Z start ++ "-" ++ JS.show_Z end_.

(** ** A small store used by the concrete statements

    Two organizations; Alice (admin), Bob (editor) and Carol (viewer) in
    the first, Dave (editor) in the second.  Video 100 belongs to the first
    organization, was uploaded by Alice, is private and shared with Bob; its
    blob has four bytes. *)

Definition cfg0 : Config :=
  {| jwt_secret := "access-secret";
     jwt_refreshSecret := "refresh-secret";
     jwt_expire := 900;
     jwt_refreshExpire := 604800 |}.

Definition mkUser (id : ObjectId) (email name : string) (role : Role)
    (organizationId : ObjectId) : User :=
  {| user_id := id;
     user_email := email;
     user_password := "Abcdef12";
     user_name := name;
     user_role := role;
     user_organizationId := organizationId;
     user_isActive := true;
     user_refreshToken := None |}.

Definition alice : User := mkUser 10 "alice@acme.io" "Alice" admin 1.
Definition bob : User := mkUser 11 "bob@acme.io" "Bob" editor 1.
Definition carol : User := mkUser 12 "carol@acme.io" "Carol" viewer 1.
Definition dave : User := mkUser 20 "dave@globex.io" "Dave" editor 2.

Definition acme : Organization :=
  {| org_id := 1; org_name := "Acme"; org_slug := "acme";
     org_ownerId := Some 10%nat; org_isActive := true |}.

Definition globex : Organization :=
  {| org_id := 2; org_name := "Globex"; org_slug := "globex";
     org_ownerId := Some 20%nat; org_isActive := true |}.

Definition video100 : Video :=
  {| video_id := 100;
     video_title := "demo";
     video_fileSize := 4;
     video_format := "mp4";
     video_storageKey := "v100.mp4";
     video_organizationId := 1;
     video_uploadedBy := 10;
     video_visibility := vis_private;
     video_allowedUsers := [11%nat];
     video_status := completed;
     video_viewCount := 0 |}.

Definition blob100 : list Byte.byte := [Byte.x41; Byte.x42; Byte.x43; Byte.x44].

Definition db0 : DB :=
  {| users := [alice; bob; carol; dave];
     organizations := [acme; globex];
     videos := [video100];
     files := [("v100.mp4", blob100)];
     nextId := 101 |}.

(** A request for video [id] carrying the access token of [u] in the
    [Authorization] header. *)
Definition requestAs (u : User) (id : ObjectId) (range : option string) : Request :=
  {| params_id := id;
     header_authorization := Some (Bearer (generateAccessToken cfg0 0 u));
     header_range := range;
     query_token := None;
     cookie_refreshToken := None |}.

(** A request for video [id] with no [Authorization] header; [token] is
    what the [token] query parameter carries. *)
Definition requestWithQuery (token : option Jwt.Token) (id : ObjectId)
    (range : option string) : Request :=
  {| params_id := id;
     header_authorization := None;
     header_range := range;
     query_token := token;
     cookie_refreshToken := None |}.

(** ** Probes used by the concrete statements *)



(** 720p at two megabits per second, of the given duration. *)
Definition probe_of_duration (seconds : Q) : Sensitivity.Metadata :=
  {| Sensitivity.duration := Sensitivity.Fin seconds;
     Sensitivity.width := 1280;
     Sensitivity.height := 720;
     Sensitivity.codec := "h264";
     Sensitivity.bitrate := 2000000;
     Sensitivity.frameRate := Sensitivity.Fin 30;
     Sensitivity.audioCodec := "aac" |}.

(** The issues that the statements of [analyzeVideoCharacteristics]
    after the duration rule can push. *)
Definition otherRuleIssues : list string :=
  ["extremely_high_resolution"; "very_low_resolution"; "unusual_aspect_ratio";
   "extremely_high_bitrate"; "very_low_bitrate"; "unusually_high_framerate";
   "very_low_framerate"].

(** The text [`${slug}-${counter}`]. *)
Definition suffixed (slug : string) (counter : Z) : string :=
  slug ++ "-" ++ JS.show_Z counter.

(** The texts the slug loop tests, in order, when it runs [fuel] tests
    from the state [(finalSlug, counter)]. *)
Fixpoint candidates (slug finalSlug : string) (counter : Z) (fuel : nat)
  : list string :=
  match fuel with
  | O => []
  | S fuel' =>
      finalSlug :: candidates slug (suffixed slug counter) (counter + 1) fuel'
  end.

(** What [Organization_setOwner] does to one row. *)
Definition setOwner_row (id ownerId : ObjectId) (o : Organization) : Organization :=
  if Nat.eqb (org_id o) id then
    {| org_id := org_id o;
       org_name := org_name o;
       org_slug := org_slug o;
       org_ownerId := Some ownerId;
       org_isActive := org_isActive o |}
  else o.


(** ** Registrations and refresh requests used by the concrete statements *)

Definition emptyDb : DB :=
  {| users := []; organizations := []; videos := []; files := []; nextId := 1 |}.

Definition mkBody (email name : string) (organizationName : option string)
  : RegisterBody :=
  {| reg_email := email;
     reg_password := "Abcdef12";
     reg_name := name;
     reg_organizationName := organizationName |}.

Definition erin_body : RegisterBody :=
  mkBody "erin@initech.io" "Erin" (Some "Initech").

Definition frank_body : RegisterBody :=
  mkBody "frank@initech.io" "Frank" (Some "Initech").

Definition gina_body : RegisterBody := mkBody "gina@mail.io" "Gina" None.

Definition hank_body : RegisterBody := mkBody "hank@post.io" "Hank" (Some "").

(** The outcome of a registration (the loop always returns, see
    [register_returns]). *)
Definition outcome (result : option (Response * DB)) : Response * DB :=
  match result with
  | Some x => x
  | None => (registrationFailed, emptyDb)
  end.

(** Erin registers "Initech" at time 100, then Frank registers "Initech"
    at time 200. *)
Definition after_erin : Response * DB :=
  Eval vm_compute in outcome (register cfg0 100 emptyDb erin_body).

Definition after_frank : Response * DB :=
  Eval vm_compute in outcome (register cfg0 200 (snd after_erin) frank_body).

(** Gina registers without an organization at time 300, Hank at 400. *)
Definition after_gina : Response * DB :=
  Eval vm_compute in outcome (register cfg0 300 (snd after_frank) gina_body).

Definition after_hank : Response * DB :=
  Eval vm_compute in outcome (register cfg0 400 (snd after_gina) hank_body).

(** Mallory registers the organization "Default" in the empty store at
    time 100; Gina then registers without an organization at time 300. *)
Definition mallory_body : RegisterBody :=
  mkBody "mallory@evil.io" "Mallory" (Some "Default").

Definition after_mallory : Response * DB :=
  Eval vm_compute in outcome (register cfg0 100 emptyDb mallory_body).

Definition gina_after_mallory : Response * DB :=
  Eval vm_compute in outcome (register cfg0 300 (snd after_mallory) gina_body).

(** The store in which Alice's refresh slot holds the token issued to her
    at time 0, and the request that presents that token in its cookie. *)
Definition refreshOfAlice : Jwt.Token := generateRefreshToken cfg0 0 alice.

Definition dbWithSlot : DB := User_saveRefreshToken db0 10 refreshOfAlice.

Definition refreshRequest (t : Jwt.Token) : Request :=
  {| params_id := 0;
     header_authorization := None;
     header_range := None;
     query_token := None;
     cookie_refreshToken := Some t |}.

(** What [User_saveRefreshToken] does to one row. *)
Definition saved (id : ObjectId) (t : Jwt.Token) (u : User) : User :=
  if Nat.eqb (user_id u) id then with_refreshToken u (Some t) else u.

(** ** The store the handlers expect

    What Mongo and the schemas guarantee of a store that the handlers
    themselves filled: [_id]s are unique and were issued before [nextId],
    the unique indexes on [email] and [slug] hold, every user row passes
    the validators of its schema, and every user's [organizationId] is the
    [_id] of an organization. *)
Definition users_unique (db : DB) : Prop := NoDup (map user_id (users db)).

Definition emails_unique (db : DB) : Prop := NoDup (map user_email (users db)).

Definition slugs_unique (db : DB) : Prop :=
  NoDup (map org_slug (organizations db)).

Definition organizations_unique (db : DB) : Prop :=
  NoDup (map org_id (organizations db)).

Definition ids_fresh (db : DB) : Prop :=
  (forall u, In u (users db) -> (user_id u < nextId db)%nat)
  /\ (forall o, In o (organizations db) -> (org_id o < nextId db)%nat).

Definition rows_valid (db : DB) : Prop :=
  forall u, In u (users db) -> user_row_valid u = true.

Definition members_have_organization (db : DB) : Prop :=
  forall u, In u (users db) ->
            exists o, In o (organizations db) /\ org_id o = user_organizationId u.

Definition store_ok (db : DB) : Prop :=
  users_unique db /\ emails_unique db /\ slugs_unique db
  /\ organizations_unique db /\ ids_fresh db /\ rows_valid db
  /\ members_have_organization db.

(** ** The routes that write users and organizations

    One constructor per route of [routes/auth.routes.js] and of the user
    management of [routes/admin.routes.js], with what the handler reads
    from the request. *)
Inductive Call : Type :=
| Register (body : RegisterBody)
| Login (email password : string)
| Refresh (req : Request)
| Logout (req : Request)
| UpdateProfile (req : Request) (name email : option string)
| UpdateUserRole (req : Request) (id : ObjectId) (role : string)
| ToggleUserStatus (req : Request) (id : ObjectId)
| DeleteUser (req : Request) (id : ObjectId) (canonical : bool)
    (deleteVideos : bool).

(** The status a route answers and the store it leaves: the middleware
    of the route, then its handler. *)
Definition serve (cfg : Config) (now : Z) (db : DB) (call : Call) : nat * DB :=
  match call with
  | Register body =>
      match register cfg now db body with
      | Some (r, db') => (res_status r, db')
      | None => (res_status registrationFailed, db)
      end
  | Login email password =>
      let (r, db') := login cfg now db email password in (res_status r, db')
  | Refresh req =>
      let (r, db') := refreshToken cfg now db req in (res_status r, db')
  | Logout req =>
      let (r, db') := POST_logout cfg now db req in (res_status r, db')
  | UpdateProfile req name email =>
      match authenticate cfg now db req with
      | inl denied => (res_status denied, db)
      | inr user =>
          let (r, db') := updateProfile db user name email in (reply_status r, db')
      end
  | UpdateUserRole req id role =>
      match adminGuard cfg now db req with
      | inl denied => (res_status denied, db)
      | inr _ =>
          let (r, db') := updateUserRole db id role in (reply_status r, db')
      end
  | ToggleUserStatus req id =>
      match adminGuard cfg now db req with
      | inl denied => (res_status denied, db)
      | inr user =>
          let (r, db') := toggleUserStatus db user id in (reply_status r, db')
      end
  | DeleteUser req id canonical deleteVideos =>
      match adminGuard cfg now db req with
      | inl denied => (res_status denied, db)
      | inr user =>
          let (r, db') := deleteUser db user id canonical deleteVideos in
          (reply_status r, db')
      end
  end.

(** A run of calls, each at its own time. *)
Fixpoint serveAll (cfg : Config) (db : DB) (calls : list (Z * Call)) : DB :=
  match calls with
  | [] => db
  | (now, call) :: rest => serveAll cfg (snd (serve cfg now db call)) rest
  end.

(** ** Further fixtures *)

(** Every issue name a statement of the analyser pushes. *)
Definition analysisIssues : list string :=
  (["no_duration"; "no_video_stream"; "unknown_codec"; "suspiciously_small_file";
    "extremely_long_duration"; "long_duration"]
   ++ otherRuleIssues
   ++ ["no_audio_long_video"; "unusual_audio_codec";
       "high_data_rate"; "low_data_rate"; "unusual_format";
       "many_black_frames"; "manual_review_recommended"])%list.

(** A probe of a file with an audio stream only: ffprobe finds no video
    stream, so width and height are 0 and the codec is unknown. *)
Definition probe_audio_only : Sensitivity.Metadata :=
  {| Sensitivity.duration := Sensitivity.Fin 30;
     Sensitivity.width := 0;
     Sensitivity.height := 0;
     Sensitivity.codec := "unknown";
     Sensitivity.bitrate := 128000;
     Sensitivity.frameRate := Sensitivity.Fin 0;
     Sensitivity.audioCodec := "aac" |}.


Definition facts_mp4 : Sensitivity.VideoFacts :=
  {| Sensitivity.fileSize := 7500000;
     Sensitivity.format := "mp4" |}.


(** A request carrying [t] as its bearer token. *)
Definition requestBearing (t : Jwt.Token) : Request :=
  {| params_id := 0;
     header_authorization := Some (Bearer t);
     header_range := None;
     query_token := None;
     cookie_refreshToken := None |}.

(** Erin as her registration created her, and the two tokens it issued. *)
Definition erin : User :=
  Eval vm_compute in
    match res_body (fst after_erin) with
    | JsonSession user _ => user
    | _ => alice
    end.

Definition erin_access : Jwt.Token := generateAccessToken cfg0 100 erin.

Definition erin_refresh : Jwt.Token := generateRefreshToken cfg0 100 erin.

(** Erin's registration sent once more, at time 200. *)
Definition erin_again : Response * DB :=
  Eval vm_compute in outcome (register cfg0 200 (snd after_erin) erin_body).

(** A body whose name has two characters as sent and one once trimmed. *)
Definition ivy_body : RegisterBody :=
  mkBody "ivy@umbrella.io" " I" (Some "Umbrella").

(** [db0] with a second private video, uploaded by Bob. *)
Definition video101 : Video :=
  {| video_id := 101;
     video_title := "draft";
     video_fileSize := 4;
     video_format := "mp4";
     video_storageKey := "v101.mp4";
     video_organizationId := 1;
     video_uploadedBy := 11;
     video_visibility := vis_private;
     video_allowedUsers := [];
     video_status := completed;
     video_viewCount := 0 |}.

Definition db1 : DB :=
  {| users := users db0;
     organizations := organizations db0;
     videos := [video100; video101];
     files := [("v100.mp4", blob100); ("v101.mp4", blob100)];
     nextId := 102 |}.

(** Eve, an admin of the second organization, added to [db0]. *)
Definition eve : User := mkUser 21 "eve@globex.io" "Eve" admin 2.

Definition db2 : DB :=
  {| users := (users db0 ++ [eve])%list;
     organizations := organizations db0;
     videos := videos db0;
     files := files db0;
     nextId := nextId db0 |}.

(** The findings [analyze] has summed up when it reaches
    [Math.min(1, totalScore)]. *)
Definition analysisTotal (m : Sensitivity.Metadata) (v : Sensitivity.VideoFacts)
    (frames : option (list Z)) : Sensitivity.Findings :=
  let t := Sensitivity.no_findings in
  let t := match Sensitivity.issues (Sensitivity.checkVideoIntegrity m v) with
           | [] => t
           | _ :: _ => Sensitivity.accumulate t (Sensitivity.checkVideoIntegrity m v)
           end in
  let t := Sensitivity.accumulate t (Sensitivity.analyzeVideoCharacteristics m) in
  let t := Sensitivity.accumulate t (Sensitivity.analyzeAudioCharacteristics m) in
  let t := Sensitivity.accumulate t (Sensitivity.analyzeFileConsistency m v) in
  match frames with
  | Some sizes => Sensitivity.accumulate t (Sensitivity.analyzeFrames sizes)
  | None => t
  end.

(** The header value [bytes=start-]. *)
Definition open_range_header (start : Z) : string :=
  "bytes=" ++ JS.show_Z start ++ "-".

(* ================================================================== *)
(** * Decimal text: printing and [parseInt] *)
(* ================================================================== *)

Example parseInt_plain : JS.parseInt "1048575" = JS.Int 1048575.
Proof. reflexivity. Qed.

Example parseInt_prefix : JS.parseInt " 12abc" = JS.Int 12.
Proof. reflexivity. Qed.

Example parseInt_empty : JS.parseInt "" = JS.NaN.
Proof. reflexivity. Qed.

Example bounds_closed : range_bounds "bytes=0-99" 200 = (JS.Int 0, JS.Int 99).
Proof. reflexivity. Qed.

Example bounds_open : range_bounds "bytes=150-" 200 = (JS.Int 150, JS.Int 199).
Proof. reflexivity. Qed.

Example slugify_name : slugify "  Acme   Inc. -- " = "acme-inc".
Proof. reflexivity. Qed.

Section DecimalText.

Lemma forall_chars_impl (p q : ascii -> bool) (s : string) :
  (forall c, p c = true -> q c = true) ->
  JS.forall_chars p s = true -> JS.forall_chars q s = true.
Proof.
  intros Hpq. induction s as [|c s IH]; simpl; [reflexivity|].
  rewrite !andb_true_iff. intros [Hc Hs]. split; auto.
Qed.

Lemma forall_chars_app (p : ascii -> bool) (a b : string) :
  JS.forall_chars p (a ++ b) = JS.forall_chars p a && JS.forall_chars p b.
Proof.
  induction a as [|c a IH]; simpl; [reflexivity|].
  now rewrite IH, andb_assoc.
Qed.

Lemma string_of_uint_digits (d : Decimal.uint) :
  JS.forall_chars JS.is_digit (NilEmpty.string_of_uint d) = true.
Proof. induction d; simpl; auto. Qed.

Lemma parse_digits_uint (d : Decimal.uint) :
  forall acc, JS.parse_digits (NilEmpty.string_of_uint d) acc = uint_value d acc.
Proof. induction d; intros acc; simpl; auto. Qed.

Lemma of_uint_acc_value (d : Decimal.uint) :
  forall acc, Z.pos (Pos.of_uint_acc d acc) = uint_value d (Z.pos acc).
Proof.
  induction d; intros acc; cbn [Pos.of_uint_acc uint_value]; auto;
    rewrite IHd; f_equal; lia.
Qed.

Lemma of_uint_value (d : Decimal.uint) :
  Z.of_N (Pos.of_uint d) = uint_value d 0.
Proof.
  induction d; cbn [Pos.of_uint uint_value Z.of_N]; auto;
    rewrite of_uint_acc_value; reflexivity.
Qed.

Lemma parseInt_digit_first (c : ascii) (s : string) :
  JS.is_digit c = true ->
  JS.parseInt (String c s) = JS.Int (JS.parse_digits (String c s) 0).
Proof.
  intros Hc. unfold JS.parseInt, JS.parse_unsigned.
  assert (Hsp : JS.is_space c = false)
    by (destruct c as [[] [] [] [] [] [] [] []]; try discriminate Hc; reflexivity).
  assert (Hm : Ascii.eqb c "-" = false)
    by (destruct (Ascii.eqb_spec c "-") as [->|]; [discriminate|reflexivity]).
  assert (Hp : Ascii.eqb c "+" = false)
    by (destruct (Ascii.eqb_spec c "+") as [->|]; [discriminate|reflexivity]).
  cbn [JS.drop_while JS.starts_with_digit]. now rewrite Hsp, Hm, Hp, Hc.
Qed.

Lemma parseInt_uint (d : Decimal.uint) :
  d <> Decimal.Nil ->
  JS.parseInt (NilEmpty.string_of_uint d) = JS.Int (Z.of_N (Pos.of_uint d)).
Proof.
  intros Hd. rewrite of_uint_value, <- parse_digits_uint.
  pose proof (string_of_uint_digits d) as Hdig.
  destruct (NilEmpty.string_of_uint d) as [|c s] eqn:E.
  - destruct d; try congruence; discriminate E.
  - simpl in Hdig. apply andb_true_iff in Hdig as [Hc _].
    now apply parseInt_digit_first.
Qed.

Lemma to_int_nonneg (z : Z) :
  0 <= z -> exists d, Z.to_int z = Decimal.Pos d /\ d <> Decimal.Nil.
Proof.
  destruct z as [|p|p]; intros Hz; simpl.
  - eexists; split; [reflexivity|discriminate].
  - eexists; split; [reflexivity|apply DecimalPos.Unsigned.to_uint_nonnil].
  - lia.
Qed.

(** [parseInt] reads back the decimal text of a natural number. *)
Lemma parseInt_show_Z (z : Z) : 0 <= z -> JS.parseInt (JS.show_Z z) = JS.Int z.
Proof.
  intros Hz. destruct (to_int_nonneg z Hz) as (d & Hd & Hnil).
  unfold JS.show_Z. rewrite Hd. simpl.
  rewrite (parseInt_uint d Hnil). f_equal.
  change (Z.of_N (Pos.of_uint d)) with (Z.of_int (Decimal.Pos d)).
  rewrite <- Hd. apply DecimalZ.of_to.
Qed.

Lemma show_Z_digits (z : Z) :
  0 <= z -> JS.forall_chars JS.is_digit (JS.show_Z z) = true.
Proof.
  intros Hz. destruct (to_int_nonneg z Hz) as (d & Hd & _).
  unfold JS.show_Z. rewrite Hd. apply string_of_uint_digits.
Qed.

Lemma show_Z_truthy (z : Z) : JS.truthy (JS.show_Z z) = true.
Proof.
  unfold JS.show_Z.
  destruct z as [|p|p]; simpl; try reflexivity.
  - pose proof (DecimalPos.Unsigned.to_uint_nonnil p) as Hnil.
    destruct (Pos.to_uint p); try congruence; reflexivity.
Qed.

Lemma show_Z_inj (a b : Z) : JS.show_Z a = JS.show_Z b -> a = b.
Proof.
  unfold JS.show_Z. intros H.
  apply DecimalZ.to_int_inj.
  pose proof (NilEmpty.isi (Z.to_int a)) as Ha.
  pose proof (NilEmpty.isi (Z.to_int b)) as Hb.
  rewrite H in Ha. congruence.
Qed.

Lemma digit_not_hyphen (c : ascii) :
  JS.is_digit c = true -> negb (Ascii.eqb c "-") = true.
Proof.
  destruct (Ascii.eqb_spec c "-") as [->|]; [discriminate|reflexivity].
Qed.

Lemma split_no_sep (sep : ascii) (s : string) :
  JS.forall_chars (fun c => negb (Ascii.eqb c sep)) s = true ->
  JS.split sep s = [s].
Proof.
  induction s as [|c s IH]; simpl; [reflexivity|].
  rewrite andb_true_iff, negb_true_iff. intros [Hc Hs].
  rewrite Hc, (IH Hs). reflexivity.
Qed.

Lemma split_at_sep (sep : ascii) (a b : string) :
  JS.forall_chars (fun c => negb (Ascii.eqb c sep)) a = true ->
  JS.split sep (a ++ String sep b) = a :: JS.split sep b.
Proof.
  induction a as [|c a IH]; simpl.
  - intros _. now rewrite Ascii.eqb_refl.
  - rewrite andb_true_iff, negb_true_iff. intros [Hc Ha].
    rewrite Hc, (IH Ha). reflexivity.
Qed.

(** The bounds read from [bytes=start-end] are [start] and [end]. *)
Lemma range_bounds_decimal (start end_ videoSize : Z) :
  0 <= start -> 0 <= end_ ->
  range_bounds (range_header start end_) videoSize = (JS.Int start, JS.Int end_).
Proof.
  intros Hs He. unfold range_bounds, range_header.
  change (JS.remove_first "bytes="
            ("bytes=" ++ JS.show_Z start ++ "-" ++ JS.show_Z end_))
    with (JS.show_Z start ++ String "-" (JS.show_Z end_)).
  rewrite split_at_sep
    by (eapply forall_chars_impl; [apply digit_not_hyphen|now apply show_Z_digits]).
  rewrite split_no_sep
    by (eapply forall_chars_impl; [apply digit_not_hyphen|now apply show_Z_digits]).
  cbn [nth nth_error]. rewrite show_Z_truthy.
  now rewrite !parseInt_show_Z.
Qed.

End DecimalText.

(* ================================================================== *)
(** * Streaming: range responses *)
(* ================================================================== *)

Section Streaming.

Lemma slice_length (content : list Byte.byte) (start end_ : Z) :
  0 <= start -> start <= end_ -> end_ < Z.of_nat (List.length content) ->
  Z.of_nat (List.length (slice content start end_)) = end_ - start + 1.
Proof.
  intros Hs He Hlen. unfold slice.
  rewrite length_firstn, length_skipn. lia.
Qed.

(** Every byte of the window is the blob's byte at the same position. *)
Lemma slice_nth (content : list Byte.byte) (start end_ : Z) (i : nat) :
  0 <= start -> Z.of_nat i <= end_ - start ->
  nth_error (slice content start end_) i
  = nth_error content (Z.to_nat start + i).
Proof.
  intros Hs Hi. unfold slice.
  rewrite nth_error_firstn.
  destruct (Nat.ltb_spec i (Z.to_nat (end_ - start + 1))) as [_|Hge]; [|lia].
  now rewrite nth_error_skipn.
Qed.

(** The handler never answers 416. *)
Lemma streamVideo_never_416 (db : DB) (req : Request) (attached : option User) :
  res_status (fst (streamVideo db req attached)) <> 416%nat.
Proof.
  unfold streamVideo.
  destruct (Video_findById db (params_id req)) as [video|]; [|discriminate].
  destruct (match attached with Some _ => _ | None => _ end); [discriminate|].
  destruct (negb _); [discriminate|].
  destruct (file_at db _) as [content|]; [|discriminate].
  destruct (header_range req) as [range|]; [|discriminate].
  destruct (JS.truthy range); [|discriminate].
  destruct (range_bounds range _) as [start end_].
  destruct (createReadStream content start end_); discriminate.
Qed.

(** A 206 response to any [Range] value whose two bounds are read as the
    integers [start <= end]: its headers and its bytes. *)
Lemma range_response_parsed (db : DB) (req : Request) (attached : option User)
    (video : Video) (range : string) (start end_ : Z) :
  Video_findById db (params_id req) = Some video ->
  header_range req = Some range ->
  range_bounds range (video_fileSize video) = (JS.Int start, JS.Int end_) ->
  res_status (fst (streamVideo db req attached)) = 206%nat ->
  exists content,
    file_at db (video_storageKey video) = Some content
    /\ 0 <= start <= end_
    /\ header "Content-Length" (fst (streamVideo db req attached))
       = Some (JS.show_Z (end_ - start + 1))
    /\ header "Content-Range" (fst (streamVideo db req attached))
       = Some ("bytes " ++ JS.show_Z start ++ "-" ++ JS.show_Z end_
                ++ "/" ++ JS.show_Z (video_fileSize video))
    /\ streamed (fst (streamVideo db req attached)) = slice content start end_.
Proof.
  intros Hfind Hrange Hbounds.
  unfold streamVideo. rewrite Hfind.
  destruct (match attached with Some _ => _ | None => _ end); [discriminate|].
  destruct (negb _); [discriminate|].
  destruct (file_at db _) as [content|]; [|discriminate].
  rewrite Hrange.
  destruct (JS.truthy range); [|discriminate].
  rewrite Hbounds. unfold createReadStream.
  destruct ((0 <=? start) && (start <=? MAX_SAFE_INTEGER)
            && (0 <=? end_) && (end_ <=? MAX_SAFE_INTEGER) && (start <=? end_))
    eqn:Hok; [|discriminate].
  rewrite !andb_true_iff, !Z.leb_le in Hok.
  intros _. exists content. cbn [fst JS.num_sub JS.num_add JS.show].
  repeat split; lia.
Qed.

(** C6: a 206 response to [bytes=start-end] with
    [0 <= start <= end < file_size] has [Content-Length = end - start + 1],
    [Content-Range = bytes start-end/file_size], and streams exactly the
    blob's bytes at positions [start] to [end]. *)
Theorem range_response_exact :
  forall (db : DB) (req : Request) (attached : option User) (video : Video)
         (start end_ : Z),
    Video_findById db (params_id req) = Some video ->
    header_range req = Some (range_header start end_) ->
    0 <= start -> start <= end_ -> end_ < video_fileSize video ->
    res_status (fst (streamVideo db req attached)) = 206%nat ->
    exists content,
      file_at db (video_storageKey video) = Some content
      /\ header "Content-Length" (fst (streamVideo db req attached))
         = Some (JS.show_Z (end_ - start + 1))
      /\ header "Content-Range" (fst (streamVideo db req attached))
         = Some ("bytes " ++ JS.show_Z start ++ "-" ++ JS.show_Z end_
                  ++ "/" ++ JS.show_Z (video_fileSize video))
      /\ streamed (fst (streamVideo db req attached)) = slice content start end_
      /\ (forall i : nat,
            Z.of_nat i <= end_ - start ->
            nth_error (streamed (fst (streamVideo db req attached))) i
            = nth_error content (Z.to_nat start + i))
      /\ (Z.of_nat (List.length content) = video_fileSize video ->
          Z.of_nat (List.length (streamed (fst (streamVideo db req attached))))
          = end_ - start + 1).
Proof.
  intros db req attached video start end_ Hfind Hrange Hs He Hsize H206.
  destruct (range_response_parsed db req attached video _ start end_ Hfind Hrange
              (range_bounds_decimal start end_ _ Hs (Z.le_trans _ _ _ Hs He)) H206)
    as (content & Hfile & _ & Hlen & Hcr & Hbody).
  exists content. repeat split; auto.
  - intros i Hi. rewrite Hbody. now apply slice_nth.
  - intros Hblob. rewrite Hbody. apply slice_length; lia.
Qed.

(** When the guards pass, a valid range within the safe integers is
    answered 206. *)
Lemma valid_range_answered_206 (db : DB) (req : Request) (video : Video)
    (content : list Byte.byte) (start end_ : Z) :
  Video_findById db (params_id req) = Some video ->
  video_status video = completed ->
  file_at db (video_storageKey video) = Some content ->
  header_range req = Some (range_header start end_) ->
  0 <= start -> start <= end_ -> end_ <= MAX_SAFE_INTEGER ->
  res_status (fst (streamVideo db req None)) = 206%nat.
Proof.
  intros Hfind Hst Hfile Hrange Hs He Hmax.
  unfold streamVideo. rewrite Hfind, Hst, Hfile, Hrange.
  change (JS.truthy (range_header start end_)) with true. cbv iota.
  rewrite range_bounds_decimal by lia.
  unfold createReadStream.
  replace ((0 <=? start) && (start <=? MAX_SAFE_INTEGER)
           && (0 <=? end_) && (end_ <=? MAX_SAFE_INTEGER) && (start <=? end_))
    with true by (symmetry; rewrite !andb_true_iff, !Z.leb_le; lia).
  reflexivity.
Qed.

(** A concrete 206: Alice asks for [bytes=1-2] of the four-byte blob. *)
Lemma range_response_exact_witness :
  exists content,
    file_at db0 (video_storageKey video100) = Some content
    /\ header "Content-Length"
         (fst (streamVideo db0 (requestAs alice 100 (Some (range_header 1 2)))
                           (Some alice)))
       = Some (JS.show_Z (2 - 1 + 1))
    /\ header "Content-Range"
         (fst (streamVideo db0 (requestAs alice 100 (Some (range_header 1 2)))
                           (Some alice)))
       = Some ("bytes " ++ JS.show_Z 1 ++ "-" ++ JS.show_Z 2
                ++ "/" ++ JS.show_Z (video_fileSize video100))
    /\ streamed
         (fst (streamVideo db0 (requestAs alice 100 (Some (range_header 1 2)))
                           (Some alice)))
       = slice content 1 2
    /\ (forall i : nat,
          Z.of_nat i <= 2 - 1 ->
          nth_error
            (streamed
               (fst (streamVideo db0 (requestAs alice 100 (Some (range_header 1 2)))
                                 (Some alice)))) i
          = nth_error content (Z.to_nat 1 + i))
    /\ (Z.of_nat (List.length content) = video_fileSize video100 ->
        Z.of_nat
          (List.length
             (streamed
                (fst (streamVideo db0 (requestAs alice 100 (Some (range_header 1 2)))
                                  (Some alice)))))
        = 2 - 1 + 1).
Proof.
  apply (range_response_exact db0 (requestAs alice 100 (Some (range_header 1 2)))
           (Some alice) video100 1 2);
    [reflexivity | reflexivity | lia | lia | simpl; lia | reflexivity].
Defined.

(** C2: what the handler does with a range past the end of the blob.
    Alice asks for [bytes=4-9] of the four-byte blob ([start >= file_size]):
    the answer is 206, not 416, its [Content-Range] is [bytes 4-9/4], its
    [Content-Length] promises six bytes and no byte is streamed. *)
Theorem out_of_range_answered_206 :
  let r := fst (GET_stream cfg0 0 db0 (requestAs alice 100 (Some "bytes=4-9"))) in
  res_status r = 206%nat
  /\ res_status r <> 416%nat
  /\ header "Content-Range" r = Some "bytes 4-9/4"
  /\ header "Content-Range" r <> Some "bytes */4"
  /\ header "Content-Length" r = Some "6"
  /\ streamed r = [].
Proof. cbv. repeat split; discriminate. Qed.

(** With [start > end] ([bytes=3-1]) the read stream cannot be created and
    the [catch] branch answers 500. *)
Example reversed_range_answered_500 :
  res_status (fst (GET_stream cfg0 0 db0 (requestAs alice 100 (Some "bytes=3-1"))))
  = 500%nat.
Proof. reflexivity. Qed.

(** A suffix range ([bytes=-2]) has no start: [parseInt("")] is [NaN]. *)
Example suffix_range_answered_500 :
  range_bounds "bytes=-2" 4 = (JS.NaN, JS.Int 2)
  /\ res_status (fst (GET_stream cfg0 0 db0 (requestAs alice 100 (Some "bytes=-2"))))
     = 500%nat.
Proof. split; reflexivity. Qed.

End Streaming.

(* ================================================================== *)
(** * Tenant and visibility checks *)
(* ================================================================== *)

Section Access.

Variable cfg : Config.
Variable now : Z.

(** What [authenticate] attaches, [optionalAuth] attaches too. *)
Lemma authenticate_optionalAuth (db : DB) (req : Request) (user : User) :
  authenticate cfg now db req = inr user ->
  optionalAuth cfg now db req = Some user.
Proof.
  unfold authenticate, optionalAuth.
  destruct (header_authorization req) as [[token|text]|]; try discriminate.
  destruct (Jwt.verify now token (jwt_secret cfg)); try discriminate.
  destruct (User_findById db userId) as [u|]; try discriminate.
  destruct (user_isActive u); try discriminate.
  now intros [= ->].
Qed.

(** [optionalAuth] does not read the [token] query parameter. *)
Lemma optionalAuth_ignores_query (db : DB) (req : Request) (t : option Jwt.Token) :
  optionalAuth cfg now db
    {| params_id := params_id req;
       header_authorization := header_authorization req;
       header_range := header_range req;
       query_token := t;
       cookie_refreshToken := cookie_refreshToken req |}
  = optionalAuth cfg now db req.
Proof. reflexivity. Qed.

(** Without an [Authorization] header nothing is attached. *)
Lemma optionalAuth_no_header (db : DB) (req : Request) :
  header_authorization req = None -> optionalAuth cfg now db req = None.
Proof. unfold optionalAuth. now intros ->. Qed.

(** With nothing attached, a completed video whose blob exists is served
    whatever its visibility and organization. *)
Lemma anonymous_stream_served (db : DB) (req : Request) (video : Video)
    (content : list Byte.byte) :
  header_authorization req = None ->
  header_range req = None ->
  Video_findById db (params_id req) = Some video ->
  video_status video = completed ->
  file_at db (video_storageKey video) = Some content ->
  res_status (fst (GET_stream cfg now db req)) = 200%nat
  /\ streamed (fst (GET_stream cfg now db req)) = content.
Proof.
  intros Hauth Hrange Hfind Hstatus Hfile.
  unfold GET_stream. rewrite (optionalAuth_no_header db req Hauth).
  unfold streamVideo. rewrite Hfind, Hstatus, Hfile, Hrange. split; reflexivity.
Qed.

(** C3 (as the code has it): an authenticated caller naming a video of
    another organization gets 403 from GET /api/videos/:id and from
    GET /api/stream/:id (token in the [Authorization] header), while an
    unknown id gets 404. *)
Theorem cross_tenant_is_403 :
  forall (db : DB) (req : Request) (user : User) (video : Video),
    authenticate cfg now db req = inr user ->
    Video_findById db (params_id req) = Some video ->
    video_organizationId video <> user_organizationId user ->
    res_status (GET_video cfg now db req) = 403%nat
    /\ res_status (fst (GET_stream cfg now db req)) = 403%nat.
Proof.
  intros db req user video Hauth Hfind Horg.
  apply Nat.eqb_neq in Horg.
  unfold GET_video, GET_stream.
  rewrite (authenticate_optionalAuth db req user Hauth), Hauth.
  unfold getVideo, streamVideo. rewrite Hfind, Horg. split; reflexivity.
Qed.

Lemma unknown_id_is_404 (db : DB) (req : Request) (user : User) :
  authenticate cfg now db req = inr user ->
  Video_findById db (params_id req) = None ->
  res_status (GET_video cfg now db req) = 404%nat
  /\ res_status (fst (GET_stream cfg now db req)) = 404%nat.
Proof.
  intros Hauth Hfind. unfold GET_video, GET_stream, getVideo, streamVideo.
  rewrite Hauth, Hfind. split; reflexivity.
Qed.

(** [getVideo] on a private video of the caller's organization: the
    uploader and the admins read it, nobody else does ([allowedUsers] is not
    consulted). *)
Lemma getVideo_private_rule (db : DB) (req : Request) (user uploader : User)
    (video : Video) :
  Video_findById db (params_id req) = Some video ->
  video_organizationId video = user_organizationId user ->
  video_visibility video = vis_private ->
  User_findById db (video_uploadedBy video) = Some uploader ->
  (res_status (getVideo db req user) = 200%nat
   <-> (user_id uploader = user_id user \/ user_role user = admin)).
Proof.
  intros Hfind Horg Hvis Hup. unfold getVideo.
  rewrite Hfind, Horg, Nat.eqb_refl, Hvis, Hup. cbn [negb is_private].
  destruct (Nat.eqb_spec (user_id uploader) (user_id user)) as [Heq|Hne];
    cbn [negb andb]; [tauto|].
  destruct (user_role user); cbn [Role_eqb negb json res_status];
    split; try tauto; try discriminate; intros [H|H]; congruence.
Qed.

(** [streamVideo] for a caller of the video's organization: a completed
    video whose blob exists is served whatever its visibility. *)
Lemma same_tenant_stream_served (db : DB) (req : Request) (user : User)
    (video : Video) (content : list Byte.byte) :
  header_range req = None ->
  Video_findById db (params_id req) = Some video ->
  video_organizationId video = user_organizationId user ->
  video_status video = completed ->
  file_at db (video_storageKey video) = Some content ->
  res_status (fst (streamVideo db req (Some user))) = 200%nat
  /\ streamed (fst (streamVideo db req (Some user))) = content.
Proof.
  intros Hrange Hfind Horg Hstatus Hfile. unfold streamVideo.
  rewrite Hfind, Horg, Nat.eqb_refl, Hstatus, Hfile, Hrange. split; reflexivity.
Qed.

End Access.

(** Dave (second organization) names video 100 (first organization). *)
Lemma cross_tenant_is_403_witness :
  res_status (GET_video cfg0 0 db0 (requestAs dave 100 None)) = 403%nat
  /\ res_status (fst (GET_stream cfg0 0 db0 (requestAs dave 100 None))) = 403%nat.
Proof.
  apply (cross_tenant_is_403 cfg0 0 db0 (requestAs dave 100 None) dave video100);
    [reflexivity | reflexivity | simpl; lia].
Defined.

(** C3 as stated fails: Dave's two requests are not answered 404. *)
Lemma cross_tenant_not_404 :
  res_status (GET_video cfg0 0 db0 (requestAs dave 100 None)) <> 404%nat
  /\ res_status (fst (GET_stream cfg0 0 db0 (requestAs dave 100 None))) <> 404%nat.
Proof. split; discriminate. Qed.

(** C1: Dave, of the second organization, sends his token in the [token]
    query parameter only, and an anonymous caller sends none: both receive
    status 200 and the four bytes of the private video 100 of the first
    organization. *)
Theorem private_video_streamed_without_header :
  (let r := fst (GET_stream cfg0 0 db0
                   (requestWithQuery (Some (generateAccessToken cfg0 0 dave)) 100 None)) in
   res_status r = 200%nat /\ streamed r = blob100)
  /\ (let r := fst (GET_stream cfg0 0 db0 (requestWithQuery None 100 None)) in
      res_status r = 200%nat /\ streamed r = blob100)
  /\ video_visibility video100 = vis_private
  /\ video_organizationId video100 <> user_organizationId dave.
Proof. cbv. repeat split; discriminate. Qed.

(** C9: two reads of the private video 100.  Bob is on its
    [allowedUsers] list, yet GET /api/videos/100 answers him 403.  Carol is
    in the same organization, is neither the uploader, nor an admin, nor on
    the list, yet GET /api/stream/100 answers her 200 with the bytes. *)
Theorem private_read_guard_differs :
  In (user_id bob) (video_allowedUsers video100)
  /\ res_status (GET_video cfg0 0 db0 (requestAs bob 100 None)) = 403%nat
  /\ ~ In (user_id carol) (video_allowedUsers video100)
  /\ user_id carol <> video_uploadedBy video100
  /\ user_role carol <> admin
  /\ res_status (fst (GET_stream cfg0 0 db0 (requestAs carol 100 None))) = 200%nat
  /\ streamed (fst (GET_stream cfg0 0 db0 (requestAs carol 100 None))) = blob100.
Proof.
  repeat split; try reflexivity; try discriminate.
  - simpl. auto.
  - simpl. intros [H|[]]. discriminate H.
Qed.

(* ================================================================== *)
(** * Sensitivity analysis *)
(* ================================================================== *)

Module SensitivityFacts.

Import Sensitivity.
Local Open Scope Q_scope.















(** At 7199 s neither issue fires. *)
Example duration_7199_silent :
  issues (analyzeVideoCharacteristics (probe_of_duration 7199)) = [].
Proof. reflexivity. Qed.


End SensitivityFacts.

(* ================================================================== *)
(** * Slugs: the characters of a slug and the loop that picks a free one *)
(* ================================================================== *)

Section Slugs.

Lemma slug_char_not_upper (c : ascii) :
  is_slug_char c = true -> JS.is_upper c = false.
Proof.
  destruct c as [[] [] [] [] [] [] [] []]; intros H;
    try discriminate H; reflexivity.
Qed.

Lemma slug_char_not_space (c : ascii) :
  is_slug_char c = true -> JS.is_space c = false.
Proof.
  destruct c as [[] [] [] [] [] [] [] []]; intros H;
    try discriminate H; reflexivity.
Qed.

Lemma digit_is_slug_char (c : ascii) :
  JS.is_digit c = true -> is_slug_char c = true.
Proof.
  unfold is_slug_char. intros ->. now rewrite orb_true_r.
Qed.

Lemma toLowerCase_fixed (s : string) :
  JS.forall_chars is_slug_char s = true -> JS.toLowerCase s = s.
Proof.
  unfold JS.toLowerCase.
  induction s as [|c s IH]; simpl; [reflexivity|].
  rewrite andb_true_iff. intros [Hc Hs].
  rewrite (IH Hs). unfold JS.lower_char. now rewrite (slug_char_not_upper c Hc).
Qed.

Lemma drop_while_end_fixed (p : ascii -> bool) (s : string) :
  JS.forall_chars (fun c => negb (p c)) s = true -> JS.drop_while_end p s = s.
Proof.
  induction s as [|c s IH]; simpl; [reflexivity|].
  rewrite andb_true_iff, negb_true_iff. intros [Hc Hs].
  now rewrite Hc, (IH Hs).
Qed.

Lemma trim_fixed (s : string) :
  JS.forall_chars is_slug_char s = true -> JS.trim s = s.
Proof.
  intros H. unfold JS.trim.
  assert (Hns : JS.forall_chars (fun c => negb (JS.is_space c)) s = true).
  { eapply forall_chars_impl; [|exact H].
    intros c Hc. now rewrite (slug_char_not_space c Hc). }
  assert (Hd : JS.drop_while JS.is_space s = s).
  { destruct s as [|c s]; [reflexivity|]. simpl in *.
    apply andb_true_iff in Hns as [Hc _].
    apply negb_true_iff in Hc. now rewrite Hc. }
  rewrite Hd. now apply drop_while_end_fixed.
Qed.

(** The setters of the [slug] path leave a text of slug characters as it is. *)
Lemma cast_fixed (s : string) :
  JS.forall_chars is_slug_char s = true -> cast_lower_trim s = s.
Proof.
  intros H. unfold cast_lower_trim.
  rewrite (toLowerCase_fixed s H). now apply trim_fixed.
Qed.

Lemma hyphenate_chars (s : string) :
  forall in_run, JS.forall_chars is_slug_char (hyphenate in_run s) = true.
Proof.
  induction s as [|c s IH]; intros in_run; simpl; [reflexivity|].
  destruct (JS.is_lower c || JS.is_digit c) eqn:E.
  - simpl. rewrite IH, andb_true_r. unfold is_slug_char. now rewrite E.
  - destruct in_run; simpl; auto.
Qed.

Lemma drop_while_chars (p q : ascii -> bool) (s : string) :
  JS.forall_chars p s = true -> JS.forall_chars p (JS.drop_while q s) = true.
Proof.
  induction s as [|c s IH]; simpl; [reflexivity|].
  rewrite andb_true_iff. intros [Hc Hs].
  destruct (q c); [auto|]. simpl. now rewrite Hc, Hs.
Qed.

Lemma drop_while_end_chars (p q : ascii -> bool) (s : string) :
  JS.forall_chars p s = true -> JS.forall_chars p (JS.drop_while_end q s) = true.
Proof.
  induction s as [|c s IH]; simpl; [reflexivity|].
  rewrite andb_true_iff. intros [Hc Hs].
  destruct (q c && _); [reflexivity|]. simpl. now rewrite Hc, IH.
Qed.

(** A slug holds lower-case letters, digits and hyphens only. *)
Lemma slugify_chars (organizationName : string) :
  JS.forall_chars is_slug_char (slugify organizationName) = true.
Proof.
  unfold slugify.
  apply drop_while_end_chars, drop_while_chars, hyphenate_chars.
Qed.

Lemma suffixed_chars (slug : string) (k : Z) :
  JS.forall_chars is_slug_char slug = true -> 0 <= k ->
  JS.forall_chars is_slug_char (suffixed slug k) = true.
Proof.
  intros Hs Hk. unfold suffixed.
  rewrite !forall_chars_app, Hs. simpl.
  eapply forall_chars_impl; [apply digit_is_slug_char|now apply show_Z_digits].
Qed.

Lemma append_inv_head (a b c : string) : a ++ b = a ++ c -> b = c.
Proof.
  induction a as [|x a IH]; simpl; [auto|].
  intros [= H]. auto.
Qed.

Lemma append_length (a b : string) :
  String.length (a ++ b) = (String.length a + String.length b)%nat.
Proof. induction a as [|x a IH]; simpl; [reflexivity|now rewrite IH]. Qed.

Lemma suffixed_inj (slug : string) (a b : Z) :
  suffixed slug a = suffixed slug b -> a = b.
Proof.
  unfold suffixed. intros H.
  apply append_inv_head in H. simpl in H. injection H as H.
  now apply show_Z_inj.
Qed.

Lemma suffixed_not_slug (slug : string) (k : Z) : slug <> suffixed slug k.
Proof.
  unfold suffixed. intros H.
  apply (f_equal String.length) in H.
  rewrite append_length in H. simpl in H. lia.
Qed.

Lemma suffixed_truthy (slug : string) (k : Z) : JS.truthy (suffixed slug k) = true.
Proof.
  unfold JS.truthy. apply negb_true_iff, String.eqb_neq.
  intros H. apply (f_equal String.length) in H.
  unfold suffixed in H. rewrite append_length in H. simpl in H. lia.
Qed.

(** Every text the loop tests is the current one or a later suffixed one. *)
Lemma candidates_shape (slug : string) (fuel : nat) :
  forall finalSlug counter s,
    In s (candidates slug finalSlug counter fuel) ->
    s = finalSlug \/ exists k, counter <= k /\ s = suffixed slug k.
Proof.
  induction fuel as [|fuel IH]; intros finalSlug counter s; simpl; [tauto|].
  intros [<-|Hin]; [now left|].
  right. apply IH in Hin as [->|(k & Hk & ->)].
  - exists counter. split; [lia|reflexivity].
  - exists k. split; [lia|reflexivity].
Qed.

Lemma candidates_NoDup (slug : string) (fuel : nat) :
  forall finalSlug counter,
    (forall k, counter <= k -> finalSlug <> suffixed slug k) ->
    NoDup (candidates slug finalSlug counter fuel).
Proof.
  induction fuel as [|fuel IH]; intros finalSlug counter Hfresh; simpl;
    constructor.
  - intros Hin. apply candidates_shape in Hin as [Heq|(k & Hk & Heq)].
    + apply (Hfresh counter); [lia|exact Heq].
    + apply (Hfresh k); [lia|exact Heq].
  - apply IH. intros k Hk Heq. apply suffixed_inj in Heq. lia.
Qed.

Lemma candidates_length (slug : string) (fuel : nat) :
  forall finalSlug counter,
    List.length (candidates slug finalSlug counter fuel) = fuel.
Proof.
  induction fuel as [|fuel IH]; intros; simpl; [reflexivity|now rewrite IH].
Qed.

Lemma candidates_chars (slug : string) (fuel : nat) :
  JS.forall_chars is_slug_char slug = true ->
  forall finalSlug counter s,
    JS.forall_chars is_slug_char finalSlug = true -> 0 <= counter ->
    In s (candidates slug finalSlug counter fuel) ->
    JS.forall_chars is_slug_char s = true.
Proof.
  intros Hslug finalSlug counter s Hf Hc Hin.
  apply candidates_shape in Hin as [->|(k & Hk & ->)]; [exact Hf|].
  apply suffixed_chars; [exact Hslug|lia].
Qed.

Variable db : DB.

Lemma findOne_slug_In (s : string) (o : Organization) :
  Organization_findOne_slug db s = Some o ->
  In o (organizations db) /\ org_slug o = cast_lower_trim s.
Proof.
  unfold Organization_findOne_slug. intros H.
  apply find_some in H as [Hin Heq]. split; [exact Hin|].
  now apply String.eqb_eq.
Qed.

Lemma findOne_slug_None (s : string) :
  Organization_findOne_slug db s = None ->
  forall o, In o (organizations db) -> org_slug o <> cast_lower_trim s.
Proof.
  unfold Organization_findOne_slug. intros H o Hin.
  apply (find_none _ _ H) in Hin. now apply String.eqb_neq.
Qed.

(** When the loop runs out of fuel, every text it tested is taken. *)
Lemma freeSlug_None (slug : string) (fuel : nat) :
  forall finalSlug counter,
    freeSlug fuel db slug finalSlug counter = None ->
    forall s, In s (candidates slug finalSlug counter fuel) ->
              Organization_findOne_slug db s <> None.
Proof.
  induction fuel as [|fuel IH]; intros finalSlug counter Hnone s; simpl;
    [tauto|].
  simpl in Hnone.
  destruct (Organization_findOne_slug db finalSlug) as [o|] eqn:E;
    [|discriminate].
  intros [<-|Hin]; [congruence|].
  exact (IH _ _ Hnone s Hin).
Qed.

(** What the loop returns is free, and is one of the texts it tested. *)
Lemma freeSlug_Some (slug : string) (fuel : nat) :
  forall finalSlug counter s,
    freeSlug fuel db slug finalSlug counter = Some s ->
    Organization_findOne_slug db s = None
    /\ In s (candidates slug finalSlug counter fuel).
Proof.
  induction fuel as [|fuel IH]; intros finalSlug counter s; simpl;
    [discriminate|].
  destruct (Organization_findOne_slug db finalSlug) as [o|] eqn:E.
  - intros H. apply IH in H as [Hfree Hin]. auto.
  - intros [= <-]. auto.
Qed.

(** The loop ends: with one more test than there are organizations, it
    finds a free slug. *)
Lemma freeSlug_total (slug : string) :
  JS.forall_chars is_slug_char slug = true ->
  exists s, freeSlug (S (List.length (organizations db))) db slug slug 1 = Some s.
Proof.
  intros Hslug.
  destruct (freeSlug (S (List.length (organizations db))) db slug slug 1)
    as [s|] eqn:E; [now exists s|exfalso].
  pose proof (freeSlug_None slug _ _ _ E) as Htaken.
  set (cs := candidates slug slug 1 (S (List.length (organizations db)))) in *.
  assert (Hincl : incl cs (map org_slug (organizations db))).
  { intros s Hin.
    assert (Hchars : JS.forall_chars is_slug_char s = true)
      by (eapply candidates_chars; eauto; lia).
    specialize (Htaken s Hin).
    destruct (Organization_findOne_slug db s) as [o|] eqn:Eo; [|congruence].
    apply findOne_slug_In in Eo as [Ho Hs].
    rewrite (cast_fixed s Hchars) in Hs. rewrite <- Hs. now apply in_map. }
  assert (Hnd : NoDup cs)
    by (apply candidates_NoDup; intros k _; apply suffixed_not_slug).
  pose proof (NoDup_incl_length Hnd Hincl) as Hlen.
  unfold cs in Hlen. rewrite candidates_length, length_map in Hlen. lia.
Qed.

End Slugs.

(* ================================================================== *)
(** * Registration *)
(* ================================================================== *)

Section Registration.

Variable cfg : Config.

Lemma find_app_last {A : Type} (p : A -> bool) (l : list A) (x : A) :
  find p (l ++ [x])
  = match find p l with
    | Some y => Some y
    | None => if p x then Some x else None
    end.
Proof.
  induction l as [|a l IH]; simpl; [reflexivity|].
  destruct (p a); [reflexivity|exact IH].
Qed.

Lemma find_map_same {A : Type} (p : A -> bool) (f : A -> A) (l : list A) :
  (forall x, p (f x) = p x) ->
  find p (map f l) = option_map f (find p l).
Proof.
  intros Hp. induction l as [|a l IH]; simpl; [reflexivity|].
  rewrite Hp. destruct (p a); [reflexivity|exact IH].
Qed.

Lemma existsb_find_None {A : Type} (p : A -> bool) (l : list A) :
  find p l = None -> existsb p l = false.
Proof.
  induction l as [|a l IH]; simpl; [reflexivity|].
  destruct (p a); [discriminate|exact IH].
Qed.

(** ** The two [create] calls *)

Lemma Organization_create_Some (db db' : DB) (name slug : string)
    (o : Organization) :
  Organization_create db name slug = Some (o, db') ->
  o = {| org_id := nextId db;
         org_name := JS.trim name;
         org_slug := cast_lower_trim slug;
         org_ownerId := None;
         org_isActive := true |}
  /\ organizations db' = (organizations db ++ [o])%list
  /\ users db' = users db
  /\ nextId db' = S (nextId db)
  /\ length_between 2 100 (JS.trim name) = true.
Proof.
  unfold Organization_create. cbv zeta.
  destruct (length_between 2 100 (JS.trim name)) eqn:E1; [|discriminate].
  destruct (slug_matches (cast_lower_trim slug)); [|discriminate].
  destruct (existsb _ (organizations db)); [discriminate|].
  intros [= <- <-]. simpl. auto.
Qed.

(** A valid name and a free slug of slug characters are accepted. *)
Lemma Organization_create_accepts (db : DB) (name slug : string) :
  length_between 2 100 (JS.trim name) = true ->
  JS.truthy slug = true ->
  JS.forall_chars is_slug_char slug = true ->
  Organization_findOne_slug db slug = None ->
  exists o db', Organization_create db name slug = Some (o, db').
Proof.
  intros Hname Htruthy Hchars Hfree.
  unfold Organization_create, slug_matches.
  unfold Organization_findOne_slug in Hfree.
  apply existsb_find_None in Hfree.
  rewrite Hname, Hfree, (cast_fixed slug Hchars), Htruthy, Hchars. simpl.
  eauto.
Qed.

Lemma User_create_Some (db db' : DB) (email password name : string)
    (organizationId : ObjectId) (role : Role) (u : User) :
  User_create db email password name organizationId role = Some (u, db') ->
  user_id u = nextId db
  /\ user_role u = role
  /\ user_organizationId u = organizationId
  /\ users db' = (users db ++ [u])%list
  /\ organizations db' = organizations db
  /\ nextId db' = S (nextId db).
Proof.
  unfold User_create. cbv zeta.
  match goal with |- context [if ?c then _ else _] => destruct c end;
    [|discriminate].
  intros [= <- <-]. simpl. auto 10.
Qed.

(** ** [createUserAndRespond] *)

Lemma createUser_status (now : Z) (db : DB) (body : RegisterBody)
    (organizationId : ObjectId) (role : Role) :
  res_status (fst (createUserAndRespond cfg now db body organizationId role)) = 201%nat
  \/ (res_status (fst (createUserAndRespond cfg now db body organizationId role)) = 500%nat
      /\ snd (createUserAndRespond cfg now db body organizationId role) = db).
Proof.
  unfold createUserAndRespond.
  destruct (User_create db _ _ _ organizationId role) as [[user db1]|];
    [left|right]; auto.
Qed.

Lemma createUser_201 (now : Z) (db db' : DB) (body : RegisterBody)
    (organizationId : ObjectId) (role : Role) (r : Response) :
  createUserAndRespond cfg now db body organizationId role = (r, db') ->
  res_status r = 201%nat ->
  exists user accessToken,
    res_body r = JsonSession user accessToken
    /\ In user (users db')
    /\ user_id user = nextId db
    /\ user_role user = role
    /\ user_organizationId user = organizationId
    /\ organizations db'
       = (if given (reg_organizationName body)
          then organizations (Organization_setOwner db organizationId (nextId db))
          else organizations db).
Proof.
  unfold createUserAndRespond.
  destruct (User_create db _ _ _ organizationId role) as [[user db1]|] eqn:E;
    [|intros [= <- <-]; discriminate].
  apply User_create_Some in E as (Hid & Hrole & Horg & Husers & Horgs & Hnext).
  intros [= <- <-] _. do 2 eexists. split; [reflexivity|].
  split; [|split; [exact Hid|split; [exact Hrole|split; [exact Horg|]]]].
  - cbn [users User_saveRefreshToken with_refreshToken user_id].
    replace (users (if given (reg_organizationName body)
                    then Organization_setOwner db1 organizationId (user_id user)
                    else db1))
      with (users db ++ [user])%list
      by (destruct (given _); rewrite <- Husers; reflexivity).
    rewrite map_app, in_app_iff. right. simpl. left.
    now rewrite Nat.eqb_refl.
  - cbn [organizations User_saveRefreshToken].
    destruct (given _); [|exact Horgs].
    cbn [organizations Organization_setOwner]. now rewrite Horgs, Hid.
Qed.

(** ** [register] always returns *)

Lemma register_returns (now : Z) (db : DB) (body : RegisterBody) :
  exists r db', register cfg now db body = Some (r, db').
Proof.
  unfold register.
  destruct (User_findOne_email db (reg_email body)); [eauto|].
  destruct (truthyName (reg_organizationName body)) as [organizationName|].
  - destruct (freeSlug_total db (slugify organizationName)
                (slugify_chars organizationName)) as [s ->].
    destruct (Organization_create db organizationName s) as [[o db1]|];
      [|eauto].
    destruct (createUserAndRespond cfg now db1 body (org_id o) admin); eauto.
  - destruct (Organization_findOne_slug db "default") as [o|].
    + destruct (createUserAndRespond cfg now db body (org_id o) editor); eauto.
    + destruct (Organization_create db "Default Organization" "default")
        as [[o db1]|]; [|eauto].
      destruct (createUserAndRespond cfg now db1 body (org_id o) editor); eauto.
Qed.

(** ** Slugs already stored stay where they are *)

Lemma findOne_slug_ext (db1 db2 : DB) (s : string) :
  organizations db1 = organizations db2 ->
  Organization_findOne_slug db1 s = Organization_findOne_slug db2 s.
Proof. unfold Organization_findOne_slug. now intros ->. Qed.

Lemma setOwner_keeps_slug (db : DB) (id ownerId : ObjectId) (s : string)
    (o : Organization) :
  Organization_findOne_slug db s = Some o ->
  exists o', Organization_findOne_slug (Organization_setOwner db id ownerId) s
             = Some o'
             /\ org_id o' = org_id o.
Proof.
  unfold Organization_findOne_slug. cbn [organizations Organization_setOwner].
  intros H. rewrite find_map_same, H.
  - simpl. eexists. split; [reflexivity|].
    destruct (Nat.eqb (org_id o) id); reflexivity.
  - intros x. destruct (Nat.eqb (org_id x) id); reflexivity.
Qed.


Lemma createUser_keeps_slug (now : Z) (db : DB) (body : RegisterBody)
    (organizationId : ObjectId) (role : Role) (s : string) (o : Organization) :
  Organization_findOne_slug db s = Some o ->
  exists o',
    Organization_findOne_slug
      (snd (createUserAndRespond cfg now db body organizationId role)) s = Some o'
    /\ org_id o' = org_id o.
Proof.
  intros Hf. unfold createUserAndRespond.
  destruct (User_create db _ _ _ organizationId role) as [[user db1]|] eqn:E;
    [|exists o; auto].
  apply User_create_Some in E as (_ & _ & _ & _ & Horgs & _).
  cbn [snd].
  rewrite <- (findOne_slug_ext db1 db s Horgs) in Hf.
  destruct (given (reg_organizationName body)).
  - destruct (setOwner_keeps_slug db1 organizationId (user_id user) s o Hf)
      as (o' & Ho' & Hid).
    exists o'. split; [|exact Hid]. rewrite <- Ho'. now apply findOne_slug_ext.
  - exists o. split; [|reflexivity]. rewrite <- Hf. now apply findOne_slug_ext.
Qed.



(** ** What [createUserAndRespond] does to the organizations *)

Lemma setOwner_rows (db : DB) (id ownerId : ObjectId) :
  organizations (Organization_setOwner db id ownerId)
  = map (setOwner_row id ownerId) (organizations db).
Proof. reflexivity. Qed.

Lemma setOwner_row_same (id ownerId : ObjectId) (o : Organization) :
  org_id (setOwner_row id ownerId o) = org_id o
  /\ org_name (setOwner_row id ownerId o) = org_name o
  /\ org_slug (setOwner_row id ownerId o) = org_slug o.
Proof. unfold setOwner_row. destruct (Nat.eqb (org_id o) id); auto. Qed.

Lemma setOwner_row_other (id ownerId : ObjectId) (o : Organization) :
  org_id o <> id -> setOwner_row id ownerId o = o.
Proof.
  intros H. unfold setOwner_row. apply Nat.eqb_neq in H. now rewrite H.
Qed.

Lemma createUser_orgs (now : Z) (db : DB) (body : RegisterBody)
    (organizationId : ObjectId) (role : Role) :
  organizations (snd (createUserAndRespond cfg now db body organizationId role))
  = organizations db
  \/ organizations (snd (createUserAndRespond cfg now db body organizationId role))
     = map (setOwner_row organizationId (nextId db)) (organizations db).
Proof.
  unfold createUserAndRespond.
  destruct (User_create db _ _ _ organizationId role) as [[user db1]|] eqn:E;
    [|now left].
  apply User_create_Some in E as (Hid & _ & _ & _ & Horgs & _).
  cbn [snd organizations User_saveRefreshToken].
  destruct (given _); [right|left; exact Horgs].
  now rewrite setOwner_rows, Horgs, Hid.
Qed.

Lemma createUser_nextId (now : Z) (db db' : DB) (body : RegisterBody)
    (organizationId : ObjectId) (role : Role) (r : Response) :
  createUserAndRespond cfg now db body organizationId role = (r, db') ->
  res_status r = 201%nat ->
  nextId db' = S (nextId db).
Proof.
  unfold createUserAndRespond.
  destruct (User_create db _ _ _ organizationId role) as [[user db1]|] eqn:E;
    [|intros [= <- <-]; discriminate].
  apply User_create_Some in E as (_ & _ & _ & _ & _ & Hnext).
  intros [= <- <-] _. cbn [nextId User_saveRefreshToken].
  destruct (given _); exact Hnext.
Qed.

(** A row whose id is not [organizationId] is left as it is. *)
Lemma createUser_keeps_row (now : Z) (db : DB) (body : RegisterBody)
    (organizationId : ObjectId) (role : Role) (o : Organization) :
  In o (organizations db) -> org_id o <> organizationId ->
  In o (organizations (snd (createUserAndRespond cfg now db body organizationId role))).
Proof.
  intros Hin Hid.
  destruct (createUser_orgs now db body organizationId role) as [->| ->];
    [exact Hin|].
  rewrite <- (setOwner_row_other organizationId (nextId db) o Hid).
  now apply in_map.
Qed.

(** The row whose id is [organizationId] keeps its id, name and slug. *)
Lemma createUser_keeps_fields (now : Z) (db : DB) (body : RegisterBody)
    (organizationId : ObjectId) (role : Role) (o : Organization) :
  In o (organizations db) ->
  exists o',
    In o' (organizations (snd (createUserAndRespond cfg now db body organizationId role)))
    /\ org_id o' = org_id o /\ org_name o' = org_name o /\ org_slug o' = org_slug o.
Proof.
  intros Hin.
  destruct (createUser_orgs now db body organizationId role) as [->| ->].
  - exists o. auto.
  - exists (setOwner_row organizationId (nextId db) o).
    split; [now apply in_map|apply setOwner_row_same].
Qed.

Lemma createUser_orgs_length (now : Z) (db : DB) (body : RegisterBody)
    (organizationId : ObjectId) (role : Role) :
  List.length (organizations (snd (createUserAndRespond cfg now db body organizationId role)))
  = List.length (organizations db).
Proof.
  destruct (createUser_orgs now db body organizationId role) as [->| ->];
    [reflexivity|apply length_map].
Qed.

Lemma freeSlug_first (db : DB) (slug finalSlug : string) (counter : Z)
    (fuel : nat) (s : string) :
  freeSlug (S fuel) db slug finalSlug counter = Some s ->
  s = finalSlug \/ Organization_findOne_slug db finalSlug <> None.
Proof.
  simpl. destruct (Organization_findOne_slug db finalSlug).
  - intros _. right. discriminate.
  - intros [= <-]. now left.
Qed.

(** The loop returns the first text it tests that is free: either the
    one it starts from, or [slug-k] with every text before it taken. *)
Lemma freeSlug_minimal (db : DB) (slug : string) (fuel : nat) :
  forall (finalSlug : string) (counter : Z) (s : string),
    freeSlug fuel db slug finalSlug counter = Some s ->
    Organization_findOne_slug db s = None
    /\ (s = finalSlug
        \/ exists k,
             counter <= k
             /\ s = suffixed slug k
             /\ Organization_findOne_slug db finalSlug <> None
             /\ forall j, counter <= j < k ->
                          Organization_findOne_slug db (suffixed slug j) <> None).
Proof.
  induction fuel as [|fuel IH]; intros finalSlug counter s; simpl;
    [discriminate|].
  destruct (Organization_findOne_slug db finalSlug) as [o|] eqn:E.
  - intros H. apply IH in H as [Hfree Hcase]. split; [exact Hfree|]. right.
    destruct Hcase as [->|(k & Hk & -> & Htaken & Hbefore)].
    + exists counter. split; [lia|]. split; [reflexivity|].
      split; [discriminate|]. intros j Hj. lia.
    + exists k. split; [lia|]. split; [reflexivity|].
      split; [discriminate|]. intros j Hj.
      destruct (Z.eq_dec j counter) as [->|Hne]; [exact Htaken|].
      apply Hbefore. lia.
  - intros [= <-]. auto.
Qed.

Lemma findOne_slug_taken (db : DB) (s : string) (o : Organization) :
  In o (organizations db) -> org_slug o = cast_lower_trim s ->
  Organization_findOne_slug db s <> None.
Proof.
  intros Hin Hslug Hnone.
  now apply (findOne_slug_None db s Hnone o Hin).
Qed.

(** ** One successful registration *)




(** C7 (as the code has it): after a successful registration that
    created an organization for a name, a second registration with the same
    name and an email not yet registered is not answered 409.  The slug loop
    moves on to [slug-k] for the first [k >= 1] whose text is free (the
    slug itself and every [slug-j] with [1 <= j < k] are taken), a second
    Organization row with the same name is created under that slug, and
    the first row is left as it was. *)
Theorem same_name_second_organization :
  forall (now1 now2 : Z) (db db1 : DB) (body1 body2 : RegisterBody)
         (r1 : Response) (name : string),
    register cfg now1 db body1 = Some (r1, db1) ->
    res_status r1 = 201%nat ->
    truthyName (reg_organizationName body1) = Some name ->
    truthyName (reg_organizationName body2) = Some name ->
    User_findOne_email db1 (reg_email body2) = None ->
    exists (r2 : Response) (db2 : DB) (first second : Organization) (k : Z),
      register cfg now2 db1 body2 = Some (r2, db2)
      /\ (res_status r2 = 201%nat \/ res_status r2 = 500%nat)
      /\ res_status r2 <> 409%nat
      /\ In first (organizations db1)
      /\ org_id first = nextId db
      /\ org_name first = JS.trim name
      /\ In first (organizations db2)
      /\ In second (organizations db2)
      /\ org_id second = nextId db1
      /\ org_id second <> org_id first
      /\ org_name second = JS.trim name
      /\ 1 <= k
      /\ org_slug second = suffixed (slugify name) k
      /\ Organization_findOne_slug db1 (slugify name) <> None
      /\ (forall j, 1 <= j < k ->
                    Organization_findOne_slug db1 (suffixed (slugify name) j)
                    <> None)
      /\ Organization_findOne_slug db1 (suffixed (slugify name) k) = None
      /\ org_slug second <> org_slug first
      /\ List.length (organizations db2) = S (List.length (organizations db1)).
Proof.
  intros now1 now2 db db1 body1 body2 r1 name Hreg1 Hst1 Hname1 Hname2 Hemail2.
  set (slug := slugify name).
  assert (Hslug : JS.forall_chars is_slug_char slug = true)
    by apply slugify_chars.
  (* the first registration *)
  unfold register in Hreg1. rewrite Hname1 in Hreg1. fold slug in Hreg1.
  destruct (User_findOne_email db (reg_email body1));
    [injection Hreg1 as <- <-; discriminate|].
  destruct (freeSlug _ db slug slug 1) as [s1|] eqn:Efree1; [|discriminate].
  destruct (Organization_create db name s1) as [[o1 dbA]|] eqn:Ec1;
    [|injection Hreg1 as <- <-; discriminate].
  injection Hreg1 as Hreg1.
  pose proof (createUser_nextId _ _ _ _ _ _ _ Hreg1 Hst1) as Hnext1.
  apply Organization_create_Some in Ec1 as (Ho1 & HorgsA & _ & HnextA & Hlen).
  assert (Hid1 : org_id o1 = nextId db) by now rewrite Ho1.
  assert (Hdb1 : db1 = snd (createUserAndRespond cfg now1 dbA body1 (org_id o1) admin))
    by now rewrite Hreg1.
  destruct (createUser_keeps_fields now1 dbA body1 (org_id o1) admin o1)
    as (first & Hfirst & Hfid & Hfname & Hfslug);
    [rewrite HorgsA; apply in_or_app; right; now left|].
  rewrite <- Hdb1 in Hfirst.
  (* the slug is taken in the store the first registration leaves *)
  assert (Htaken : Organization_findOne_slug db1 slug <> None).
  { destruct (freeSlug_first _ _ _ _ _ _ Efree1) as [->|Hdb].
    - apply (findOne_slug_taken db1 slug first Hfirst).
      now rewrite Hfslug, Ho1.
    - destruct (Organization_findOne_slug db slug) as [o|] eqn:Eo; [|congruence].
      assert (HoA : Organization_findOne_slug dbA slug = Some o).
      { unfold Organization_findOne_slug in *.
        now rewrite HorgsA, find_app_last, Eo. }
      destruct (createUser_keeps_slug now1 dbA body1 (org_id o1) admin slug o HoA)
        as (o' & Ho' & _).
      rewrite <- Hdb1 in Ho'. congruence. }
  (* the second registration *)
  destruct (freeSlug_total db1 slug Hslug) as [s2 Efree2].
  destruct (freeSlug_minimal db1 slug _ _ _ _ Efree2)
    as [Hfree2 [->|(k & Hk & -> & _ & Hbefore)]]; [congruence|].
  assert (Hchars2 : JS.forall_chars is_slug_char (suffixed slug k) = true)
    by (apply suffixed_chars; [exact Hslug|lia]).
  destruct (Organization_create_accepts db1 name (suffixed slug k) Hlen
              (suffixed_truthy slug k) Hchars2 Hfree2) as (o2 & dbB & Ec2).
  pose proof Ec2 as Ec2'.
  apply Organization_create_Some in Ec2' as (Ho2 & HorgsB & _ & _ & _).
  rewrite (cast_fixed _ Hchars2) in Ho2.
  assert (Hid2 : org_id o2 = nextId db1) by now rewrite Ho2.
  destruct (createUserAndRespond cfg now2 dbB body2 (org_id o2) admin)
    as [r2 db2] eqn:Ecu.
  assert (Hdb2 : db2 = snd (createUserAndRespond cfg now2 dbB body2 (org_id o2) admin))
    by now rewrite Ecu.
  assert (Hr2 : r2 = fst (createUserAndRespond cfg now2 dbB body2 (org_id o2) admin))
    by now rewrite Ecu.
  destruct (createUser_keeps_fields now2 dbB body2 (org_id o2) admin o2)
    as (second & Hsecond & Hsid & Hsname & Hsslug);
    [rewrite HorgsB; apply in_or_app; right; now left|].
  rewrite <- Hdb2 in Hsecond.
  assert (Hneq : nextId db1 <> org_id first).
  { rewrite Hfid, Hid1, Hnext1, HnextA. lia. }
  exists r2, db2, first, second, k.
  split.
  { unfold register. rewrite Hemail2, Hname2. fold slug.
    now rewrite Efree2, Ec2, Ecu. }
  assert (Hstatus : res_status r2 = 201%nat \/ res_status r2 = 500%nat).
  { rewrite Hr2.
    destruct (createUser_status now2 dbB body2 (org_id o2) admin) as [H|[H _]];
      auto. }
  split; [exact Hstatus|].
  split; [destruct Hstatus as [-> | ->]; discriminate|].
  split; [exact Hfirst|].
  split; [congruence|].
  split; [rewrite Hfname, Ho1; reflexivity|].
  split.
  { rewrite Hdb2. apply createUser_keeps_row.
    - rewrite HorgsB. apply in_or_app. now left.
    - rewrite Hid2. auto. }
  split; [exact Hsecond|].
  split; [congruence|].
  split; [rewrite Hsid, Hid2; exact Hneq|].
  split; [rewrite Hsname, Ho2; reflexivity|].
  split; [lia|].
  split; [rewrite Hsslug, Ho2; reflexivity|].
  split; [exact Htaken|].
  split; [exact Hbefore|].
  split; [exact Hfree2|].
  split.
  { rewrite Hsslug, Ho2. cbn [org_slug]. intros Heq.
    apply (findOne_slug_None db1 _ Hfree2 first Hfirst).
    now rewrite (cast_fixed _ Hchars2). }
  rewrite Hdb2, createUser_orgs_length, HorgsB, length_app. simpl. lia.
Qed.

End Registration.

(** Erin and Frank both register "Initech". *)
Lemma same_name_second_organization_witness :
  register cfg0 100 emptyDb erin_body = Some after_erin
  /\ res_status (fst after_erin) = 201%nat
  /\ exists (r2 : Response) (db2 : DB) (first second : Organization) (k : Z),
       register cfg0 200 (snd after_erin) frank_body = Some (r2, db2)
       /\ (res_status r2 = 201%nat \/ res_status r2 = 500%nat)
       /\ res_status r2 <> 409%nat
       /\ In first (organizations (snd after_erin))
       /\ org_id first = nextId emptyDb
       /\ org_name first = JS.trim "Initech"
       /\ In first (organizations db2)
       /\ In second (organizations db2)
       /\ org_id second = nextId (snd after_erin)
       /\ org_id second <> org_id first
       /\ org_name second = JS.trim "Initech"
       /\ 1 <= k
       /\ org_slug second = suffixed (slugify "Initech") k
       /\ Organization_findOne_slug (snd after_erin) (slugify "Initech") <> None
       /\ (forall j, 1 <= j < k ->
                     Organization_findOne_slug (snd after_erin)
                       (suffixed (slugify "Initech") j)
                     <> None)
       /\ Organization_findOne_slug (snd after_erin)
            (suffixed (slugify "Initech") k) = None
       /\ org_slug second <> org_slug first
       /\ List.length (organizations db2)
          = S (List.length (organizations (snd after_erin))).
Proof.
  split; [reflexivity|]. split; [reflexivity|].
  apply (same_name_second_organization cfg0 100 200 emptyDb (snd after_erin)
           erin_body frank_body (fst after_erin) "Initech");
    reflexivity.
Defined.

(** C7 as stated fails: Frank's registration of the name Erin registered
    is answered 201, not 409, and the store then holds two organizations
    named "Initech". *)
Lemma second_registration_not_409 :
  register cfg0 100 emptyDb erin_body = Some after_erin
  /\ res_status (fst after_erin) = 201%nat
  /\ map org_name (organizations (snd after_erin)) = ["Initech"]
  /\ register cfg0 200 (snd after_erin) frank_body = Some after_frank
  /\ res_status (fst after_frank) = 201%nat
  /\ res_status (fst after_frank) <> 409%nat
  /\ map (fun o => (org_name o, org_slug o)) (organizations (snd after_frank))
     = [("Initech", "initech"); ("Initech", "initech-1")].
Proof. repeat split; try reflexivity. discriminate. Qed.


(** C10 fails on the code: the slug [default] is not reserved.  Mallory
    registers the organization "Default", whose slug is [default], and
    becomes its admin and owner; Gina, who registers without an
    organization, is then made an editor of Mallory's organization.  No
    "Default Organization" is created. *)
Theorem default_slug_taken_by_named_registration :
  register cfg0 100 emptyDb mallory_body = Some after_mallory
  /\ res_status (fst after_mallory) = 201%nat
  /\ register cfg0 300 (snd after_mallory) gina_body = Some gina_after_mallory
  /\ res_status (fst gina_after_mallory) = 201%nat
  /\ exists mallory gina tokenM tokenG organization,
       res_body (fst after_mallory) = JsonSession mallory tokenM
       /\ res_body (fst gina_after_mallory) = JsonSession gina tokenG
       /\ organizations (snd gina_after_mallory) = [organization]
       /\ org_name organization = "Default"
       /\ org_slug organization = "default"
       /\ org_ownerId organization = Some (user_id mallory)
       /\ user_role mallory = admin
       /\ user_organizationId mallory = org_id organization
       /\ reg_organizationName gina_body = None
       /\ user_role gina = editor
       /\ user_organizationId gina = org_id organization.
Proof.
  split; [reflexivity|]. split; [reflexivity|].
  split; [reflexivity|]. split; [reflexivity|].
  vm_compute. do 5 eexists. repeat split.
Qed.


Example unnamed_registrants_share :
  map (fun u => (user_email u, user_role u, user_organizationId u))
      (users (snd after_hank))
  = [("erin@initech.io", admin, 1%nat); ("frank@initech.io", admin, 3%nat);
     ("gina@mail.io", editor, 5%nat); ("hank@post.io", editor, 5%nat)]
  /\ map (fun o => (org_id o, org_slug o)) (organizations (snd after_hank))
     = [(1%nat, "initech"); (3%nat, "initech-1"); (5%nat, "default")].
Proof. split; reflexivity. Qed.

(* ================================================================== *)
(** * Token refresh *)
(* ================================================================== *)

Section Refresh.

Variable cfg : Config.

(** [refreshToken] writes nothing. *)
Lemma refreshToken_keeps_store (now : Z) (db : DB) (req : Request) :
  snd (refreshToken cfg now db req) = db.
Proof.
  unfold refreshToken.
  destruct (presented (cookie_refreshToken req)) as [token|]; [|reflexivity].
  destruct (Jwt.verify now token (jwt_refreshSecret cfg)); try reflexivity.
  destruct (User_findById db userId) as [user|]; [|reflexivity].
  destruct (negb (user_isActive user)); [reflexivity|].
  destruct (slot_differs _ token); reflexivity.
Qed.

Lemma presented_Some (cookie : option Jwt.Token) (t : Jwt.Token) :
  presented cookie = Some t -> cookie = Some t.
Proof.
  unfold presented. destruct cookie as [[key userId claims iat exp|text]|];
    try (intros H; exact H).
  destruct (JS.truthy text); [intros H; exact H|discriminate].
Qed.

(** A token that verified at one time verifies at any time before its
    expiry. *)
Lemma verify_again (now1 now2 : Z) (t : Jwt.Token) (secret : string)
    (userId : ObjectId) :
  Jwt.verify now1 t secret = Jwt.Decoded userId ->
  Jwt.verify now2 t secret <> Jwt.TokenExpiredError ->
  Jwt.verify now2 t secret = Jwt.Decoded userId.
Proof.
  unfold Jwt.verify. destruct t as [key uid claims iat exp|text]; [|discriminate].
  destruct (negb (String.eqb key secret)); [discriminate|].
  destruct (exp <=? now1); [discriminate|].
  intros [= ->]. destruct (exp <=? now2); [congruence|reflexivity].
Qed.

(** C4 (as the code has it): a successful refresh leaves the store, and
    with it the stored slot, unchanged; presenting the same refresh token
    again, at any time at which it has not expired, succeeds again. *)
Theorem refresh_replay_succeeds :
  forall (now1 now2 : Z) (db : DB) (req : Request),
    res_status (fst (refreshToken cfg now1 db req)) = 200%nat ->
    (forall t, cookie_refreshToken req = Some t ->
               Jwt.verify now2 t (jwt_refreshSecret cfg) <> Jwt.TokenExpiredError) ->
    snd (refreshToken cfg now1 db req) = db
    /\ res_status
         (fst (refreshToken cfg now2 (snd (refreshToken cfg now1 db req)) req))
       = 200%nat.
Proof.
  intros now1 now2 db req H1 Hlive.
  rewrite refreshToken_keeps_store. split; [reflexivity|].
  unfold refreshToken in *.
  destruct (presented (cookie_refreshToken req)) as [token|] eqn:Ep;
    [|discriminate].
  apply presented_Some in Ep. specialize (Hlive token Ep).
  destruct (Jwt.verify now1 token (jwt_refreshSecret cfg)) eqn:Ev;
    try discriminate.
  rewrite (verify_again now1 now2 token _ userId Ev Hlive).
  destruct (User_findById db userId) as [user|]; [|discriminate].
  destruct (negb (user_isActive user)); [discriminate|].
  destruct (slot_differs _ token); [discriminate|reflexivity].
Qed.

End Refresh.

(** Alice refreshes at time 10 and presents the same token at time 20. *)
Lemma refresh_replay_succeeds_witness :
  res_status (fst (refreshToken cfg0 10 dbWithSlot (refreshRequest refreshOfAlice)))
  = 200%nat
  /\ snd (refreshToken cfg0 10 dbWithSlot (refreshRequest refreshOfAlice))
     = dbWithSlot
  /\ res_status
       (fst (refreshToken cfg0 20
               (snd (refreshToken cfg0 10 dbWithSlot (refreshRequest refreshOfAlice)))
               (refreshRequest refreshOfAlice)))
     = 200%nat.
Proof.
  split; [reflexivity|].
  apply (refresh_replay_succeeds cfg0 10 20 dbWithSlot (refreshRequest refreshOfAlice));
    [reflexivity|].
  intros t [= <-]. discriminate.
Defined.

(** C4 as stated fails: the replay at time 20 of the token that refreshed
    at time 10 is answered 200, not 401. *)
Lemma replay_not_rejected :
  res_status (fst (refreshToken cfg0 10 dbWithSlot (refreshRequest refreshOfAlice)))
  = 200%nat
  /\ res_status
       (fst (refreshToken cfg0 20
               (snd (refreshToken cfg0 10 dbWithSlot (refreshRequest refreshOfAlice)))
               (refreshRequest refreshOfAlice)))
     <> 401%nat.
Proof. split; [reflexivity|discriminate]. Qed.

(** After its expiry the same token is rejected, by [jwt.verify]. *)
Example expired_replay_rejected :
  res_status (fst (refreshToken cfg0 604800 dbWithSlot (refreshRequest refreshOfAlice)))
  = 401%nat.
Proof. reflexivity. Qed.

(* ================================================================== *)
(** * Who is attached: [authenticate], [optionalAuth], [authorize] *)
(* ================================================================== *)

Section Attached.

Variable cfg : Config.
Variable now : Z.

Lemma optionalAuth_attached (db : DB) (req : Request) (user : User) :
  optionalAuth cfg now db req = Some user ->
  authenticate cfg now db req = inr user.
Proof.
  unfold authenticate, optionalAuth.
  destruct (header_authorization req) as [[token|text]|]; try discriminate.
  destruct (Jwt.verify now token (jwt_secret cfg)); try discriminate.
  destruct (User_findById db userId) as [u|]; try discriminate.
  destruct (user_isActive u); try discriminate.
  now intros [= ->].
Qed.

(** The two middlewares attach the same user: [authenticate] lets a request
    through with [user] exactly when [optionalAuth] attaches [user]. *)
Theorem authenticate_iff_optionalAuth (db : DB) (req : Request) (user : User) :
  authenticate cfg now db req = inr user
  <-> optionalAuth cfg now db req = Some user.
Proof.
  unfold authenticate, optionalAuth.
  destruct (header_authorization req) as [[token|text]|];
    try (split; discriminate).
  destruct (Jwt.verify now token (jwt_secret cfg)); try (split; discriminate).
  destruct (User_findById db userId) as [u|]; try (split; discriminate).
  destruct (user_isActive u); try (split; discriminate).
  split; intros [= ->]; reflexivity.
Qed.

(** What a request that [authenticate] lets through looks like. *)
Lemma authenticate_inr (db : DB) (req : Request) (user : User) :
  authenticate cfg now db req = inr user ->
  exists userId claims iat exp,
    header_authorization req
    = Some (Bearer (Jwt.Signed (jwt_secret cfg) userId claims iat exp))
    /\ now < exp
    /\ User_findById db userId = Some user
    /\ user_isActive user = true.
Proof.
  unfold authenticate.
  destruct (header_authorization req) as [[token|text]|]; try discriminate.
  destruct token as [key userId claims iat exp|text]; [|discriminate].
  unfold Jwt.verify.
  destruct (String.eqb key (jwt_secret cfg)) eqn:Ek; [|discriminate].
  apply String.eqb_eq in Ek. subst key. cbn [negb].
  destruct (exp <=? now) eqn:Ee; [discriminate|].
  apply Z.leb_gt in Ee.
  destruct (User_findById db userId) as [u|] eqn:Eu; [|discriminate].
  destruct (user_isActive u) eqn:Ea; [|discriminate].
  intros [= ->]. exists userId, claims, iat, exp. auto.
Qed.

(** Every answer of [authenticate] itself is a 401. *)
Lemma authenticate_inl (db : DB) (req : Request) (denied : Response) :
  authenticate cfg now db req = inl denied -> res_status denied = 401%nat.
Proof.
  unfold authenticate.
  destruct (header_authorization req) as [[token|text]|];
    try (intros [= <-]; reflexivity).
  destruct (Jwt.verify now token (jwt_secret cfg));
    try (intros [= <-]; reflexivity).
  destruct (User_findById db userId) as [u|]; [|intros [= <-]; reflexivity].
  destruct (user_isActive u); [discriminate|intros [= <-]; reflexivity].
Qed.

(** A token signed with another key than the access secret (a refresh
    token, when the two secrets differ) is answered 401 and attaches
    nobody, whatever it claims. *)
Theorem foreign_key_rejected (db : DB) (req : Request) (key : string)
    (userId : ObjectId) (claims : option (Role * ObjectId)) (iat exp : Z) :
  header_authorization req = Some (Bearer (Jwt.Signed key userId claims iat exp)) ->
  key <> jwt_secret cfg ->
  authenticate cfg now db req = inl (json 401 [("error", "Invalid token")])
  /\ optionalAuth cfg now db req = None.
Proof.
  intros Hh Hk. apply String.eqb_neq in Hk.
  unfold authenticate, optionalAuth, Jwt.verify. rewrite Hh, Hk. auto.
Qed.

(** The admin routes: a caller who gets past the guards is an active admin
    of the store; everybody else is answered 401 or 403. *)
Theorem adminGuard_admits_admins (db : DB) (req : Request) :
  match adminGuard cfg now db req with
  | inr user =>
      user_role user = admin /\ user_isActive user = true
      /\ authenticate cfg now db req = inr user
  | inl denied =>
      (res_status denied = 401%nat /\ optionalAuth cfg now db req = None)
      \/ (res_status denied = 403%nat
          /\ exists user, authenticate cfg now db req = inr user
                          /\ user_role user <> admin)
  end.
Proof.
  unfold adminGuard.
  destruct (authenticate cfg now db req) as [denied|user] eqn:Ea.
  - left. split; [now apply authenticate_inl with db req|].
    destruct (optionalAuth cfg now db req) as [u|] eqn:Eo; [|reflexivity].
    apply optionalAuth_attached in Eo. congruence.
  - destruct (authenticate_inr db req user Ea) as (_ & _ & _ & _ & _ & _ & _ & Hact).
    unfold authorize. cbn [existsb]. rewrite orb_false_r.
    destruct (user_role user) eqn:Er; cbn [Role_eqb].
    + right. split; [reflexivity|]. exists user. split; [reflexivity|].
      rewrite Er. discriminate.
    + right. split; [reflexivity|]. exists user. split; [reflexivity|].
      rewrite Er. discriminate.
    + auto.
Qed.

End Attached.

(* ================================================================== *)
(** * The store invariant *)
(* ================================================================== *)

Section StoreInvariant.

Lemma NoDup_map_filter {Row Key : Type} (key : Row -> Key) (keep : Row -> bool)
    (rows : list Row) (Hrows : NoDup (map key rows)) :
  NoDup (map key (filter keep rows)).
Proof.
  induction rows as [|row rows IH]; simpl; [exact Hrows|].
  inversion Hrows as [|? ? Hnotin Hnd]; subst.
  destruct (keep row); simpl; [|auto].
  constructor; [|auto].
  intros Hin. apply Hnotin. apply in_map_iff in Hin as (x & Hx & Hxin).
  apply filter_In in Hxin as [Hxin _]. apply in_map_iff. eauto.
Qed.

Lemma NoDup_map_snoc {A B : Type} (f : A -> B) (l : list A) (x : A) :
  NoDup (map f l) -> ~ In (f x) (map f l) -> NoDup (map f (l ++ [x])%list).
Proof.
  induction l as [|a l IH]; simpl; intros Hnd Hx.
  - constructor; [tauto|constructor].
  - inversion Hnd as [|? ? Hnotin Hnd']; subst.
    constructor; [|apply IH; tauto].
    rewrite map_app, in_app_iff. simpl. intros [Hin|[Heq|[]]]; [tauto|].
    apply Hx. now left.
Qed.

Lemma NoDup_map_same {A B : Type} (f : A -> B) (l : list A) (x y : A) :
  NoDup (map f l) -> In x l -> In y l -> f x = f y -> x = y.
Proof.
  induction l as [|a l IH]; simpl; [tauto|].
  intros H Hx Hy Hf. inversion H as [|? ? Hnotin Hnd]; subst.
  destruct Hx as [->|Hx], Hy as [->|Hy]; auto.
  - exfalso. apply Hnotin. rewrite Hf. now apply in_map.
  - exfalso. apply Hnotin. rewrite <- Hf. now apply in_map.
Qed.

Lemma findById_In (db : DB) (id : ObjectId) (u : User) :
  User_findById db id = Some u -> In u (users db) /\ user_id u = id.
Proof.
  unfold User_findById. intros H. apply find_some in H as [Hin Heq].
  split; [exact Hin|now apply Nat.eqb_eq].
Qed.

Lemma findById_unique (db : DB) (u : User) :
  users_unique db -> In u (users db) -> User_findById db (user_id u) = Some u.
Proof.
  intros Hnd Hin. unfold User_findById.
  destruct (find _ (users db)) as [v|] eqn:E.
  - apply find_some in E as [Hv Heq]. apply Nat.eqb_eq in Heq.
    f_equal. now apply (NoDup_map_same user_id (users db)).
  - exfalso. apply (find_none _ _ E) in Hin. now rewrite Nat.eqb_refl in Hin.
Qed.

(** With unique ids, replacing the row of a found user changes that row
    only. *)
Lemma replace_as_map (db : DB) (id : ObjectId) (user : User) (h : User -> User) :
  users_unique db ->
  User_findById db id = Some user ->
  (forall x, user_id (h x) = user_id x) ->
  users (User_replace db (h user))
  = map (fun x => if Nat.eqb (user_id x) id then h x else x) (users db).
Proof.
  intros Hnd Hfind Hh. apply findById_In in Hfind as [Hin Hid].
  cbn [users User_replace]. rewrite Hh, Hid.
  apply map_ext_in. intros x Hx.
  destruct (Nat.eqb_spec (user_id x) id) as [Heq|]; [|reflexivity].
  f_equal. apply (NoDup_map_same user_id (users db)); auto. congruence.
Qed.

(** A store whose user rows were rewritten without touching id, email,
    organization or validity is still well formed. *)
Lemma store_ok_users_map (db db' : DB) (g : User -> User) :
  store_ok db ->
  users db' = map g (users db) ->
  organizations db' = organizations db ->
  nextId db' = nextId db ->
  (forall x, In x (users db) ->
             user_id (g x) = user_id x
             /\ user_email (g x) = user_email x
             /\ user_organizationId (g x) = user_organizationId x
             /\ user_row_valid (g x) = true) ->
  store_ok db'.
Proof.
  intros (Hu & He & Hs & Ho & [Hfu Hfo] & Hv & Hm) Husers Horgs Hnext Hg.
  assert (Hids : map user_id (map g (users db)) = map user_id (users db))
    by (rewrite map_map; apply map_ext_in; intros x Hx; now apply Hg).
  assert (Hemails : map user_email (map g (users db)) = map user_email (users db))
    by (rewrite map_map; apply map_ext_in; intros x Hx; now apply Hg).
  unfold store_ok, users_unique, emails_unique, slugs_unique,
    organizations_unique, ids_fresh, rows_valid, members_have_organization.
  rewrite Husers, Horgs, Hnext, Hids, Hemails.
  repeat split; auto.
  - intros u Hin. apply in_map_iff in Hin as (x & <- & Hx).
    destruct (Hg x Hx) as (-> & _). now apply Hfu.
  - intros u Hin. apply in_map_iff in Hin as (x & <- & Hx). now apply Hg.
  - intros u Hin. apply in_map_iff in Hin as (x & <- & Hx).
    destruct (Hg x Hx) as (_ & _ & -> & _). now apply Hm.
Qed.

(** The same for organization rows rewritten without touching id or slug. *)
Lemma store_ok_organizations_map (db db' : DB) (g : Organization -> Organization) :
  store_ok db ->
  users db' = users db ->
  organizations db' = map g (organizations db) ->
  nextId db' = nextId db ->
  (forall o, org_id (g o) = org_id o /\ org_slug (g o) = org_slug o) ->
  store_ok db'.
Proof.
  intros (Hu & He & Hs & Ho & [Hfu Hfo] & Hv & Hm) Husers Horgs Hnext Hg.
  assert (Hids : map org_id (map g (organizations db)) = map org_id (organizations db))
    by (rewrite map_map; apply map_ext; intros o; now apply Hg).
  assert (Hslugs : map org_slug (map g (organizations db))
                   = map org_slug (organizations db))
    by (rewrite map_map; apply map_ext; intros o; now apply Hg).
  unfold store_ok, users_unique, emails_unique, slugs_unique,
    organizations_unique, ids_fresh, rows_valid, members_have_organization.
  rewrite Husers, Horgs, Hnext, Hids, Hslugs.
  repeat split; auto.
  - intros o Hin. apply in_map_iff in Hin as (x & <- & Hx).
    destruct (Hg x) as [-> _]. now apply Hfo.
  - intros u Hin. destruct (Hm u Hin) as (o & Ho' & Hid).
    exists (g o). split; [now apply in_map|]. destruct (Hg o) as [-> _]. exact Hid.
Qed.

Lemma with_refreshToken_valid (u : User) (t : option Jwt.Token) :
  user_row_valid (with_refreshToken u t) = user_row_valid u.
Proof. reflexivity. Qed.

Lemma store_ok_saveRefreshToken (db : DB) (id : ObjectId) (t : Jwt.Token) :
  store_ok db -> store_ok (User_saveRefreshToken db id t).
Proof.
  intros Hok.
  apply (store_ok_users_map db _
           (fun u => if Nat.eqb (user_id u) id
                     then with_refreshToken u (Some t) else u) Hok);
    try reflexivity.
  intros x Hx. destruct Hok as (_ & _ & _ & _ & _ & Hv & _).
  destruct (Nat.eqb (user_id x) id); repeat split; try reflexivity;
    exact (Hv x Hx).
Qed.

Lemma store_ok_clearRefreshToken (db : DB) (id : ObjectId) :
  store_ok db -> store_ok (User_clearRefreshToken db id).
Proof.
  intros Hok.
  apply (store_ok_users_map db _
           (fun u => if Nat.eqb (user_id u) id
                     then with_refreshToken u None else u) Hok);
    try reflexivity.
  intros x Hx. destruct Hok as (_ & _ & _ & _ & _ & Hv & _).
  destruct (Nat.eqb (user_id x) id); repeat split; try reflexivity;
    exact (Hv x Hx).
Qed.

Lemma store_ok_setOwner (db : DB) (id ownerId : ObjectId) :
  store_ok db -> store_ok (Organization_setOwner db id ownerId).
Proof.
  intros Hok.
  apply (store_ok_organizations_map db _ (setOwner_row id ownerId) Hok);
    try reflexivity.
  intros o. destruct (setOwner_row_same id ownerId o) as (H1 & _ & H3). auto.
Qed.

Lemma store_ok_Organization_create (db db' : DB) (name slug : string)
    (o : Organization) :
  store_ok db ->
  Organization_create db name slug = Some (o, db') ->
  store_ok db'.
Proof.
  intros (Hu & He & Hs & Ho & [Hfu Hfo] & Hv & Hm) Hc.
  unfold Organization_create in Hc. cbv zeta in Hc.
  destruct (length_between 2 100 (JS.trim name)); [|discriminate].
  destruct (slug_matches (cast_lower_trim slug)); [|discriminate].
  destruct (existsb _ (organizations db)) eqn:Eex; [discriminate|].
  injection Hc as <- <-.
  unfold store_ok, users_unique, emails_unique, slugs_unique,
    organizations_unique, ids_fresh, rows_valid, members_have_organization.
  cbn [users organizations nextId].
  repeat split; auto.
  - apply NoDup_map_snoc; [exact Hs|]. cbn [org_slug].
    intros Hin. apply in_map_iff in Hin as (x & Hx & Hxin).
    assert (existsb (fun o => String.eqb (org_slug o) (cast_lower_trim slug))
                    (organizations db) = true).
    { apply existsb_exists. exists x. split; [exact Hxin|].
      now apply String.eqb_eq. }
    congruence.
  - apply NoDup_map_snoc; [exact Ho|]. cbn [org_id].
    intros Hin. apply in_map_iff in Hin as (x & Hx & Hxin).
    apply Hfo in Hxin. lia.
  - intros u Hin. apply Hfu in Hin. lia.
  - intros x Hin. apply in_app_iff in Hin as [Hin|[<-|[]]].
    + apply Hfo in Hin. lia.
    + cbn. lia.
  - intros u Hin. destruct (Hm u Hin) as (x & Hx & Hid).
    exists x. split; [apply in_or_app; now left|exact Hid].
Qed.

Lemma store_ok_User_create (db db' : DB) (email password name : string)
    (organizationId : ObjectId) (role : Role) (u : User) :
  store_ok db ->
  (exists o, In o (organizations db) /\ org_id o = organizationId) ->
  User_create db email password name organizationId role = Some (u, db') ->
  store_ok db'.
Proof.
  intros (Hu & He & Hs & Ho & [Hfu Hfo] & Hv & Hm) Horg Hc.
  unfold User_create in Hc. cbv zeta in Hc.
  destruct (email_matches (cast_lower_trim email)) eqn:Eem; [|discriminate].
  destruct (8 <=? String.length password)%nat; [|discriminate].
  destruct (length_between 2 50 (JS.trim name)) eqn:Enm; [|discriminate].
  destruct (existsb _ (users db)) eqn:Eex; [discriminate|].
  injection Hc as <- <-.
  unfold store_ok, users_unique, emails_unique, slugs_unique,
    organizations_unique, ids_fresh, rows_valid, members_have_organization.
  cbn [users organizations nextId].
  repeat split; auto.
  - apply NoDup_map_snoc; [exact Hu|]. cbn [user_id].
    intros Hin. apply in_map_iff in Hin as (x & Hx & Hxin).
    apply Hfu in Hxin. lia.
  - apply NoDup_map_snoc; [exact He|]. cbn [user_email].
    intros Hin. apply in_map_iff in Hin as (x & Hx & Hxin).
    assert (existsb (fun u => String.eqb (user_email u) (cast_lower_trim email))
                    (users db) = true).
    { apply existsb_exists. exists x. split; [exact Hxin|].
      now apply String.eqb_eq. }
    congruence.
  - intros x Hin. apply in_app_iff in Hin as [Hin|[<-|[]]].
    + apply Hfu in Hin. lia.
    + cbn. lia.
  - intros o Hin. apply Hfo in Hin. lia.
  - intros x Hin. apply in_app_iff in Hin as [Hin|[<-|[]]]; [now apply Hv|].
    unfold user_row_valid. cbn [user_email user_name]. now rewrite Eem, Enm.
  - intros x Hin. apply in_app_iff in Hin as [Hin|[<-|[]]]; [now apply Hm|].
    exact Horg.
Qed.

Lemma NoDup_map_update {A B : Type} (key : A -> nat) (f : A -> B)
    (k : nat) (set : A -> A) (new : B) (l : list A) :
  (forall x, f (set x) = new) ->
  NoDup (map key l) -> NoDup (map f l) -> ~ In new (map f l) ->
  NoDup (map f (map (fun x => if Nat.eqb (key x) k then set x else x) l)).
Proof.
  intros Hset. induction l as [|a l IH]; simpl; intros Hk Hf Hnew; [constructor|].
  inversion Hk as [|? ? Hka Hkl]; subst. inversion Hf as [|? ? Hfa Hfl]; subst.
  destruct (Nat.eqb_spec (key a) k) as [Heq|Hne].
  - rewrite Hset.
    assert (Hid : map (fun x => if Nat.eqb (key x) k then set x else x) l = l).
    { rewrite <- (map_id l) at 2. apply map_ext_in. intros x Hx.
      destruct (Nat.eqb_spec (key x) k) as [Hx'|]; [|reflexivity].
      exfalso. apply Hka. rewrite Heq, <- Hx'. now apply in_map. }
    rewrite Hid. constructor; tauto.
  - constructor; [|apply IH; tauto].
    intros Hin. apply in_map_iff in Hin as (y & Hy & Hyin).
    apply in_map_iff in Hyin as (x & <- & Hx).
    destruct (Nat.eqb (key x) k).
    + rewrite Hset in Hy. apply Hnew. now left.
    + apply Hfa. rewrite <- Hy. now apply in_map.
Qed.

Variable cfg : Config.

Lemma store_ok_createUser (now : Z) (db : DB) (body : RegisterBody)
    (organizationId : ObjectId) (role : Role) :
  store_ok db ->
  (exists o, In o (organizations db) /\ org_id o = organizationId) ->
  store_ok (snd (createUserAndRespond cfg now db body organizationId role)).
Proof.
  intros Hok Horg. unfold createUserAndRespond.
  destruct (User_create db _ _ _ organizationId role) as [[user db1]|] eqn:E;
    [|exact Hok].
  apply (store_ok_User_create db db1 _ _ _ _ _ user Hok Horg) in E.
  cbn [snd]. apply store_ok_saveRefreshToken.
  destruct (given _); [now apply store_ok_setOwner|exact E].
Qed.

Lemma created_organization_In (db db' : DB) (name slug : string) (o : Organization) :
  Organization_create db name slug = Some (o, db') ->
  exists x, In x (organizations db') /\ org_id x = org_id o.
Proof.
  intros Hc. apply Organization_create_Some in Hc as (_ & Horgs & _).
  exists o. split; [|reflexivity]. rewrite Horgs. apply in_or_app. right. now left.
Qed.

Lemma store_ok_register (now : Z) (db db' : DB) (body : RegisterBody) (r : Response) :
  store_ok db -> register cfg now db body = Some (r, db') -> store_ok db'.
Proof.
  intros Hok Hreg. unfold register in Hreg.
  destruct (User_findOne_email db (reg_email body));
    [injection Hreg as <- <-; exact Hok|].
  destruct (truthyName (reg_organizationName body)) as [organizationName|].
  - destruct (freeSlug _ db _ _ 1) as [finalSlug|]; [|discriminate].
    destruct (Organization_create db organizationName finalSlug)
      as [[o db1]|] eqn:Ec; [|injection Hreg as <- <-; exact Hok].
    injection Hreg as Hreg. apply (f_equal snd) in Hreg. cbn [snd] in Hreg.
    rewrite <- Hreg. apply store_ok_createUser.
    + eapply store_ok_Organization_create; eauto.
    + eapply created_organization_In; eauto.
  - destruct (Organization_findOne_slug db "default") as [d|] eqn:Ed.
    + injection Hreg as Hreg. apply (f_equal snd) in Hreg. cbn [snd] in Hreg.
      rewrite <- Hreg. apply store_ok_createUser; [exact Hok|].
      apply findOne_slug_In in Ed as [Hin _]. eauto.
    + destruct (Organization_create db "Default Organization" "default")
        as [[o db1]|] eqn:Ec; [|injection Hreg as <- <-; exact Hok].
      injection Hreg as Hreg. apply (f_equal snd) in Hreg. cbn [snd] in Hreg.
      rewrite <- Hreg. apply store_ok_createUser.
      * eapply store_ok_Organization_create; eauto.
      * eapply created_organization_In; eauto.
Qed.

Lemma store_ok_login (now : Z) (db : DB) (email password : string) :
  store_ok db -> store_ok (snd (login cfg now db email password)).
Proof.
  intros Hok. unfold login.
  destruct (User_findOne_email db email) as [user|]; [|exact Hok].
  destruct (negb (user_isActive user)); [exact Hok|].
  destruct (negb (comparePassword user password)); [exact Hok|].
  destruct (negb (user_row_valid user)); [exact Hok|].
  now apply store_ok_saveRefreshToken.
Qed.

Lemma store_ok_replace (db : DB) (id : ObjectId) (user : User) (h : User -> User) :
  store_ok db ->
  User_findById db id = Some user ->
  (forall x, user_id (h x) = user_id x
             /\ user_email (h x) = user_email x
             /\ user_organizationId (h x) = user_organizationId x
             /\ user_row_valid (h x) = user_row_valid x) ->
  store_ok (User_replace db (h user)).
Proof.
  intros Hok Hfind Hh.
  pose proof Hok as (Hu & _ & _ & _ & _ & Hv & _).
  apply (store_ok_users_map db _
           (fun x => if Nat.eqb (user_id x) id then h x else x) Hok);
    try reflexivity.
  - apply replace_as_map; auto. intros x. apply Hh.
  - intros x Hx. destruct (Nat.eqb (user_id x) id).
    + destruct (Hh x) as (H1 & H2 & H3 & H4). rewrite H4. auto.
    + auto.
Qed.

Lemma store_ok_updateUserRole (db : DB) (id : ObjectId) (role : string) :
  store_ok db -> store_ok (snd (updateUserRole db id role)).
Proof.
  intros Hok. unfold updateUserRole.
  destruct (role_of_text role) as [r|]; [|exact Hok].
  destruct (User_findById db id) as [user|] eqn:E; [|exact Hok].
  cbn [snd]. apply (store_ok_replace db id user (fun x => with_role x r) Hok E).
  intros x. repeat split; reflexivity.
Qed.

Lemma store_ok_toggleUserStatus (db : DB) (admin_ : User) (id : ObjectId) :
  store_ok db -> store_ok (snd (toggleUserStatus db admin_ id)).
Proof.
  intros Hok. unfold toggleUserStatus.
  destruct (User_findById db id) as [user|] eqn:E; [|exact Hok].
  destruct (Nat.eqb (user_id user) (user_id admin_)); [exact Hok|].
  destruct (negb (user_row_valid user)); [exact Hok|].
  cbn [snd].
  apply (store_ok_replace db id user
           (fun x => with_isActive x (negb (user_isActive user))) Hok E).
  intros x. repeat split; reflexivity.
Qed.

Lemma store_ok_deleteUser (db : DB) (admin_ : User) (id : ObjectId)
    (canonical deleteVideos : bool) :
  store_ok db -> store_ok (snd (deleteUser db admin_ id canonical deleteVideos)).
Proof.
  intros Hok. unfold deleteUser.
  destruct (canonical && Nat.eqb id (user_id admin_)); [exact Hok|].
  destruct (User_findById db id) as [user|]; [|exact Hok].
  destruct Hok as (Hu & He & Hs & Ho & [Hfu Hfo] & Hv & Hm).
  unfold store_ok, users_unique, emails_unique, slugs_unique,
    organizations_unique, ids_fresh, rows_valid, members_have_organization.
  cbn [snd users organizations nextId].
  repeat split; auto using NoDup_map_filter.
  - intros u Hin. apply filter_In in Hin as [Hin _]. auto.
  - intros u Hin. apply filter_In in Hin as [Hin _]. auto.
  - intros u Hin. apply filter_In in Hin as [Hin _]. auto.
Qed.

Lemma store_ok_updateProfile (db : DB) (attached : User) (name email : option string) :
  store_ok db -> store_ok (snd (updateProfile db attached name email)).
Proof.
  intros Hok. unfold updateProfile.
  destruct (User_findById db (user_id attached)) as [user|] eqn:E; [|exact Hok].
  cbv zeta.
  set (changed := match truthyName email with
                  | Some e => negb (String.eqb e (user_email user))
                  | None => false
                  end).
  set (taken := match truthyName email with
                | Some e => match User_findOne_email db e with
                            | Some _ => true
                            | None => false
                            end
                | None => false
                end).
  set (email' := match truthyName email with
                 | Some e => if changed then cast_lower_trim e else user_email user
                 | None => user_email user
                 end).
  set (name' := match truthyName name with
                | Some n => JS.trim n
                | None => user_name user
                end).
  destruct (changed && taken) eqn:Ect; [exact Hok|].
  destruct (user_row_valid (with_profile user email' name')) eqn:Ev; [|exact Hok].
  cbn [snd].
  pose proof Hok as (Hu & He & Hs & Ho & [Hfu Hfo] & Hv & Hm).
  pose proof (findById_In db _ user E) as [Hin Hid].
  assert (Husers : users (User_replace db (with_profile user email' name'))
                   = map (fun x => if Nat.eqb (user_id x) (user_id user)
                                   then with_profile x email' name' else x)
                         (users db)).
  { rewrite <- Hid in E.
    apply (replace_as_map db (user_id user) user
             (fun x => with_profile x email' name') Hu E).
    reflexivity. }
  unfold store_ok, users_unique, emails_unique, slugs_unique,
    organizations_unique, ids_fresh, rows_valid, members_have_organization.
  rewrite Husers. cbn [organizations nextId User_replace].
  assert (Hids : map user_id
                   (map (fun x => if Nat.eqb (user_id x) (user_id user)
                                  then with_profile x email' name' else x)
                        (users db))
                 = map user_id (users db)).
  { rewrite map_map. apply map_ext. intros x.
    destruct (Nat.eqb (user_id x) (user_id user)); reflexivity. }
  rewrite Hids.
  repeat split; auto.
  - (* emails stay unique *)
    destruct (String.eqb email' (user_email user)) eqn:Esame.
    + apply String.eqb_eq in Esame.
      replace (map user_email
                 (map (fun x => if Nat.eqb (user_id x) (user_id user)
                                then with_profile x email' name' else x)
                      (users db)))
        with (map user_email (users db)); [exact He|].
      rewrite map_map. apply map_ext_in. intros x Hx.
      destruct (Nat.eqb_spec (user_id x) (user_id user)) as [Heq|]; [|reflexivity].
      cbn [user_email with_profile]. rewrite Esame. f_equal.
      now apply (NoDup_map_same user_id (users db)).
    + apply String.eqb_neq in Esame.
      apply (NoDup_map_update user_id user_email (user_id user)
               (fun x => with_profile x email' name') email');
        auto.
      unfold email' in *. destruct (truthyName email) as [e|]; [|congruence].
      destruct changed eqn:Ec; [|congruence]. cbn [andb] in Ect.
      unfold taken in Ect.
      destruct (User_findOne_email db e) eqn:Efind; [discriminate|].
      intros Hmem. apply in_map_iff in Hmem as (x & Hx & Hxin).
      unfold User_findOne_email in Efind. apply (find_none _ _ Efind) in Hxin.
      apply String.eqb_neq in Hxin. congruence.
  - intros u Hu'. apply in_map_iff in Hu' as (x & <- & Hx).
    destruct (Nat.eqb (user_id x) (user_id user)); cbn; auto.
  - intros u Hu'. apply in_map_iff in Hu' as (x & <- & Hx).
    destruct (Nat.eqb_spec (user_id x) (user_id user)) as [Heq|]; [|auto].
    assert (x = user) by now apply (NoDup_map_same user_id (users db)).
    subst x. exact Ev.
  - intros u Hu'. apply in_map_iff in Hu' as (x & <- & Hx).
    destruct (Nat.eqb (user_id x) (user_id user)); cbn; auto.
Qed.

Lemma refreshToken_store (now : Z) (db : DB) (req : Request) :
  snd (refreshToken cfg now db req) = db.
Proof. apply refreshToken_keeps_store. Qed.

Lemma serve_store_ok (now : Z) (db : DB) (call : Call) :
  store_ok db -> store_ok (snd (serve cfg now db call)).
Proof.
  intros Hok. destruct call; cbn [serve].
  - destruct (register cfg now db body) as [[r db']|] eqn:E; [|exact Hok].
    cbn [snd]. now apply (store_ok_register now db db' body r).
  - pose proof (store_ok_login now db email password Hok) as H.
    destruct (login cfg now db email password). exact H.
  - pose proof (refreshToken_store now db req) as H.
    destruct (refreshToken cfg now db req). cbn [snd] in *. now subst.
  - unfold POST_logout.
    destruct (authenticate cfg now db req) as [denied|user]; [exact Hok|].
    cbn [logout snd]. now apply store_ok_clearRefreshToken.
  - destruct (authenticate cfg now db req) as [denied|user]; [exact Hok|].
    pose proof (store_ok_updateProfile db user name email Hok) as H.
    destruct (updateProfile db user name email). exact H.
  - destruct (adminGuard cfg now db req) as [denied|user]; [exact Hok|].
    pose proof (store_ok_updateUserRole db id role Hok) as H.
    destruct (updateUserRole db id role). exact H.
  - destruct (adminGuard cfg now db req) as [denied|user]; [exact Hok|].
    pose proof (store_ok_toggleUserStatus db user id Hok) as H.
    destruct (toggleUserStatus db user id). exact H.
  - destruct (adminGuard cfg now db req) as [denied|user]; [exact Hok|].
    pose proof (store_ok_deleteUser db user id canonical deleteVideos Hok) as H.
    destruct (deleteUser db user id canonical deleteVideos). exact H.
Qed.

Lemma store_ok_empty : store_ok emptyDb.
Proof.
  unfold store_ok, users_unique, emails_unique, slugs_unique,
    organizations_unique, ids_fresh, rows_valid, members_have_organization.
  cbn. repeat split; try apply NoDup_nil; intros ? [].
Qed.

(** Every route that writes users or organizations keeps the store well
    formed, and so does any sequence of them: ids and emails and slugs stay
    unique, ids stay below [nextId], user rows stay valid and every user
    keeps an existing organization. *)
Theorem serve_keeps_store_ok (db : DB) (calls : list (Z * Call)) :
  store_ok db -> store_ok (serveAll cfg db calls).
Proof.
  revert db.
  induction calls as [|[now call] rest IH]; intros db Hok; cbn [serveAll];
    [exact Hok|].
  apply IH. now apply serve_store_ok.
Qed.

(** Whatever calls are served from the empty store, no two users ever
    share an email or an id, no two organizations a slug, and every user
    belongs to an organization of the store. *)
Theorem reachable_store_ok (calls : list (Z * Call)) :
  let db := serveAll cfg emptyDb calls in
  NoDup (map user_email (users db))
  /\ NoDup (map user_id (users db))
  /\ NoDup (map org_slug (organizations db))
  /\ (forall u, In u (users db) ->
                exists o, In o (organizations db)
                          /\ org_id o = user_organizationId u).
Proof.
  assert (H : forall db, store_ok db -> store_ok (serveAll cfg db calls)).
  { induction calls as [|[now call] rest IH]; intros db Hok; cbn [serveAll];
      [exact Hok|].
    apply IH. now apply serve_store_ok. }
  destruct (H emptyDb store_ok_empty) as (Hu & He & Hs & _ & _ & _ & Hm).
  cbv zeta. auto.
Qed.

End StoreInvariant.

(* ================================================================== *)
(** * Sessions: refresh, login, logout *)
(* ================================================================== *)

Section Sessions.

Variable cfg : Config.

Lemma Role_eqb_eq (a b : Role) : Role_eqb a b = true <-> a = b.
Proof. destruct a, b; simpl; split; congruence. Qed.

Lemma claims_eqb_eq (a b : option (Role * ObjectId)) :
  Jwt.claims_eqb a b = true <-> a = b.
Proof.
  destruct a as [[r1 o1]|], b as [[r2 o2]|]; simpl;
    try (split; congruence).
  rewrite andb_true_iff, Role_eqb_eq, Nat.eqb_eq. split.
  - intros [-> ->]. reflexivity.
  - intros [= -> ->]. auto.
Qed.

(** [Token_eqb] decides equality of tokens. *)
Lemma Token_eqb_eq (a b : Jwt.Token) : Jwt.Token_eqb a b = true <-> a = b.
Proof.
  destruct a as [k1 u1 c1 i1 e1|s1], b as [k2 u2 c2 i2 e2|s2]; simpl;
    try (split; congruence).
  - rewrite !andb_true_iff, String.eqb_eq, Nat.eqb_eq, claims_eqb_eq, !Z.eqb_eq.
    split.
    + intros [[[[-> ->] ->] ->] ->]. reflexivity.
    + intros [= -> -> -> -> ->]. auto.
  - rewrite String.eqb_eq. split; congruence.
Qed.

Lemma slot_differs_false (slot : option Jwt.Token) (t : Jwt.Token) :
  slot_differs slot t = false <-> slot = Some t.
Proof.
  unfold slot_differs. destruct slot as [s|]; [|split; discriminate].
  rewrite negb_false_iff, Token_eqb_eq. split; congruence.
Qed.

Lemma findById_users_map (db db' : DB) (g : User -> User) (id : ObjectId) :
  users db' = map g (users db) ->
  (forall x, user_id (g x) = user_id x) ->
  User_findById db' id = option_map g (User_findById db id).
Proof.
  intros Husers Hg. unfold User_findById. rewrite Husers.
  apply find_map_same. intros x. now rewrite Hg.
Qed.

(** Every answer of [refreshToken] is 200 or 401. *)
Lemma refreshToken_status (now : Z) (db : DB) (req : Request) :
  res_status (fst (refreshToken cfg now db req)) = 200%nat
  \/ res_status (fst (refreshToken cfg now db req)) = 401%nat.
Proof.
  unfold refreshToken.
  destruct (presented (cookie_refreshToken req)) as [token|]; [|now right].
  destruct (Jwt.verify now token (jwt_refreshSecret cfg)); try now right.
  destruct (User_findById db userId) as [user|]; [|now right].
  destruct (negb (user_isActive user)); [now right|].
  destruct (slot_differs _ token); [now right|now left].
Qed.

Lemma refresh_200_iff (now : Z) (db : DB) (req : Request) :
  res_status (fst (refreshToken cfg now db req)) = 200%nat
  <-> exists userId claims iat exp user,
        cookie_refreshToken req
        = Some (Jwt.Signed (jwt_refreshSecret cfg) userId claims iat exp)
        /\ now < exp
        /\ User_findById db userId = Some user
        /\ user_isActive user = true
        /\ user_refreshToken user
           = Some (Jwt.Signed (jwt_refreshSecret cfg) userId claims iat exp).
Proof.
  unfold refreshToken. split.
  - destruct (presented (cookie_refreshToken req)) as [token|] eqn:Ep;
      [|discriminate].
    apply presented_Some in Ep.
    destruct token as [key userId claims iat exp|text]; [|discriminate].
    unfold Jwt.verify.
    destruct (String.eqb key (jwt_refreshSecret cfg)) eqn:Ek; [|discriminate].
    apply String.eqb_eq in Ek. subst key. cbn [negb].
    destruct (exp <=? now) eqn:Ee; [discriminate|]. apply Z.leb_gt in Ee.
    destruct (User_findById db userId) as [user|] eqn:Eu; [|discriminate].
    destruct (user_isActive user) eqn:Ea; [|discriminate]. cbn [negb].
    destruct (slot_differs _ _) eqn:Es; [discriminate|].
    apply slot_differs_false in Es.
    intros _. exists userId, claims, iat, exp, user. auto.
  - intros (userId & claims & iat & exp & user & Hc & He & Hu & Ha & Hs).
    rewrite Hc. cbn [presented]. unfold Jwt.verify.
    rewrite String.eqb_refl. cbn [negb].
    apply Z.leb_gt in He. rewrite He, Hu, Ha. cbn [negb].
    apply slot_differs_false in Hs. now rewrite Hs.
Qed.

(** [refreshToken] answers 200 or 401, sets no cookie and writes nothing.
    It answers 200 exactly when the cookie holds a token signed with the
    refresh secret, not yet expired, whose user exists, is active, and has
    that very token in the stored slot. *)
Theorem refresh_succeeds_iff (now : Z) (db : DB) (req : Request) :
  snd (refreshToken cfg now db req) = db
  /\ res_cookie (fst (refreshToken cfg now db req)) = None
  /\ (res_status (fst (refreshToken cfg now db req)) = 200%nat
      \/ res_status (fst (refreshToken cfg now db req)) = 401%nat)
  /\ (res_status (fst (refreshToken cfg now db req)) = 200%nat
      <-> exists userId claims iat exp user,
            cookie_refreshToken req
            = Some (Jwt.Signed (jwt_refreshSecret cfg) userId claims iat exp)
            /\ now < exp
            /\ User_findById db userId = Some user
            /\ user_isActive user = true
            /\ user_refreshToken user
               = Some (Jwt.Signed (jwt_refreshSecret cfg) userId claims iat exp)).
Proof.
  split; [apply refreshToken_keeps_store|].
  split; [|split; [apply refreshToken_status|apply refresh_200_iff]].
  unfold refreshToken.
  destruct (presented (cookie_refreshToken req)) as [token|]; [|reflexivity].
  destruct (Jwt.verify now token (jwt_refreshSecret cfg)); try reflexivity.
  destruct (User_findById db userId) as [user|]; [|reflexivity].
  destruct (negb (user_isActive user)); [reflexivity|].
  now destruct (slot_differs _ token).
Qed.

(** After a logout, no refresh token of that user is accepted any more,
    at whatever time it is presented. *)
Theorem logout_revokes (now now' : Z) (db : DB) (req req' : Request) (user : User) :
  authenticate cfg now db req = inr user ->
  (forall t, cookie_refreshToken req' = Some t ->
             Jwt.verify now' t (jwt_refreshSecret cfg)
             = Jwt.Decoded (user_id user)) ->
  res_status (fst (POST_logout cfg now db req)) = 200%nat
  /\ res_status (fst (refreshToken cfg now'
                        (snd (POST_logout cfg now db req)) req')) = 401%nat.
Proof.
  intros Hauth Htok. unfold POST_logout. rewrite Hauth. cbn [logout fst snd].
  split; [reflexivity|].
  destruct (refreshToken_status now' (User_clearRefreshToken db (user_id user)) req')
    as [H200|H401]; [exfalso|exact H401].
  apply refresh_200_iff in H200
    as (userId & claims & iat & exp & u & Hc & He & Hu & Ha & Hs).
  specialize (Htok _ Hc). unfold Jwt.verify in Htok.
  rewrite String.eqb_refl in Htok. cbn [negb] in Htok.
  destruct (exp <=? now'); [discriminate|]. injection Htok as ->.
  rewrite (findById_users_map db _
             (fun u => if Nat.eqb (user_id u) (user_id user)
                       then with_refreshToken u None else u)) in Hu;
    [|reflexivity|intros x; destruct (Nat.eqb (user_id x) (user_id user)); reflexivity].
  destruct (User_findById db (user_id user)) as [v|] eqn:Ev; [|discriminate].
  apply findById_In in Ev as [_ Hid].
  cbn [option_map] in Hu. rewrite Hid, Nat.eqb_refl in Hu.
  injection Hu as <-. discriminate Hs.
Qed.

(** ** What a successful registration leaves *)

Lemma User_create_row (db db' : DB) (email password name : string)
    (organizationId : ObjectId) (role : Role) (u : User) :
  User_create db email password name organizationId role = Some (u, db') ->
  u = {| user_id := nextId db;
         user_email := cast_lower_trim email;
         user_password := password;
         user_name := JS.trim name;
         user_role := role;
         user_organizationId := organizationId;
         user_isActive := true;
         user_refreshToken := None |}
  /\ user_row_valid u = true
  /\ users db' = (users db ++ [u])%list.
Proof.
  unfold User_create. cbv zeta.
  destruct (email_matches (cast_lower_trim email)) eqn:Eem; [|discriminate].
  destruct (8 <=? String.length password)%nat; [|discriminate].
  destruct (length_between 2 50 (JS.trim name)) eqn:Enm; [|discriminate].
  destruct (existsb _ (users db)); [discriminate|].
  intros [= <- <-]. repeat split.
  unfold user_row_valid. cbn [user_email user_name]. now rewrite Eem, Enm.
Qed.

Lemma createUser_201_row (now : Z) (db db' : DB) (body : RegisterBody)
    (organizationId : ObjectId) (role : Role) (r : Response) :
  createUserAndRespond cfg now db body organizationId role = (r, db') ->
  res_status r = 201%nat ->
  exists u,
    u = {| user_id := nextId db;
           user_email := cast_lower_trim (reg_email body);
           user_password := reg_password body;
           user_name := JS.trim (reg_name body);
           user_role := role;
           user_organizationId := organizationId;
           user_isActive := true;
           user_refreshToken := None |}
    /\ user_row_valid u = true
    /\ res_cookie r = Some (generateRefreshToken cfg now u)
    /\ res_body r
       = JsonSession (with_refreshToken u (Some (generateRefreshToken cfg now u)))
                     (generateAccessToken cfg now u)
    /\ users db'
       = map (saved (user_id u) (generateRefreshToken cfg now u))
             (users db ++ [u])%list.
Proof.
  unfold createUserAndRespond.
  destruct (User_create db _ _ _ organizationId role) as [[user db1]|] eqn:E;
    [|intros [= <- <-]; discriminate].
  apply User_create_row in E as (Hu & Hv & Husers).
  intros [= <- <-] _. exists user. split; [exact Hu|]. split; [exact Hv|].
  split; [reflexivity|]. split; [reflexivity|].
  cbn [users User_saveRefreshToken with_refreshToken user_id].
  replace (users (if given (reg_organizationName body)
                  then Organization_setOwner db1 organizationId (user_id user)
                  else db1))
    with (users db ++ [user])%list
    by (destruct (given _); rewrite <- Husers; reflexivity).
  reflexivity.
Qed.

(** The row a successful registration creates, the tokens it returns, and
    the user rows it leaves. *)
Lemma register_201_row (now : Z) (db db' : DB) (body : RegisterBody) (r : Response) :
  register cfg now db body = Some (r, db') ->
  res_status r = 201%nat ->
  exists u,
    User_findOne_email db (reg_email body) = None
    /\ (nextId db <= user_id u)%nat
    /\ user_email u = cast_lower_trim (reg_email body)
    /\ user_password u = reg_password body
    /\ user_isActive u = true
    /\ user_row_valid u = true
    /\ res_cookie r = Some (generateRefreshToken cfg now u)
    /\ res_body r
       = JsonSession (with_refreshToken u (Some (generateRefreshToken cfg now u)))
                     (generateAccessToken cfg now u)
    /\ users db'
       = map (saved (user_id u) (generateRefreshToken cfg now u))
             (users db ++ [u])%list.
Proof.
  intros Hreg Hst. unfold register in Hreg.
  destruct (User_findOne_email db (reg_email body)) eqn:Ef;
    [injection Hreg as <- <-; discriminate|].
  assert (Hstep : forall dbm oid role,
             users dbm = users db -> (nextId db <= nextId dbm)%nat ->
             createUserAndRespond cfg now dbm body oid role = (r, db') ->
             exists u,
               None = @None User
               /\ (nextId db <= user_id u)%nat
               /\ user_email u = cast_lower_trim (reg_email body)
               /\ user_password u = reg_password body
               /\ user_isActive u = true
               /\ user_row_valid u = true
               /\ res_cookie r = Some (generateRefreshToken cfg now u)
               /\ res_body r
                  = JsonSession
                      (with_refreshToken u (Some (generateRefreshToken cfg now u)))
                      (generateAccessToken cfg now u)
               /\ users db'
                  = map (saved (user_id u) (generateRefreshToken cfg now u))
                        (users db ++ [u])%list).
  { intros dbm oid role Husers Hnext Hcu.
    destruct (createUser_201_row now dbm db' body oid role r Hcu Hst)
      as (u & Hu & Hv & Hc & Hb & Hus).
    exists u. rewrite Husers in Hus.
    repeat split; auto; rewrite Hu; cbn; auto. }
  destruct (truthyName (reg_organizationName body)) as [organizationName|].
  - destruct (freeSlug _ db _ _ 1) as [finalSlug|]; [|discriminate].
    destruct (Organization_create db organizationName finalSlug)
      as [[o db1]|] eqn:Ec; [|injection Hreg as <- <-; discriminate].
    apply Organization_create_Some in Ec as (_ & _ & Husers & Hnext & _).
    injection Hreg as Hreg.
    apply (Hstep db1 (org_id o) admin Husers); [lia|exact Hreg].
  - destruct (Organization_findOne_slug db "default") as [d|].
    + injection Hreg as Hreg.
      apply (Hstep db (org_id d) editor eq_refl); [lia|exact Hreg].
    + destruct (Organization_create db "Default Organization" "default")
        as [[o db1]|] eqn:Ec; [|injection Hreg as <- <-; discriminate].
      apply Organization_create_Some in Ec as (_ & _ & Husers & Hnext & _).
      injection Hreg as Hreg.
      apply (Hstep db1 (org_id o) editor Husers); [lia|exact Hreg].
Qed.

Lemma saved_same (id : ObjectId) (t : Jwt.Token) (u : User) :
  user_id (saved id t u) = user_id u
  /\ user_email (saved id t u) = user_email u
  /\ user_isActive (saved id t u) = user_isActive u
  /\ user_password (saved id t u) = user_password u
  /\ user_row_valid (saved id t u) = user_row_valid u.
Proof. unfold saved. destruct (Nat.eqb (user_id u) id); repeat split. Qed.

(** A user who has just registered can log in with the same email and
    password: the row stored under the registered email is the user of
    the registration's response, and the login answers 200 with the
    tokens of its own time for that row, which it stores the refresh
    token in. *)
Theorem register_then_login (now now' : Z) (db db' : DB) (body : RegisterBody)
    (r : Response) :
  register cfg now db body = Some (r, db') ->
  res_status r = 201%nat ->
  exists user,
    User_findOne_email db' (reg_email body) = Some user
    /\ In user (users db')
    /\ user_email user = cast_lower_trim (reg_email body)
    /\ res_body r = JsonSession user (generateAccessToken cfg now user)
    /\ login cfg now' db' (reg_email body) (reg_password body)
       = ({| res_status := 200;
             res_headers := [];
             res_cookie := Some (generateRefreshToken cfg now' user);
             res_body :=
               JsonSession
                 (with_refreshToken user
                    (Some (generateRefreshToken cfg now' user)))
                 (generateAccessToken cfg now' user) |},
          User_saveRefreshToken db' (user_id user)
            (generateRefreshToken cfg now' user)).
Proof.
  intros Hreg Hst.
  destruct (register_201_row now db db' body r Hreg Hst)
    as (u & Hnone & _ & Hem & Hpw & Hact & Hval & _ & Hbody & Husers).
  set (rt := generateRefreshToken cfg now u) in *.
  assert (Hfind : User_findOne_email db' (reg_email body)
                  = Some (saved (user_id u) rt u)).
  { unfold User_findOne_email in *. rewrite Husers, find_map_same.
    - rewrite find_app_last, Hnone, Hem, String.eqb_refl. reflexivity.
    - intros x. destruct (saved_same (user_id u) rt x) as (_ & -> & _).
      reflexivity. }
  exists (saved (user_id u) rt u).
  destruct (saved_same (user_id u) rt u) as (Hid & Hem' & Hact' & Hpw' & Hval').
  split; [exact Hfind|]. split.
  { unfold User_findOne_email in Hfind. now apply find_some in Hfind as [H _]. }
  split; [congruence|]. split.
  { rewrite Hbody. unfold saved. rewrite Nat.eqb_refl. reflexivity. }
  unfold login. rewrite Hfind, Hact', Hact. cbn [negb].
  unfold comparePassword. rewrite Hpw', Hpw, String.eqb_refl. cbn [negb].
  rewrite Hval', Hval. cbn [negb]. reflexivity.
Qed.

(** The tokens a registration returns work at once, in a store whose ids
    were issued before [nextId]: the access token authenticates the new
    user until it expires, and the refresh cookie refreshes until it
    expires. *)
Theorem register_tokens_work (now now' : Z) (db db' : DB) (body : RegisterBody)
    (r : Response) (user : User) (accessToken : Jwt.Token) (req req' : Request) :
  ids_fresh db ->
  register cfg now db body = Some (r, db') ->
  res_status r = 201%nat ->
  res_body r = JsonSession user accessToken ->
  header_authorization req = Some (Bearer accessToken) ->
  cookie_refreshToken req' = res_cookie r ->
  (now' < now + jwt_expire cfg -> authenticate cfg now' db' req = inr user)
  /\ (now' < now + jwt_refreshExpire cfg ->
      res_status (fst (refreshToken cfg now' db' req')) = 200%nat).
Proof.
  intros [Hfresh _] Hreg Hst Hbody Hreq Hreq'.
  destruct (register_201_row now db db' body r Hreg Hst)
    as (u & _ & Hnext & _ & _ & Hact & _ & Hc & Hb & Husers).
  rewrite Hb in Hbody. injection Hbody as <- <-.
  set (rt := generateRefreshToken cfg now u) in *.
  assert (Hfind : User_findById db' (user_id u)
                  = Some (with_refreshToken u (Some rt))).
  { rewrite (findById_users_map
               {| users := (users db ++ [u])%list; organizations := organizations db;
                  videos := videos db; files := files db; nextId := nextId db |}
               db' (saved (user_id u) rt) (user_id u) Husers);
      [|intros x; apply saved_same].
    unfold User_findById. cbn [users]. rewrite find_app_last.
    destruct (find _ (users db)) as [v|] eqn:Ev.
    - apply find_some in Ev as [Hin Heq]. apply Nat.eqb_eq in Heq.
      apply Hfresh in Hin. lia.
    - rewrite Nat.eqb_refl. cbn [option_map]. unfold saved.
      now rewrite Nat.eqb_refl. }
  split.
  - intros Hlive. unfold authenticate. rewrite Hreq.
    unfold generateAccessToken, Jwt.verify. rewrite String.eqb_refl. cbn [negb].
    apply Z.leb_gt in Hlive. rewrite Hlive.
    cbn [user_id with_refreshToken] in *. rewrite Hfind.
    cbn [user_isActive with_refreshToken]. now rewrite Hact.
  - intros Hlive. apply refresh_200_iff.
    exists (user_id u), None, now, (now + jwt_refreshExpire cfg),
      (with_refreshToken u (Some rt)).
    rewrite Hreq', Hc. repeat split; auto.
Qed.

(** ** Login *)

(** A successful login returns tokens that work at once, and makes its
    refresh token the only one accepted for that user: any other refresh
    token of the user, such as the one of an earlier login, is answered
    401. *)
Theorem login_session (now : Z) (db : DB) (email password : string) :
  users_unique db ->
  res_status (fst (login cfg now db email password)) = 200%nat ->
  exists user accessToken refreshToken_,
    res_body (fst (login cfg now db email password))
    = JsonSession user accessToken
    /\ res_cookie (fst (login cfg now db email password)) = Some refreshToken_
    /\ (forall req now',
          header_authorization req = Some (Bearer accessToken) ->
          now' < now + jwt_expire cfg ->
          authenticate cfg now' (snd (login cfg now db email password)) req
          = inr user)
    /\ (forall req now',
          cookie_refreshToken req = Some refreshToken_ ->
          now' < now + jwt_refreshExpire cfg ->
          res_status (fst (refreshToken cfg now'
                             (snd (login cfg now db email password)) req))
          = 200%nat)
    /\ (forall req now' t,
          cookie_refreshToken req = Some t ->
          t <> refreshToken_ ->
          Jwt.verify now' t (jwt_refreshSecret cfg) = Jwt.Decoded (user_id user) ->
          res_status (fst (refreshToken cfg now'
                             (snd (login cfg now db email password)) req))
          = 401%nat).
Proof.
  intros Huniq. unfold login.
  destruct (User_findOne_email db email) as [u|] eqn:Ef; [|discriminate].
  destruct (user_isActive u) eqn:Ea; [|discriminate]. cbn [negb].
  destruct (comparePassword u password); [|discriminate]. cbn [negb].
  destruct (user_row_valid u); [|discriminate]. cbn [negb fst snd].
  intros _.
  set (rt := generateRefreshToken cfg now u).
  set (db' := User_saveRefreshToken db (user_id u) rt).
  assert (Hin : In u (users db))
    by (unfold User_findOne_email in Ef; now apply find_some in Ef as [Hin _]).
  assert (Hfind : User_findById db' (user_id u)
                  = Some (with_refreshToken u (Some rt))).
  { unfold db'.
    rewrite (findById_users_map db _ (saved (user_id u) rt) (user_id u));
      [|reflexivity|intros x; apply saved_same].
    rewrite (findById_unique db u Huniq Hin). cbn [option_map]. unfold saved.
    now rewrite Nat.eqb_refl. }
  exists (with_refreshToken u (Some rt)), (generateAccessToken cfg now u), rt.
  split; [reflexivity|]. split; [reflexivity|]. split; [|split].
  - intros req now' Hreq Hlive. unfold authenticate. rewrite Hreq.
    unfold generateAccessToken, Jwt.verify. rewrite String.eqb_refl. cbn [negb].
    apply Z.leb_gt in Hlive. rewrite Hlive, Hfind.
    cbn [user_isActive with_refreshToken]. now rewrite Ea.
  - intros req now' Hreq Hlive. apply refresh_200_iff.
    exists (user_id u), None, now, (now + jwt_refreshExpire cfg),
      (with_refreshToken u (Some rt)).
    rewrite Hreq. repeat split; auto.
  - intros req now' t Hreq Hne Hver.
    destruct (refreshToken_status now' db' req) as [H200|H401];
      [exfalso|exact H401].
    apply refresh_200_iff in H200
      as (userId & claims & iat & exp & v & Hc & He & Hv & Hact & Hslot).
    rewrite Hreq in Hc. injection Hc as ->.
    unfold Jwt.verify in Hver. rewrite String.eqb_refl in Hver.
    cbn [negb] in Hver. destruct (exp <=? now'); [discriminate|].
    injection Hver as Hid. cbn [user_id with_refreshToken] in Hid. subst userId.
    rewrite Hfind in Hv. injection Hv as <-.
    cbn [user_refreshToken with_refreshToken] in Hslot. congruence.
Qed.

End Sessions.

(* ================================================================== *)
(** * Registration: conflicts and what a failure leaves behind *)
(* ================================================================== *)

Section RegistrationEdges.

Variable cfg : Config.

(** [register] always answers, with 201, 409 or 500; it answers 409
    exactly when the email, lower-cased and trimmed, is already registered,
    and then it leaves the store as it was. *)
Theorem register_conflict (now : Z) (db : DB) (body : RegisterBody) :
  exists r db',
    register cfg now db body = Some (r, db')
    /\ (res_status r = 201%nat \/ res_status r = 409%nat
        \/ res_status r = 500%nat)
    /\ (res_status r = 409%nat
        <-> exists u, In u (users db)
                      /\ user_email u = cast_lower_trim (reg_email body))
    /\ (res_status r = 409%nat -> db' = db).
Proof.
  destruct (register_returns cfg now db body) as (r & db' & Hreg).
  exists r, db'. split; [exact Hreg|]. unfold register in Hreg.
  destruct (User_findOne_email db (reg_email body)) as [u|] eqn:Ef.
  - injection Hreg as <- <-. split; [auto|]. split; [|auto].
    split; [intros _|reflexivity].
    unfold User_findOne_email in Ef. apply find_some in Ef as [Hin Heq].
    apply String.eqb_eq in Heq. eauto.
  - assert (Hno : ~ exists u, In u (users db)
                              /\ user_email u = cast_lower_trim (reg_email body)).
    { intros (u & Hin & Heq). unfold User_findOne_email in Ef.
      apply (find_none _ _ Ef) in Hin. apply String.eqb_neq in Hin. auto. }
    assert (Hcu : forall dbm oid role,
               createUserAndRespond cfg now dbm body oid role = (r, db') ->
               res_status r = 201%nat \/ res_status r = 500%nat).
    { intros dbm oid role H.
      destruct (createUser_status cfg now dbm body oid role) as [H1|[H1 _]];
        rewrite H in H1; auto. }
    assert (Hsplit : res_status r = 201%nat \/ res_status r = 500%nat ->
                     (res_status r = 201%nat \/ res_status r = 409%nat
                      \/ res_status r = 500%nat)
                     /\ (res_status r = 409%nat
                         <-> exists u, In u (users db)
                                       /\ user_email u
                                          = cast_lower_trim (reg_email body))
                     /\ (res_status r = 409%nat -> db' = db)).
    { intros [H|H]; rewrite H; (split; [auto|]);
        (split; [split; [discriminate|tauto]|discriminate]). }
    apply Hsplit.
    destruct (truthyName (reg_organizationName body)) as [organizationName|].
    + destruct (freeSlug _ db _ _ 1) as [finalSlug|]; [|discriminate].
      destruct (Organization_create db organizationName finalSlug)
        as [[o db1]|]; [|injection Hreg as <- <-; now right].
      injection Hreg as Hreg. eauto.
    + destruct (Organization_findOne_slug db "default") as [d|].
      * injection Hreg as Hreg. eauto.
      * destruct (Organization_create db "Default Organization" "default")
          as [[o db1]|]; [|injection Hreg as <- <-; now right].
        injection Hreg as Hreg. eauto.
Qed.

(** When the organization row is accepted but the user row is not (here:
    a name shorter than two characters once trimmed), the answer is 500
    and the new organization stays in the store, without owner and without
    any user. *)
Theorem failed_registration_leaves_organization (now : Z) (db : DB)
    (body : RegisterBody) (name : string) :
  User_findOne_email db (reg_email body) = None ->
  truthyName (reg_organizationName body) = Some name ->
  length_between 2 100 (JS.trim name) = true ->
  JS.truthy (slugify name) = true ->
  length_between 2 50 (JS.trim (reg_name body)) = false ->
  exists r db' o,
    register cfg now db body = Some (r, db')
    /\ res_status r = 500%nat
    /\ users db' = users db
    /\ organizations db' = (organizations db ++ [o])%list
    /\ org_name o = JS.trim name
    /\ org_ownerId o = None.
Proof.
  intros Hemail Hname Hlen Htruthy Hshort.
  set (slug := slugify name) in *.
  assert (Hslug : JS.forall_chars is_slug_char slug = true)
    by apply slugify_chars.
  destruct (freeSlug_total db slug Hslug) as [s Efree].
  destruct (freeSlug_Some db slug _ _ _ _ Efree) as [Hfree Hcand].
  assert (Hchars : JS.forall_chars is_slug_char s = true)
    by (eapply candidates_chars; eauto; lia).
  assert (Hs : JS.truthy s = true).
  { apply candidates_shape in Hcand as [->|(k & _ & ->)];
      [exact Htruthy|apply suffixed_truthy]. }
  destruct (Organization_create_accepts db name s Hlen Hs Hchars Hfree)
    as (o & db1 & Ec).
  pose proof Ec as Ec'.
  apply Organization_create_Some in Ec' as (Ho & Horgs & Husers & _ & _).
  assert (Hfail : User_create db1 (reg_email body) (reg_password body)
                    (reg_name body) (org_id o) admin = None).
  { unfold User_create. cbv zeta. rewrite Hshort.
    now rewrite andb_false_r. }
  exists registrationFailed, db1, o.
  split.
  { unfold register. rewrite Hemail, Hname. fold slug. rewrite Efree, Ec.
    unfold createUserAndRespond. now rewrite Hfail. }
  repeat split; auto; rewrite Ho; reflexivity.
Qed.

(** A successful registration with an organization name, in a store whose
    ids were issued before [nextId]: the new organization is owned by the
    new user, the new user belongs to it, and every organization that was
    there is left as it was. *)
Theorem named_registration_owner (now : Z) (db db' : DB) (body : RegisterBody)
    (r : Response) (name : string) :
  ids_fresh db ->
  register cfg now db body = Some (r, db') ->
  res_status r = 201%nat ->
  truthyName (reg_organizationName body) = Some name ->
  exists user accessToken o,
    res_body r = JsonSession user accessToken
    /\ In o (organizations db')
    /\ org_id o = user_organizationId user
    /\ org_ownerId o = Some (user_id user)
    /\ org_name o = JS.trim name
    /\ (forall x, In x (organizations db) -> In x (organizations db')).
Proof.
  intros [_ Hfresh] Hreg Hst Hname. unfold register in Hreg.
  rewrite Hname in Hreg.
  destruct (User_findOne_email db (reg_email body));
    [injection Hreg as <- <-; discriminate|].
  destruct (freeSlug _ db _ _ 1) as [finalSlug|]; [|discriminate].
  destruct (Organization_create db name finalSlug) as [[o db1]|] eqn:Ec;
    [|injection Hreg as <- <-; discriminate].
  injection Hreg as Hreg.
  apply Organization_create_Some in Ec as (Ho & Horgs1 & _ & _ & _).
  destruct (createUser_201 cfg now db1 db' body (org_id o) admin r Hreg Hst)
    as (user & tok & Hbody & _ & Hid & _ & Horg & Horgs).
  assert (Hgiven : given (reg_organizationName body) = true)
    by (unfold given; now rewrite Hname).
  rewrite Hgiven, setOwner_rows, Horgs1 in Horgs.
  exists user, tok, (setOwner_row (org_id o) (nextId db1) o).
  split; [exact Hbody|]. rewrite Horgs. split; [|split; [|split; [|split]]].
  - apply in_map, in_or_app. right. now left.
  - destruct (setOwner_row_same (org_id o) (nextId db1) o) as (-> & _). auto.
  - unfold setOwner_row. rewrite Nat.eqb_refl. cbn. now rewrite Hid.
  - destruct (setOwner_row_same (org_id o) (nextId db1) o) as (_ & -> & _).
    now rewrite Ho.
  - intros x Hx.
    rewrite <- (setOwner_row_other (org_id o) (nextId db1) x).
    + apply in_map, in_or_app. now left.
    + apply Hfresh in Hx. rewrite Ho. cbn. lia.
Qed.

End RegistrationEdges.

(* ================================================================== *)
(** * User management: what the next request of the user meets *)
(* ================================================================== *)

Section Administration.

Variable cfg : Config.

Lemma replace_same_id (u x : User) :
  user_id (if Nat.eqb (user_id x) (user_id u) then u else x) = user_id x.
Proof.
  destruct (Nat.eqb_spec (user_id x) (user_id u)) as [Heq|]; congruence.
Qed.

(** After [User_replace db u'], the row read under the id of [u'] is [u']
    when a row of that id was there. *)
Lemma findById_replace (db : DB) (u u' : User) :
  User_findById db (user_id u') = Some u ->
  User_findById (User_replace db u') (user_id u') = Some u'.
Proof.
  intros Hfind.
  rewrite (findById_users_map db (User_replace db u')
             (fun x => if Nat.eqb (user_id x) (user_id u') then u' else x)
             (user_id u'));
    [|reflexivity|intros x; apply replace_same_id].
  rewrite Hfind. cbn [option_map].
  apply findById_In in Hfind as [_ ->]. now rewrite Nat.eqb_refl.
Qed.

Lemma find_filter_none {A : Type} (p q : A -> bool) (l : list A) :
  (forall x, In x l -> p x = true -> q x = false) ->
  find p (filter q l) = None.
Proof.
  intros H. destruct (find p (filter q l)) as [x|] eqn:E; [|reflexivity].
  apply find_some in E as [Hin Hp]. apply filter_In in Hin as [Hin Hq].
  rewrite (H x Hin Hp) in Hq. discriminate.
Qed.

(** A role change is read by the very next request: the access token the
    user already holds, whatever role it was issued for, now attaches the
    user with the new role; when that role is not admin, the admin routes
    answer 403 to it. *)
Theorem role_change_immediate (now : Z) (db : DB) (req : Request) (u : User)
    (role : string) (r : Role) :
  authenticate cfg now db req = inr u ->
  role_of_text role = Some r ->
  fst (updateUserRole db (user_id u) role)
  = success "User role updated successfully" (with_role u r)
  /\ authenticate cfg now (snd (updateUserRole db (user_id u) role)) req
     = inr (with_role u r)
  /\ (r <> admin ->
      adminGuard cfg now (snd (updateUserRole db (user_id u) role)) req
      = inl (json 403
               [("error", "Forbidden");
                ("message",
                 "This action requires one of the following roles: admin")])).
Proof.
  intros Hauth Hrole.
  destruct (authenticate_inr cfg now db req u Hauth)
    as (userId & claims & iat & exp & Hreq & Hlive & Hfind & Hact).
  pose proof (findById_In db userId u Hfind) as [_ Hid]. subst userId.
  unfold updateUserRole. rewrite Hrole, Hfind. cbn [fst snd].
  assert (Hafter : authenticate cfg now (User_replace db (with_role u r)) req
                   = inr (with_role u r)).
  { unfold authenticate. rewrite Hreq. unfold Jwt.verify.
    rewrite String.eqb_refl. cbn [negb].
    apply Z.leb_gt in Hlive. rewrite Hlive.
    change (user_id u) with (user_id (with_role u r)).
    rewrite (findById_replace db u (with_role u r) Hfind).
    cbn [user_isActive with_role]. now rewrite Hact. }
  split; [reflexivity|]. split; [exact Hafter|].
  intros Hr. unfold adminGuard. rewrite Hafter. unfold authorize.
  cbn [existsb user_role with_role]. destruct r; cbn; congruence.
Qed.

(** Deactivating a user locks them out at once: the access token they hold
    is answered 401 from then on, and so is every refresh token issued to
    them. *)
Theorem deactivation_locks_out (now : Z) (db : DB) (req : Request)
    (target admin_ : User) :
  authenticate cfg now db req = inr target ->
  user_id target <> user_id admin_ ->
  user_row_valid target = true ->
  reply_status (fst (toggleUserStatus db admin_ (user_id target))) = 200%nat
  /\ (forall now',
        exists denied,
          authenticate cfg now'
            (snd (toggleUserStatus db admin_ (user_id target))) req = inl denied
          /\ res_status denied = 401%nat)
  /\ (forall now' req' t,
        cookie_refreshToken req' = Some t ->
        Jwt.verify now' t (jwt_refreshSecret cfg)
        = Jwt.Decoded (user_id target) ->
        res_status (fst (refreshToken cfg now'
                           (snd (toggleUserStatus db admin_ (user_id target)))
                           req'))
        = 401%nat).
Proof.
  intros Hauth Hother Hvalid.
  destruct (authenticate_inr cfg now db req target Hauth)
    as (userId & claims & iat & exp & Hreq & Hlive & Hfind & Hact).
  pose proof (findById_In db userId target Hfind) as [_ Hid]. subst userId.
  unfold toggleUserStatus. rewrite Hfind.
  apply Nat.eqb_neq in Hother. rewrite Hother, Hvalid, Hact. cbn [negb fst snd].
  set (off := with_isActive target false).
  assert (Hoff : User_findById (User_replace db off) (user_id target) = Some off)
    by exact (findById_replace db target off Hfind).
  split; [reflexivity|]. split.
  - intros now'.
    destruct (authenticate cfg now' (User_replace db off) req)
      as [denied|user] eqn:E.
    + exists denied. split; [reflexivity|].
      now apply authenticate_inl with cfg now' (User_replace db off) req.
    + exfalso.
      destruct (authenticate_inr cfg now' _ req user E)
        as (userId & claims' & iat' & exp' & Hreq' & _ & Hfind' & Hact').
      rewrite Hreq in Hreq'. injection Hreq' as <- _ _ _.
      rewrite Hoff in Hfind'. injection Hfind' as <-. discriminate.
  - intros now' req' t Hcookie Hver. unfold refreshToken.
    unfold Jwt.verify in Hver.
    destruct t as [key userId claims' iat' exp'|text]; [|discriminate].
    rewrite Hcookie. unfold presented. cbn [JS.truthy] in *.
    unfold Jwt.verify.
    destruct (negb (String.eqb key (jwt_refreshSecret cfg))); [discriminate|].
    destruct (exp' <=? now'); [discriminate|].
    injection Hver as ->. now rewrite Hoff.
Qed.


(** A deleted user is gone for every later request: their access tokens
    are answered 401, and, with unique emails, a login under their email
    is answered 401 as for an unknown email, so that the email is free for
    a new registration. *)
Theorem deleted_user_locked_out (db : DB) (admin_ u : User) (id : ObjectId)
    (canonical deleteVideos : bool) :
  emails_unique db ->
  User_findById db id = Some u ->
  id <> user_id admin_ ->
  reply_status (fst (deleteUser db admin_ id canonical deleteVideos)) = 200%nat
  /\ (forall now req claims iat exp,
        header_authorization req
        = Some (Bearer (Jwt.Signed (jwt_secret cfg) id claims iat exp)) ->
        exists denied,
          authenticate cfg now (snd (deleteUser db admin_ id canonical deleteVideos)) req
          = inl denied
          /\ res_status denied = 401%nat)
  /\ (forall now email password,
        cast_lower_trim email = user_email u ->
        User_findOne_email (snd (deleteUser db admin_ id canonical deleteVideos)) email
        = None
        /\ login cfg now (snd (deleteUser db admin_ id canonical deleteVideos))
             email password
           = (json 401 [("error", "Invalid email or password")],
              snd (deleteUser db admin_ id canonical deleteVideos))).
Proof.
  intros Huniq Hfind Hother.
  pose proof (findById_In db id u Hfind) as [Hin Hid].
  unfold deleteUser. apply Nat.eqb_neq in Hother.
  rewrite Hother, andb_false_r, Hfind.
  cbn [fst snd].
  set (db' := {| users := filter _ (users db); organizations := _;
                 videos := _; files := _; nextId := _ |}).
  assert (Hgone : User_findById db' id = None).
  { unfold User_findById, db'. cbn [users]. apply find_filter_none.
    intros x _ Hx. apply Nat.eqb_eq in Hx. rewrite Hx, Hid.
    now rewrite Nat.eqb_refl. }
  assert (Hemail : forall email, cast_lower_trim email = user_email u ->
                                 User_findOne_email db' email = None).
  { intros email Hcast. unfold User_findOne_email, db'. cbn [users].
    apply find_filter_none. intros x Hx Heq. apply String.eqb_eq in Heq.
    rewrite Hcast in Heq.
    rewrite (NoDup_map_same user_email (users db) x u Huniq Hx Hin Heq).
    now rewrite Nat.eqb_refl. }
  split; [reflexivity|]. split.
  - intros now req claims iat exp Hreq.
    destruct (authenticate cfg now db' req) as [denied|user] eqn:E.
    + exists denied. split; [reflexivity|].
      now apply authenticate_inl with cfg now db' req.
    + exfalso.
      destruct (authenticate_inr cfg now db' req user E)
        as (userId & claims' & iat' & exp' & Hreq' & _ & Hfind' & _).
      rewrite Hreq in Hreq'. injection Hreq' as <- _ _ _. congruence.
  - intros now email password Hcast. split; [now apply Hemail|].
    unfold login. now rewrite (Hemail email Hcast).
Qed.

(** Deleting a user while keeping their videos leaves their private
    videos unreadable: GET /api/videos/:id answers 500 to every member of
    the organization, admins included. *)
Theorem deleted_uploader_private_video (now : Z) (db : DB) (admin_ caller : User)
    (id : ObjectId) (canonical : bool) (req : Request) (v : Video) :
  reply_status (fst (deleteUser db admin_ id canonical false)) = 200%nat ->
  Video_findById db (params_id req) = Some v ->
  video_visibility v = vis_private ->
  video_uploadedBy v = id ->
  authenticate cfg now (snd (deleteUser db admin_ id canonical false)) req = inr caller ->
  video_organizationId v = user_organizationId caller ->
  GET_video cfg now (snd (deleteUser db admin_ id canonical false)) req
  = json 500 [("error", "Failed to fetch video")].
Proof.
  unfold deleteUser.
  destruct (canonical && Nat.eqb id (user_id admin_)); [discriminate|].
  destruct (User_findById db id) as [u|] eqn:Hfind; [|discriminate].
  cbn [fst snd]. intros _ Hvideo Hvis Hby Hauth Horg.
  pose proof (findById_In db id u Hfind) as [_ Hid].
  unfold GET_video. rewrite Hauth. unfold getVideo.
  unfold Video_findById in *. cbn [videos]. rewrite Hvideo, Horg.
  rewrite Nat.eqb_refl, Hvis. cbn [negb is_private].
  unfold User_findById. cbn [users]. rewrite find_filter_none; [reflexivity|].
  intros x _ Hx. apply Nat.eqb_eq in Hx. rewrite Hx, Hby, Hid.
  now rewrite Nat.eqb_refl.
Qed.

(** [updateProfile] compares the email as typed with the stored,
    lower-cased one: sending one's own email in another case, or with
    spaces around it, is answered 409 "Email already in use". *)
Theorem own_email_recased_is_conflict (db : DB) (attached user : User)
    (name : option string) (e : string) :
  User_findById db (user_id attached) = Some user ->
  e <> user_email user ->
  cast_lower_trim e = user_email user ->
  JS.truthy e = true ->
  updateProfile db attached name (Some e)
  = (failure 409 "Email already in use", db).
Proof.
  intros Hfind Hne Hcast Htruthy. unfold updateProfile. rewrite Hfind.
  unfold truthyName. rewrite Htruthy.
  apply String.eqb_neq in Hne. rewrite Hne. cbn [negb].
  destruct (User_findOne_email db e) as [x|] eqn:Ef; [reflexivity|].
  exfalso. apply findById_In in Hfind as [Hin _].
  unfold User_findOne_email in Ef. apply (find_none _ _ Ef) in Hin.
  rewrite Hcast, String.eqb_refl in Hin. discriminate.
Qed.

End Administration.

(* ================================================================== *)
(** * Streaming: what a request changes, and open-ended ranges *)
(* ================================================================== *)

Section StreamingEffects.

(** What [streamVideo] answers and what it writes: a 200 or a 206 counts
    one view and changes nothing else; a 400, 403, 404 or 500 leaves the
    store as it was; there is no other status. *)
Theorem streamVideo_effect (db : DB) (req : Request) (attached : option User) :
  ((res_status (fst (streamVideo db req attached)) = 200%nat
    \/ res_status (fst (streamVideo db req attached)) = 206%nat)
   /\ snd (streamVideo db req attached) = incViewCount db (params_id req))
  \/ (In (res_status (fst (streamVideo db req attached)))
         [400; 403; 404; 500]%nat
      /\ snd (streamVideo db req attached) = db).
Proof.
  unfold streamVideo.
  destruct (Video_findById db (params_id req)) as [video|];
    [|right; split; [simpl; tauto|reflexivity]].
  destruct (match attached with Some _ => _ | None => _ end);
    [right; split; [simpl; tauto|reflexivity]|].
  destruct (negb _); [right; split; [simpl; tauto|reflexivity]|].
  destruct (file_at db _) as [content|];
    [|right; split; [simpl; tauto|reflexivity]].
  destruct (header_range req) as [range|]; [|left; split; [now left|reflexivity]].
  destruct (JS.truthy range); [|left; split; [now left|reflexivity]].
  destruct (range_bounds range _) as [start end_].
  destruct (createReadStream content start end_);
    [left; split; [now right|reflexivity]
    |right; split; [simpl; tauto|reflexivity]].
Qed.

Lemma find_map_other {A : Type} (p : A -> bool) (f : A -> A) (l : list A) :
  (forall x, p (f x) = p x) ->
  (forall x, p x = true -> f x = x) ->
  find p (map f l) = find p l.
Proof.
  intros Hp Hf. rewrite find_map_same by exact Hp.
  destruct (find p l) as [x|] eqn:E; [|reflexivity].
  apply find_some in E as [_ Hx]. cbn. now rewrite Hf.
Qed.

(** A served stream (200 or 206) is of a completed video, and adds one to
    the view count of that video: the other fields of the video, and every
    other video, read as before. *)
Theorem served_stream_counts_view (db : DB) (req : Request)
    (attached : option User) :
  res_status (fst (streamVideo db req attached)) = 200%nat
  \/ res_status (fst (streamVideo db req attached)) = 206%nat ->
  exists v v',
    Video_findById db (params_id req) = Some v
    /\ video_status v = completed
    /\ Video_findById (snd (streamVideo db req attached)) (params_id req)
       = Some v'
    /\ video_viewCount v' = video_viewCount v + 1
    /\ video_status v' = completed
    /\ video_visibility v' = video_visibility v
    /\ video_storageKey v' = video_storageKey v
    /\ (forall id, id <> params_id req ->
                   Video_findById (snd (streamVideo db req attached)) id
                   = Video_findById db id).
Proof.
  intros Hst.
  assert (Hv : exists v, Video_findById db (params_id req) = Some v
                         /\ video_status v = completed
                         /\ snd (streamVideo db req attached)
                            = incViewCount db (params_id req)).
  { unfold streamVideo in *.
    destruct (Video_findById db (params_id req)) as [video|];
      [|destruct Hst; discriminate].
    destruct (match attached with Some _ => _ | None => _ end);
      [destruct Hst; discriminate|].
    destruct (video_status video) eqn:Est; try (destruct Hst; discriminate).
    cbn [negb VideoStatus_eqb] in *. exists video.
    split; [reflexivity|]. split; [exact Est|].
    destruct (file_at db _) as [content|]; [|destruct Hst; discriminate].
    destruct (header_range req) as [range|]; [|reflexivity].
    destruct (JS.truthy range); [|reflexivity].
    destruct (range_bounds range _) as [start end_].
    destruct (createReadStream content start end_);
      [reflexivity|destruct Hst; discriminate]. }
  destruct Hv as (v & Hfind & Hcompleted & ->).
  set (bump := fun x : Video =>
                 if Nat.eqb (video_id x) (params_id req)
                 then {| video_id := video_id x;
                         video_title := video_title x;
                         video_fileSize := video_fileSize x;
                         video_format := video_format x;
                         video_storageKey := video_storageKey x;
                         video_organizationId := video_organizationId x;
                         video_uploadedBy := video_uploadedBy x;
                         video_visibility := video_visibility x;
                         video_allowedUsers := video_allowedUsers x;
                         video_status := video_status x;
                         video_viewCount := video_viewCount x + 1 |}
                 else x).
  assert (Hid : forall x, video_id (bump x) = video_id x)
    by (intros x; unfold bump; now destruct (Nat.eqb (video_id x) (params_id req))).
  exists v, (bump v).
  assert (Hv : video_id v = params_id req).
  { unfold Video_findById in Hfind. apply find_some in Hfind as [_ H].
    now apply Nat.eqb_eq. }
  split; [exact Hfind|]. split; [exact Hcompleted|]. split.
  { unfold Video_findById, incViewCount. cbn [videos]. fold bump.
    rewrite find_map_same by (intros x; now rewrite Hid).
    unfold Video_findById in Hfind. now rewrite Hfind. }
  unfold bump at 1 2 3 4. rewrite Hv, Nat.eqb_refl. cbn.
  repeat split; auto.
  intros id Hne. unfold Video_findById, incViewCount. cbn [videos]. fold bump.
  apply find_map_other; [intros x; now rewrite Hid|].
  intros x Hx. apply Nat.eqb_eq in Hx. unfold bump.
  destruct (Nat.eqb_spec (video_id x) (params_id req)); [congruence|reflexivity].
Qed.

(** The bounds read from [bytes=start-]: [start] and the last byte. *)
Lemma range_bounds_open (start videoSize : Z) :
  0 <= start ->
  range_bounds (open_range_header start) videoSize
  = (JS.Int start, JS.Int (videoSize - 1)).
Proof.
  intros Hs. unfold range_bounds, open_range_header.
  change (JS.remove_first "bytes=" ("bytes=" ++ JS.show_Z start ++ "-"))
    with (JS.show_Z start ++ String "-" "").
  rewrite split_at_sep
    by (eapply forall_chars_impl; [apply digit_not_hyphen|now apply show_Z_digits]).
  cbn [JS.split nth nth_error JS.truthy]. now rewrite parseInt_show_Z.
Qed.

(** An open-ended range [bytes=start-] on a video that passes the guards:
    when [start] is inside the file, the answer is a 206 from [start] to
    the last byte; when [start] is at or past the end, [createReadStream]
    throws and the answer is 500, with no view counted. *)
Theorem open_ended_range (db : DB) (req : Request) (attached : option User)
    (video : Video) (content : list Byte.byte) (start : Z) :
  Video_findById db (params_id req) = Some video ->
  (forall user, attached = Some user ->
                video_organizationId video = user_organizationId user) ->
  video_status video = completed ->
  file_at db (video_storageKey video) = Some content ->
  header_range req = Some (open_range_header start) ->
  0 <= start ->
  video_fileSize video <= MAX_SAFE_INTEGER ->
  (start < video_fileSize video ->
   res_status (fst (streamVideo db req attached)) = 206%nat
   /\ header "Content-Range" (fst (streamVideo db req attached))
      = Some ("bytes " ++ JS.show_Z start ++ "-"
                ++ JS.show_Z (video_fileSize video - 1)
                ++ "/" ++ JS.show_Z (video_fileSize video))
   /\ header "Content-Length" (fst (streamVideo db req attached))
      = Some (JS.show_Z (video_fileSize video - start))
   /\ streamed (fst (streamVideo db req attached))
      = slice content start (video_fileSize video - 1))
  /\ (video_fileSize video <= start ->
      streamVideo db req attached
      = (json 500 [("error", "Streaming failed")], db)).
Proof.
  intros Hfind Horg Hst Hfile Hrange Hs Hmax.
  assert (Hguard : match attached with
                   | Some user =>
                       negb (Nat.eqb (video_organizationId video)
                                     (user_organizationId user))
                   | None => false
                   end = false).
  { destruct attached as [user|]; [|reflexivity].
    rewrite (Horg user eq_refl). now rewrite Nat.eqb_refl. }
  unfold streamVideo. rewrite Hfind, Hguard, Hst, Hfile, Hrange.
  assert (Ht : JS.truthy (open_range_header start) = true) by reflexivity.
  rewrite Ht. cbn [negb VideoStatus_eqb].
  rewrite range_bounds_open by exact Hs.
  unfold createReadStream. split.
  - intros Hin.
    replace ((0 <=? start) && (start <=? MAX_SAFE_INTEGER)
             && (0 <=? video_fileSize video - 1)
             && (video_fileSize video - 1 <=? MAX_SAFE_INTEGER)
             && (start <=? video_fileSize video - 1))
      with true by (symmetry; rewrite !andb_true_iff, !Z.leb_le; lia).
    cbn [fst res_status]. split; [reflexivity|].
    unfold header, streamed. cbn [res_headers res_body find fst snd String.eqb].
    cbn. split; [reflexivity|]. split; [|reflexivity].
    do 2 f_equal. lia.
  - intros Hout.
    replace (start <=? video_fileSize video - 1) with false
      by (symmetry; apply Z.leb_gt; lia).
    now rewrite andb_false_r.
Qed.

End StreamingEffects.

(* ================================================================== *)
(** * The analyser: bounds, forced verdicts and the report *)
(* ================================================================== *)

Module SensitivityBounds.

Import Sensitivity SensitivityReport.
Local Open Scope Q_scope.



(** One statement [if (c) { issues.push(i); score += w }]. *)
Lemma statement_issues (c : bool) (f : Findings) (i : string) (w : Q)
    (x : string) :
  In x (issues (if c then push f i w else f))
  <-> In x (issues f) \/ (c = true /\ x = i).
Proof.
  destruct c; unfold push, issues; cbn [fst].
  - rewrite in_app_iff. simpl. intuition.
  - intuition discriminate.
Qed.


Lemma weight_nonneg (c : bool) (w : Q) : 0 <= w -> 0 <= (if c then w else 0).
Proof. destruct c; lra. Qed.

Lemma weight_le (c : bool) (w : Q) : 0 <= w -> (if c then w else 0) <= w.
Proof. destruct c; lra. Qed.







Lemma analyze_total (m : Metadata) (message : string) (v : VideoFacts)
    (frames : option (list Z)) :
  analyze (Some m) message v frames = conclude (analysisTotal m v frames).
Proof. reflexivity. Qed.


Lemma accumulate_issues (t r : Findings) :
  issues (accumulate t r) = (issues t ++ issues r)%list.
Proof. reflexivity. Qed.





Lemma conclude_adds (t : Findings) (x : string) :
  In x (result_categories (conclude t)) ->
  In x (issues t) \/ x = "manual_review_recommended".
Proof.
  unfold conclude.
  destruct (Qltb 0.7 _); [now left|].
  destruct (Qltb 0.4 _); [|now left].
  cbn. intros H. apply in_app_or in H as [H|[H|[]]]; auto.
Qed.

Lemma total_issues (m : Metadata) (v : VideoFacts) (frames : option (list Z))
    (x : string) :
  In x (issues (analysisTotal m v frames))
  <-> In x (issues (checkVideoIntegrity m v))
      \/ In x (issues (analyzeVideoCharacteristics m))
      \/ In x (issues (analyzeAudioCharacteristics m))
      \/ In x (issues (analyzeFileConsistency m v))
      \/ (exists sizes, frames = Some sizes /\ In x (issues (analyzeFrames sizes))).
Proof.
  unfold analysisTotal. cbv zeta.
  assert (H0 : In x (issues (match issues (checkVideoIntegrity m v) with
                             | [] => no_findings
                             | _ :: _ => accumulate no_findings
                                           (checkVideoIntegrity m v)
                             end))
               <-> In x (issues (checkVideoIntegrity m v))).
  { destruct (issues (checkVideoIntegrity m v)) eqn:E; [cbn; tauto|].
    rewrite accumulate_issues, E. cbn. tauto. }
  destruct frames as [sizes|]; rewrite !accumulate_issues, !in_app_iff, H0.
  - split; [intros [[[[H|H]|H]|H]|H]; eauto 10|].
    intros [H|[H|[H|[H|(s & [= <-] & H)]]]]; auto.
  - split; [intros [[[H|H]|H]|H]; auto|].
    intros [H|[H|[H|[H|(s & [=] & _)]]]]; auto.
Qed.



(** Every category of a result whose probe succeeded is one of the issue
    names the rule functions push. *)
Lemma analyze_categories (m : Metadata) (message : string) (v : VideoFacts)
    (frames : option (list Z)) (x : string) :
  In x (result_categories (analyze (Some m) message v frames)) ->
  In x analysisIssues.
Proof.
  rewrite analyze_total. intros H.
  apply conclude_adds in H as [H| ->]; [|unfold analysisIssues; simpl; tauto].
  apply total_issues in H as [H|[H|[H|[H|(s & _ & H)]]]].
  - unfold checkVideoIntegrity in H. cbv zeta in H.
    rewrite !statement_issues in H. unfold analysisIssues. simpl.
    cbn in H. intuition (subst; auto 30).
  - unfold analyzeVideoCharacteristics, otherRules, durationRule in H.
    cbv zeta in H. rewrite !statement_issues in H.
    unfold analysisIssues. simpl.
    destruct (gt (duration m) duration_suspicious);
      [|destruct (gt (duration m) duration_veryLong)];
      cbn in H; intuition (subst; auto 30).
  - unfold analyzeAudioCharacteristics in H. cbv zeta in H.
    rewrite statement_issues in H. unfold analysisIssues. simpl.
    destruct (_ || _); [destruct (gt _ _)|];
      cbn in H; intuition (subst; auto 30).
  - unfold analyzeFileConsistency in H. cbv zeta in H.
    rewrite !statement_issues in H. unfold analysisIssues. simpl.
    cbn in H. intuition (subst; auto 30).
  - unfold analyzeFrames in H. unfold analysisIssues. simpl.
    destruct (Qltb _ _); cbn in H; intuition (subst; auto 30).
Qed.

(** In the report of an analysis whose probe succeeded no issue has
    severity medium: the names [getIssueSeverity] rates medium are keys of
    the weight table, not issue names.  An issue is rated high exactly
    when it is [no_video_stream] or [many_black_frames]. *)
Theorem report_never_medium (m : Metadata) (message : string) (v : VideoFacts)
    (frames : option (list Z)) (cat : string) (severity : Level) :
  In (cat, severity) (reportIssues (analyze (Some m) message v frames)) ->
  severity <> medium
  /\ (severity = high <-> cat = "no_video_stream" \/ cat = "many_black_frames").
Proof.
  unfold reportIssues. intros H. apply in_map_iff in H as (x & [= <- <-] & Hx).
  apply analyze_categories in Hx. unfold analysisIssues in Hx. simpl in Hx.
  repeat (destruct Hx as [<-|Hx];
          [split; [discriminate|split; [try discriminate; auto|
                                        intros [H|H]; try discriminate H; reflexivity]]|]).
  contradiction.
Qed.

(** Two of the five recommendations are never given for an analysis whose
    probe succeeded: the one on bitrate and the one on resolution are
    looked up under [low_bitrate] and [unusual_resolution], which no rule
    pushes. *)
Theorem recommendations_never_given (m : Metadata) (message : string)
    (v : VideoFacts) (frames : option (list Z)) :
  let recommendations :=
    generateRecommendations
      (result_categories (analyze (Some m) message v frames)) in
  ~ In "Consider increasing video bitrate for better quality." recommendations
  /\ ~ In "Use standard video resolutions (720p, 1080p, 4K)." recommendations
  /\ recommendations <> [].
Proof.
  cbv zeta.
  set (categories := result_categories (analyze (Some m) message v frames)).
  assert (Hno : forall name, ~ In name analysisIssues ->
                             includes categories name = false).
  { intros name Hname. unfold includes.
    destruct (existsb (String.eqb name) categories) eqn:E; [|reflexivity].
    exfalso. apply existsb_exists in E as (x & Hx & Heq).
    apply String.eqb_eq in Heq. subst x.
    apply Hname. now apply analyze_categories in Hx. }
  assert (Hnot : forall name, existsb (String.eqb name) analysisIssues = false ->
                              ~ In name analysisIssues).
  { intros name E Hin.
    assert (existsb (String.eqb name) analysisIssues = true)
      by (apply existsb_exists; exists name; split;
          [exact Hin|apply String.eqb_refl]).
    congruence. }
  unfold generateRecommendations. cbv zeta.
  rewrite (Hno "low_bitrate") by (apply Hnot; reflexivity).
  rewrite (Hno "unusual_resolution") by (apply Hnot; reflexivity).
  destruct (includes categories "no_video_stream");
    destruct (includes categories "no_audio_long_video");
    destruct (includes categories "manual_review_recommended");
    cbn; repeat split; try discriminate;
    intros H; repeat (destruct H as [H|H]; [discriminate H|]); contradiction.
Qed.

End SensitivityBounds.

(* ================================================================== *)
(** * A changed email moves the login *)
(* ================================================================== *)

Section ProfileEmail.

Variable cfg : Config.

Lemma find_all_false {A : Type} (p : A -> bool) (l : list A) :
  (forall x, In x l -> p x = false) -> find p l = None.
Proof.
  intros H. destruct (find p l) as [x|] eqn:E; [|reflexivity].
  apply find_some in E as [Hin Hp]. rewrite (H x Hin) in Hp. discriminate.
Qed.

(** Among rows none of which satisfies [p], replacing the rows of one id
    by a row that does makes that row the first match. *)
Lemma find_replaced (p : User -> bool) (u' : User) (l : list User) :
  (forall x, In x l -> p x = false) ->
  (exists x, In x l /\ user_id x = user_id u') ->
  p u' = true ->
  find p (map (fun x => if Nat.eqb (user_id x) (user_id u') then u' else x) l)
  = Some u'.
Proof.
  intros Hnone (x0 & Hin & Hid) Hp.
  induction l as [|a l IH]; [destruct Hin|]. cbn [map find].
  destruct (Nat.eqb_spec (user_id a) (user_id u')) as [Heq|Hne].
  - now rewrite Hp.
  - rewrite (Hnone a (or_introl eq_refl)). apply IH.
    + intros x Hx. apply Hnone. now right.
    + destruct Hin as [->|Hin]; [congruence|exact Hin].
Qed.

(** A user who changes their email to a free, well-formed address logs in
    under the new address from then on, with the password as before, and
    no longer under the old one. *)
Theorem profile_email_change (now : Z) (db : DB) (attached user : User)
    (e : string) :
  emails_unique db ->
  User_findById db (user_id attached) = Some user ->
  user_row_valid user = true ->
  JS.truthy e = true ->
  e <> user_email user ->
  User_findOne_email db e = None ->
  email_matches (cast_lower_trim e) = true ->
  reply_status (fst (updateProfile db attached None (Some e))) = 200%nat
  /\ (forall password,
        res_status
          (fst (login cfg now (snd (updateProfile db attached None (Some e)))
                  e password))
        = 200%nat
        <-> user_isActive user = true /\ comparePassword user password = true)
  /\ (forall old password,
        cast_lower_trim old = user_email user ->
        login cfg now (snd (updateProfile db attached None (Some e)))
          old password
        = (json 401 [("error", "Invalid email or password")],
           snd (updateProfile db attached None (Some e)))).
Proof.
  intros Huniq Hfind Hvalid Htruthy Hne Hfree Hemail.
  pose proof (findById_In db _ user Hfind) as [Hin Hid].
  unfold updateProfile. rewrite Hfind. unfold truthyName. rewrite Htruthy, Hfree.
  apply String.eqb_neq in Hne. rewrite Hne. cbn [negb andb].
  set (user' := with_profile user (cast_lower_trim e) (user_name user)).
  assert (Hvalid' : user_row_valid user' = true).
  { unfold user_row_valid in *. cbn [user' with_profile user_email user_name].
    rewrite Hemail. apply andb_true_iff in Hvalid as [_ ->]. reflexivity. }
  rewrite Hvalid'. cbn [fst snd]. split; [reflexivity|].
  assert (Hcast : user_email user <> cast_lower_trim e).
  { intros Heq. unfold User_findOne_email in Hfree.
    apply (find_none _ _ Hfree) in Hin. rewrite Heq, String.eqb_refl in Hin.
    discriminate. }
  assert (Hnew : User_findOne_email (User_replace db user') e = Some user').
  { unfold User_findOne_email. cbn [users User_replace].
    apply find_replaced.
    - intros x Hx. unfold User_findOne_email in Hfree.
      exact (find_none _ _ Hfree x Hx).
    - exists user. split; [exact Hin|reflexivity].
    - cbn [user' with_profile user_email]. apply String.eqb_refl. }
  split.
  - intros password. unfold login. rewrite Hnew.
    change (user_isActive user') with (user_isActive user).
    change (comparePassword user' password) with (comparePassword user password).
    rewrite Hvalid'.
    destruct (user_isActive user); cbn [negb];
      [|split; [discriminate|intros [H _]; discriminate H]].
    destruct (comparePassword user password); cbn [negb];
      [split; auto|split; [discriminate|intros [_ H]; discriminate H]].
  - intros old password Hold.
    assert (Hgone : User_findOne_email (User_replace db user') old = None).
    { unfold User_findOne_email. cbn [users User_replace].
      apply find_all_false. intros y Hy. apply in_map_iff in Hy as (x & <- & Hx).
      rewrite Hold. apply String.eqb_neq.
      destruct (Nat.eqb_spec (user_id x) (user_id user')) as [Heq|Hneq].
      - cbn [user' with_profile user_email]. congruence.
      - intros Heq. apply Hneq.
        now rewrite (NoDup_map_same user_email (users db) x user Huniq Hx Hin Heq). }
    unfold login. now rewrite Hgone.
Qed.

End ProfileEmail.

(* ================================================================== *)
(** * Deleting a video *)
(* ================================================================== *)

Section DeleteVideo.

Variable thumbnailUrl : Video -> option string.


Lemma deleteFile_keeps (db : DB) (key : string) :
  users (storage_deleteFile db key) = users db
  /\ organizations (storage_deleteFile db key) = organizations db
  /\ videos (storage_deleteFile db key) = videos db
  /\ nextId (storage_deleteFile db key) = nextId db.
Proof. repeat split. Qed.

Lemma deleteFile_gone (db : DB) (key : string) :
  file_at (storage_deleteFile db key) key = None.
Proof.
  unfold file_at, storage_deleteFile. cbn [files].
  rewrite find_filter_none; [reflexivity|].
  intros x _ Hx. now rewrite Hx.
Qed.

Lemma deleteFile_stays_gone (db : DB) (key other : string) :
  file_at db key = None -> file_at (storage_deleteFile db other) key = None.
Proof.
  unfold file_at, storage_deleteFile. cbn [files]. intros H.
  destruct (find _ (files db)) as [kv|] eqn:E; [discriminate|].
  rewrite find_all_false; [reflexivity|].
  intros x Hx. apply filter_In in Hx as [Hx _]. exact (find_none _ _ E x Hx).
Qed.


(** [deleteVideo] never looks at the organization: an admin who is
    refused the video of another organization by GET /api/videos/:id (403)
    is allowed to delete it.  The video and its file are then gone, and
    the stream route answers 404 to everybody. *)
Theorem delete_ignores_organization (cfg : Config) (now : Z) (db : DB)
    (req : Request) (caller : User) (v : Video) :
  authenticate cfg now db req = inr caller ->
  Video_findById db (params_id req) = Some v ->
  video_organizationId v <> user_organizationId caller ->
  user_role caller = admin ->
  res_status (GET_video cfg now db req) = 403%nat
  /\ reply_status (fst (deleteVideo thumbnailUrl db caller (Some (params_id req))))
     = 200%nat
  /\ Video_findById (snd (deleteVideo thumbnailUrl db caller (Some (params_id req))))
       (params_id req) = None
  /\ file_at (snd (deleteVideo thumbnailUrl db caller (Some (params_id req))))
       (video_storageKey v) = None
  /\ (forall now' req',
        params_id req' = params_id req ->
        res_status
          (fst (GET_stream cfg now'
                  (snd (deleteVideo thumbnailUrl db caller (Some (params_id req))))
                  req'))
        = 404%nat).
Proof.
  intros Hauth Hfind Horg Hrole.
  split.
  { unfold GET_video. rewrite Hauth. unfold getVideo. rewrite Hfind.
    apply Nat.eqb_neq in Horg. now rewrite Horg. }
  assert (Hid : video_id v = params_id req).
  { unfold Video_findById in Hfind. apply find_some in Hfind as [_ H].
    now apply Nat.eqb_eq. }
  unfold deleteVideo. rewrite Hfind, Hrole. cbn [Role_eqb negb].
  rewrite andb_false_r. cbn [fst snd reply_status success].
  split; [reflexivity|].
  assert (Hgone : forall d, Video_findById
                    {| users := users d; organizations := organizations d;
                       videos := filter (fun x => negb (Nat.eqb (video_id x) (video_id v)))
                                        (videos d);
                       files := files d; nextId := nextId d |} (params_id req)
                  = None).
  { intros d. unfold Video_findById. cbn [videos]. apply find_filter_none.
    intros x _ Hx. apply Nat.eqb_eq in Hx. rewrite Hx, Hid.
    now rewrite Nat.eqb_refl. }
  split; [apply Hgone|]. split.
  - unfold file_at at 1. cbn [files]. fold (file_at
      match thumbnailUrl v with
      | Some url =>
          if JS.truthy url
          then storage_deleteFile (storage_deleteFile db (video_storageKey v)) url
          else storage_deleteFile db (video_storageKey v)
      | None => storage_deleteFile db (video_storageKey v)
      end (video_storageKey v)).
    destruct (thumbnailUrl v) as [url|]; [destruct (JS.truthy url)|];
      try apply deleteFile_gone.
    apply deleteFile_stays_gone, deleteFile_gone.
  - intros now' req' Hreq'. unfold GET_stream, streamVideo.
    rewrite Hreq', Hgone. reflexivity.
Qed.

End DeleteVideo.

(* ================================================================== *)
(** * Concrete runs *)
(* ================================================================== *)

Lemma store_ok_db0 : store_ok db0.
Proof.
  unfold store_ok, users_unique, emails_unique, slugs_unique,
    organizations_unique, ids_fresh, rows_valid, members_have_organization.
  repeat split.
  - cbn. repeat (constructor; [cbn; intuition discriminate|]). constructor.
  - cbn. repeat (constructor; [cbn; intuition discriminate|]). constructor.
  - cbn. repeat (constructor; [cbn; intuition discriminate|]). constructor.
  - cbn. repeat (constructor; [cbn; intuition discriminate|]). constructor.
  - intros u Hu. cbn in Hu.
    repeat (destruct Hu as [<-|Hu]; [cbn; lia|]). contradiction.
  - intros o Ho. cbn in Ho.
    repeat (destruct Ho as [<-|Ho]; [cbn; lia|]). contradiction.
  - intros u Hu. cbn in Hu.
    repeat (destruct Hu as [<-|Hu]; [vm_compute; reflexivity|]). contradiction.
  - intros u Hu. cbn in Hu.
    destruct Hu as [<-|[<-|[<-|[<-|[]]]]];
      [exists acme|exists acme|exists acme|exists globex];
      (split; [cbn; tauto|reflexivity]).
Qed.

(** Alice's refresh token in the [Authorization] header: 401, and
    [optionalAuth] attaches nobody. *)
Lemma foreign_key_rejected_witness :
  authenticate cfg0 0 db0 (requestBearing refreshOfAlice)
  = inl (json 401 [("error", "Invalid token")])
  /\ optionalAuth cfg0 0 db0 (requestBearing refreshOfAlice) = None.
Proof.
  apply (foreign_key_rejected cfg0 0 db0 (requestBearing refreshOfAlice)
           "refresh-secret" 10%nat None 0 604800);
    [reflexivity|vm_compute; discriminate].
Defined.

(** Alice logs in, then deactivates Bob. *)
Lemma serve_keeps_store_ok_witness :
  store_ok (serveAll cfg0 db0
              [(5, Login "alice@acme.io" "Abcdef12");
               (6, ToggleUserStatus (requestAs alice 0 None) 11%nat)]).
Proof.
  apply (serve_keeps_store_ok cfg0 db0). exact store_ok_db0.
Defined.

(** Alice logs out; the refresh token of her session is then refused. *)
Lemma logout_revokes_witness :
  res_status (fst (POST_logout cfg0 0 dbWithSlot (requestAs alice 0 None)))
  = 200%nat
  /\ res_status
       (fst (refreshToken cfg0 5
               (snd (POST_logout cfg0 0 dbWithSlot (requestAs alice 0 None)))
               (refreshRequest refreshOfAlice)))
     = 401%nat.
Proof.
  apply (logout_revokes cfg0 0 5 dbWithSlot (requestAs alice 0 None)
           (refreshRequest refreshOfAlice)
           (with_refreshToken alice (Some refreshOfAlice)));
    [vm_compute; reflexivity|].
  intros t [= <-]. vm_compute. reflexivity.
Defined.

(** Erin registers at time 100 and logs in at time 150. *)
Lemma register_then_login_witness :
  User_findOne_email (snd after_erin) (reg_email erin_body) = Some erin
  /\ res_status (fst (login cfg0 150 (snd after_erin)
                        (reg_email erin_body) (reg_password erin_body)))
     = 200%nat.
Proof.
  destruct (register_then_login cfg0 100 150 emptyDb (snd after_erin) erin_body
              (fst after_erin))
    as (user & Hfind & _ & _ & _ & Hlogin);
    [vm_compute; reflexivity..|].
  vm_compute in Hfind. injection Hfind as <-.
  split; [vm_compute; reflexivity|]. rewrite Hlogin. reflexivity.
Defined.

(** The tokens of Erin's registration, used fifty seconds later. *)
Lemma register_tokens_work_witness :
  authenticate cfg0 150 (snd after_erin) (requestBearing erin_access) = inr erin
  /\ res_status (fst (refreshToken cfg0 150 (snd after_erin)
                        (refreshRequest erin_refresh)))
     = 200%nat.
Proof.
  destruct (register_tokens_work cfg0 100 150 emptyDb (snd after_erin) erin_body
              (fst after_erin) erin erin_access (requestBearing erin_access)
              (refreshRequest erin_refresh)) as [Haccess Hrefresh].
  - split; intros ? [].
  - vm_compute. reflexivity.
  - vm_compute. reflexivity.
  - vm_compute. reflexivity.
  - reflexivity.
  - vm_compute. reflexivity.
  - split; [apply Haccess|apply Hrefresh]; vm_compute; reflexivity.
Defined.

(** Alice logs in again at time 10: the refresh token of her session of
    time 0 is refused from then on. *)
Lemma login_session_witness :
  res_status
    (fst (refreshToken cfg0 20
            (snd (login cfg0 10 dbWithSlot "alice@acme.io" "Abcdef12"))
            (refreshRequest refreshOfAlice)))
  = 401%nat.
Proof.
  assert (Huniq : users_unique dbWithSlot).
  { unfold users_unique. cbn.
    repeat (constructor; [cbn; intuition discriminate|]). constructor. }
  destruct (login_session cfg0 10 dbWithSlot "alice@acme.io" "Abcdef12" Huniq)
    as (user & accessToken & refreshToken_ & Hbody & Hcookie & _ & _ & Hold).
  - vm_compute. reflexivity.
  - vm_compute in Hbody. injection Hbody as <- _.
    vm_compute in Hcookie. injection Hcookie as <-.
    apply (Hold (refreshRequest refreshOfAlice) 20 refreshOfAlice);
      [reflexivity|vm_compute; discriminate|vm_compute; reflexivity].
Defined.

(** Erin's registration sent twice: the second is refused, because her
    email is in the store. *)
Lemma register_conflict_witness :
  (exists u, In u (users (snd after_erin))
             /\ user_email u = cast_lower_trim (reg_email erin_body))
  /\ snd erin_again = snd after_erin.
Proof.
  destruct (register_conflict cfg0 200 (snd after_erin) erin_body)
    as (r & db' & Hreg & _ & Hiff & Hsame).
  vm_compute in Hreg. injection Hreg as <- <-.
  split; [apply Hiff; reflexivity|].
  symmetry. apply Hsame. reflexivity.
Defined.

(** Ivy's registration fails on her name and leaves "Umbrella" behind. *)
Lemma failed_registration_leaves_organization_witness :
  exists r db' o,
    register cfg0 100 emptyDb ivy_body = Some (r, db')
    /\ res_status r = 500%nat
    /\ users db' = users emptyDb
    /\ organizations db' = (organizations emptyDb ++ [o])%list
    /\ org_name o = JS.trim "Umbrella"
    /\ org_ownerId o = None.
Proof.
  apply (failed_registration_leaves_organization cfg0 100 emptyDb ivy_body
           "Umbrella"); vm_compute; reflexivity.
Defined.

(** Erin's registration makes her the owner of "Initech". *)
Lemma named_registration_owner_witness :
  exists user accessToken o,
    res_body (fst after_erin) = JsonSession user accessToken
    /\ In o (organizations (snd after_erin))
    /\ org_id o = user_organizationId user
    /\ org_ownerId o = Some (user_id user)
    /\ org_name o = JS.trim "Initech"
    /\ (forall x, In x (organizations emptyDb) ->
                  In x (organizations (snd after_erin))).
Proof.
  apply (named_registration_owner cfg0 100 emptyDb (snd after_erin) erin_body
           (fst after_erin) "Initech");
    [split; intros ? []|vm_compute; reflexivity..].
Defined.

(** Bob, an editor, is made admin: his token of before attaches an
    admin. *)
Lemma role_change_immediate_witness :
  authenticate cfg0 0 (snd (updateUserRole db0 (user_id bob) "admin"))
    (requestAs bob 0 None)
  = inr (with_role bob admin).
Proof.
  apply (proj1 (proj2 (role_change_immediate cfg0 0 db0 (requestAs bob 0 None)
                         bob "admin" admin eq_refl eq_refl))).
Defined.

(** Alice deactivates Bob: his token is refused. *)
Lemma deactivation_locks_out_witness :
  exists denied,
    authenticate cfg0 1 (snd (toggleUserStatus db0 alice (user_id bob)))
      (requestAs bob 0 None) = inl denied
    /\ res_status denied = 401%nat.
Proof.
  destruct (deactivation_locks_out cfg0 0 db0 (requestAs bob 0 None) bob alice)
    as (_ & Haccess & _).
  - reflexivity.
  - vm_compute. discriminate.
  - vm_compute. reflexivity.
  - exact (Haccess 1).
Defined.


(** Alice deletes Bob: a login as Bob is answered as for an unknown
    email. *)
Lemma deleted_user_locked_out_witness :
  login cfg0 0 (snd (deleteUser db0 alice 11 true false)) "Bob@acme.io" "Abcdef12"
  = (json 401 [("error", "Invalid email or password")],
     snd (deleteUser db0 alice 11 true false)).
Proof.
  destruct (deleted_user_locked_out cfg0 db0 alice bob 11%nat true false)
    as (_ & _ & Hlogin).
  - exact (proj1 (proj2 store_ok_db0)).
  - reflexivity.
  - vm_compute. discriminate.
  - apply (Hlogin 0 "Bob@acme.io" "Abcdef12"). vm_compute. reflexivity.
Defined.

(** Alice deletes Bob and keeps his videos: his private video 101 answers
    500 to Alice. *)
Lemma deleted_uploader_private_video_witness :
  GET_video cfg0 0 (snd (deleteUser db1 alice 11 true false)) (requestAs alice 101 None)
  = json 500 [("error", "Failed to fetch video")].
Proof.
  apply (deleted_uploader_private_video cfg0 0 db1 alice alice 11%nat true
           (requestAs alice 101 None) video101); reflexivity.
Defined.

(** Alice sends her own email with capitals. *)
Lemma own_email_recased_is_conflict_witness :
  updateProfile db0 alice None (Some "Alice@Acme.io")
  = (failure 409 "Email already in use", db0).
Proof.
  apply (own_email_recased_is_conflict db0 alice alice None "Alice@Acme.io");
    [reflexivity|vm_compute; discriminate|vm_compute; reflexivity|reflexivity].
Defined.

(** Alice streams video 100 once: its view count is 1. *)
Lemma served_stream_counts_view_witness :
  exists v',
    Video_findById (snd (streamVideo db0 (requestAs alice 100 None) (Some alice)))
      100
    = Some v'
    /\ video_viewCount v' = 1.
Proof.
  destruct (served_stream_counts_view db0 (requestAs alice 100 None) (Some alice)
              (or_introl eq_refl))
    as (v & v' & Hfind & _ & Hfind' & Hcount & _).
  exists v'. split; [exact Hfind'|].
  vm_compute in Hfind. injection Hfind as <-. exact Hcount.
Defined.

(** Alice asks for [bytes=2-] of the four-byte blob. *)
Lemma open_ended_range_witness :
  res_status (fst (streamVideo db0
                     (requestAs alice 100 (Some (open_range_header 2)))
                     (Some alice)))
  = 206%nat
  /\ streamed (fst (streamVideo db0
                      (requestAs alice 100 (Some (open_range_header 2)))
                      (Some alice)))
     = [Byte.x43; Byte.x44].
Proof.
  destruct (open_ended_range db0
              (requestAs alice 100 (Some (open_range_header 2))) (Some alice)
              video100 blob100 2) as [Hinside _].
  - reflexivity.
  - intros user [= <-]. reflexivity.
  - reflexivity.
  - reflexivity.
  - reflexivity.
  - vm_compute. discriminate.
  - vm_compute. discriminate.
  - destruct Hinside as (Hstatus & _ & _ & Hbytes);
      [vm_compute; reflexivity|].
    split; [exact Hstatus|]. rewrite Hbytes. reflexivity.
Defined.



(** The report of the audio-only file rates [no_video_stream] high. *)
Lemma report_never_medium_witness :
  Sensitivity.high <> Sensitivity.medium
  /\ (Sensitivity.high = Sensitivity.high
      <-> "no_video_stream" = "no_video_stream"
          \/ "no_video_stream" = "many_black_frames").
Proof.
  apply (SensitivityBounds.report_never_medium probe_audio_only "" facts_mp4 None
           "no_video_stream" Sensitivity.high).
  vm_compute. left. reflexivity.
Defined.

(** Alice moves to a new address and logs in under it. *)
Lemma profile_email_change_witness :
  res_status
    (fst (login cfg0 5
            (snd (updateProfile db0 alice None (Some "Alice@Newmail.io")))
            "Alice@Newmail.io" "Abcdef12"))
  = 200%nat.
Proof.
  destruct (profile_email_change cfg0 5 db0 alice alice "Alice@Newmail.io")
    as (_ & Hlogin & _).
  - exact (proj1 (proj2 store_ok_db0)).
  - reflexivity.
  - vm_compute. reflexivity.
  - reflexivity.
  - vm_compute. discriminate.
  - vm_compute. reflexivity.
  - vm_compute. reflexivity.
  - apply Hlogin. split; vm_compute; reflexivity.
Defined.

(** Eve, admin of the second organization, may not read video 100 of the
    first, but deletes it. *)
Lemma delete_ignores_organization_witness :
  res_status (GET_video cfg0 0 db2 (requestAs eve 100 None)) = 403%nat
  /\ reply_status (fst (deleteVideo (fun _ => None) db2 eve (Some 100%nat))) = 200%nat
  /\ Video_findById (snd (deleteVideo (fun _ => None) db2 eve (Some 100%nat))) 100 = None.
Proof.
  destruct (delete_ignores_organization (fun _ => None) cfg0 0 db2
              (requestAs eve 100 None) eve video100)
    as (Hread & Hdelete & Hgone & _).
  - reflexivity.
  - reflexivity.
  - vm_compute. discriminate.
  - reflexivity.
  - auto.
Defined.
